(** * WaterIntake: the water-consumption estimation model

    A shallow embedding of the two estimators of [server/routes.ts],
    [calculateInitialWaterConsumption] (the Baseline Estimator) and
    [calculateDailyWaterConsumption] (the Daily Adjuster), of the route
    handlers that persist their results and of the password functions of
    [server/auth.ts], with the properties the specification states about
    them.

    The source computes on JavaScript numbers.  The embedding is written once
    over an interface [Number] of the operations the two functions use.
    - [F64Number] is IEEE 754 binary64, the arithmetic the program runs on.
      The properties of the estimators are proved for every instance of the
      interface, or on this one from the specification of its operations
      ([SpecFloat], [FloatAxioms]).
    - [QNumber] is exact rational arithmetic.  It serves the figures the
      specification gives in decimals (-63 + 80 = 17) and the comparisons of
      the goal route, and the runs that show where exact and binary64
      results part. *)

From Stdlib Require Import ZArith QArith Qabs Qround Qpower Lqa Lia Bool List String.
From Stdlib Require Import PrimFloat SpecFloat FloatOps FloatAxioms.
From Stdlib Require Import Ascii.
From Stdlib Require Strings.Byte.
Import ListNotations.

Set Implicit Arguments.

(** ** JavaScript numbers *)

(** The operations on numbers the estimators use.  [lit q] is the number a
    decimal literal of value [q] denotes, [ltb] is [<], [abs] is [Math.abs],
    [round] is [Math.round] and [truthy] is the conversion of a number to a
    boolean in the condition of an [if]. *)
Class Number (num : Type) : Type := {
  lit : Q -> num;
  add : num -> num -> num;
  sub : num -> num -> num;
  mul : num -> num -> num;
  div : num -> num -> num;
  ltb : num -> num -> bool;
  abs : num -> num;
  round : num -> num;
  truthy : num -> bool
}.

Arguments lit {num _} _%_Q.

Declare Scope num_scope.
Delimit Scope num_scope with num.
Infix "+" := add : num_scope.
Infix "-" := sub : num_scope.
Infix "*" := mul : num_scope.
Infix "/" := div : num_scope.
Infix "<?" := ltb : num_scope.

(** *** Exact rationals *)

(** [Math.round] rounds to the nearest integer, a tie towards +infinity. *)
Definition Qround_half_up (q : Q) : Q := inject_Z (Qfloor (q + (1 # 2))%Q).

Definition Qltb (x y : Q) : bool := negb (Qle_bool y x).

Definition Qtruthy (q : Q) : bool := negb (Qeq_bool q 0%Q).

#[global] Instance QNumber : Number Q := {
  lit q := q;
  add := Qplus;
  sub := Qminus;
  mul := Qmult;
  div := Qdiv;
  ltb := Qltb;
  abs := Qabs;
  round := Qround_half_up;
  truthy := Qtruthy
}.

(** *** IEEE 754 binary64 *)

Definition f64_of_Z (z : Z) : float :=
  SF2Prim (binary_normalize prec emax z 0 false).

(** A decimal literal denotes the double nearest to its value; the quotient
    of two exactly represented integers is correctly rounded. *)
Definition f64_lit (q : Q) : float :=
  PrimFloat.div (f64_of_Z (Qnum q)) (f64_of_Z (Zpos (Qden q))).

(** [Math.round] on a double: NaN, the infinities, the zeros and the doubles
    with no fractional part are returned as they are; otherwise the result is
    floor(x + 1/2), computed exactly, and -0 when that is zero and x is
    negative. *)
Definition f64_round (x : float) : float :=
  match Prim2SF x with
  | S754_finite s m e =>
      if (0 <=? e)%Z then x
      else
        let sm := if s then Z.neg m else Z.pos m in
        let q := Z.shiftr (2 * sm + Z.shiftl 1 (- e)) (1 - e) in
        if (q =? 0)%Z then (if s then PrimFloat.opp PrimFloat.zero else PrimFloat.zero)
        else f64_of_Z q
  | _ => x
  end.

(** 0, -0 and NaN are falsy, every other number is truthy. *)
Definition f64_truthy (x : float) : bool :=
  if PrimFloat.is_nan x then false else negb (PrimFloat.eqb x PrimFloat.zero).

#[global] Instance F64Number : Number float := {
  lit := f64_lit;
  add := PrimFloat.add;
  sub := PrimFloat.sub;
  mul := PrimFloat.mul;
  div := PrimFloat.div;
  ltb := PrimFloat.ltb;
  abs := PrimFloat.abs;
  round := f64_round;
  truthy := f64_truthy
}.

(** ** Data model (shared/schema.ts) *)

(** A row of [initial_quiz_responses].  Every column is nullable and every
    key of the validation schema is optional: [None] is a field that is
    [null] or [undefined]. *)
Record InitialQuizResponse (num : Type) : Type := {
  appliances : option (list string);
  greywater : option bool;
  bathsPerMonth : option num;
  dishwasherType : option string;
  dishwasherFrequency : option num;
  laundryType : option string;
  laundryFrequency : option num;
  hasGarden : option bool;
  gardenArea : option num;
  gardenFrequency : option num;
  hasPool : option bool;
  carWashMethod : option string;
  carWashFrequency : option num;
  utilityPercentage : option num;
  shoppingHabits : option string
}.

(** A row of [daily_quiz_responses]. *)
Record DailyQuizResponse (num : Type) : Type := {
  showerMinutes : option num;
  bathroomSinkMinutes : option num;
  kitchenSinkMinutes : option num;
  toiletFlushes : option num;
  rainwaterCollected : option num;
  milesDriven : option num;
  recycledPaper : option num;
  recycledPlastic : option num;
  recycledBottlesCans : option num;
  veggiesConsumed : option num;
  meatConsumed : option num;
  petFoodUsed : option num
}.

(** The object both estimators return: the total and the eleven categories. *)
Record WaterConsumption (num : Type) : Type := {
  totalGallons : num;
  showerGallons : num;
  toiletGallons : num;
  kitchenGallons : num;
  dishwasherGallons : num;
  laundryGallons : num;
  gardenGallons : num;
  poolGallons : num;
  carWashGallons : num;
  energyGallons : num;
  shoppingGallons : num;
  otherGallons : num
}.

(** ** The estimators (server/routes.ts) *)

Section Estimators.

Context {num : Type} {N : Number num}.
Local Open Scope string_scope.
Local Open Scope num_scope.

(** [if (field) ...] on a numeric field: the branch is taken when the field
    is present and truthy. *)
Definition ifNum {X : Type} (field : option num) (then_ : num -> X) (else_ : X) : X :=
  match field with
  | Some v => if truthy v then then_ v else else_
  | None => else_
  end.

(** [if (field) ...] on a boolean field. *)
Definition isTrue (field : option bool) : bool :=
  match field with
  | Some b => b
  | None => false
  end.

(** [field === s] on a text field. *)
Definition strictEq (field : option string) (s : string) : bool :=
  match field with
  | Some v => String.eqb v s
  | None => false
  end.

(** [array.includes(s)] *)
Definition includes (s : string) (array : list string) : bool :=
  existsb (String.eqb s) array.

(** [field?.includes(s)] in a condition: [undefined], hence falsy, when the
    field is absent. *)
Definition optIncludes (s : string) (field : option (list string)) : bool :=
  match field with
  | Some array => includes s array
  | None => false
  end.

(** [truthy] of a numeric field, as the right operand of [&&]. *)
Definition isSet (field : option num) : bool :=
  ifNum field (fun _ => true) false.

(** The value of a numeric field the guard has found truthy. *)
Definition valueOf (field : option num) : num :=
  match field with
  | Some v => v
  | None => lit 0
  end.

(** Assignments to the properties of [updatedConsumption]. *)
Definition withTotal (v : num) (c : WaterConsumption num) : WaterConsumption num :=
  {| totalGallons := v;
     showerGallons := showerGallons c;
     toiletGallons := toiletGallons c;
     kitchenGallons := kitchenGallons c;
     dishwasherGallons := dishwasherGallons c;
     laundryGallons := laundryGallons c;
     gardenGallons := gardenGallons c;
     poolGallons := poolGallons c;
     carWashGallons := carWashGallons c;
     energyGallons := energyGallons c;
     shoppingGallons := shoppingGallons c;
     otherGallons := otherGallons c |}.

Definition withShower (v : num) (c : WaterConsumption num) : WaterConsumption num :=
  {| totalGallons := totalGallons c;
     showerGallons := v;
     toiletGallons := toiletGallons c;
     kitchenGallons := kitchenGallons c;
     dishwasherGallons := dishwasherGallons c;
     laundryGallons := laundryGallons c;
     gardenGallons := gardenGallons c;
     poolGallons := poolGallons c;
     carWashGallons := carWashGallons c;
     energyGallons := energyGallons c;
     shoppingGallons := shoppingGallons c;
     otherGallons := otherGallons c |}.

Definition withToilet (v : num) (c : WaterConsumption num) : WaterConsumption num :=
  {| totalGallons := totalGallons c;
     showerGallons := showerGallons c;
     toiletGallons := v;
     kitchenGallons := kitchenGallons c;
     dishwasherGallons := dishwasherGallons c;
     laundryGallons := laundryGallons c;
     gardenGallons := gardenGallons c;
     poolGallons := poolGallons c;
     carWashGallons := carWashGallons c;
     energyGallons := energyGallons c;
     shoppingGallons := shoppingGallons c;
     otherGallons := otherGallons c |}.

Definition withKitchen (v : num) (c : WaterConsumption num) : WaterConsumption num :=
  {| totalGallons := totalGallons c;
     showerGallons := showerGallons c;
     toiletGallons := toiletGallons c;
     kitchenGallons := v;
     dishwasherGallons := dishwasherGallons c;
     laundryGallons := laundryGallons c;
     gardenGallons := gardenGallons c;
     poolGallons := poolGallons c;
     carWashGallons := carWashGallons c;
     energyGallons := energyGallons c;
     shoppingGallons := shoppingGallons c;
     otherGallons := otherGallons c |}.

Definition withOther (v : num) (c : WaterConsumption num) : WaterConsumption num :=
  {| totalGallons := totalGallons c;
     showerGallons := showerGallons c;
     toiletGallons := toiletGallons c;
     kitchenGallons := kitchenGallons c;
     dishwasherGallons := dishwasherGallons c;
     laundryGallons := laundryGallons c;
     gardenGallons := gardenGallons c;
     poolGallons := poolGallons c;
     carWashGallons := carWashGallons c;
     energyGallons := energyGallons c;
     shoppingGallons := shoppingGallons c;
     otherGallons := v |}.

(** The sum both functions assign to the total, in the order of the source. *)
Definition sumCategories (c : WaterConsumption num) : num :=
  showerGallons c + toiletGallons c + kitchenGallons c + dishwasherGallons c +
  laundryGallons c + gardenGallons c + poolGallons c + carWashGallons c +
  energyGallons c + shoppingGallons c + otherGallons c.

(** "If total is negative, add to other to ensure non-negative total": the
    same four lines close both functions. *)
Definition ensureNonNegative (c : WaterConsumption num) : WaterConsumption num :=
  if totalGallons c <? lit 0
  then withTotal (lit 0) (withOther (otherGallons c + abs (totalGallons c)) c)
  else c.

(** "Convert all floating point values to integers": the object returned. *)
Definition roundAll (c : WaterConsumption num) : WaterConsumption num :=
  {| totalGallons := round (totalGallons c);
     showerGallons := round (showerGallons c);
     toiletGallons := round (toiletGallons c);
     kitchenGallons := round (kitchenGallons c);
     dishwasherGallons := round (dishwasherGallons c);
     laundryGallons := round (laundryGallons c);
     gardenGallons := round (gardenGallons c);
     poolGallons := round (poolGallons c);
     carWashGallons := round (carWashGallons c);
     energyGallons := round (energyGallons c);
     shoppingGallons := round (shoppingGallons c);
     otherGallons := round (otherGallons c) |}.

(** Steps 1 to 9 of [calculateInitialWaterConsumption] and the total: the
    values of the twelve local variables when the correction is reached. *)
Definition initialCategories (response : InitialQuizResponse num) : WaterConsumption num :=
  let showerGallons := lit 0 in
  let toiletGallons := lit 0 in
  let kitchenGallons := lit 0 in
  let dishwasherGallons := lit 0 in
  let laundryGallons := lit 0 in
  let gardenGallons := lit 0 in
  let poolGallons := lit 0 in
  let carWashGallons := lit 0 in
  let energyGallons := lit 0 in
  let shoppingGallons := lit 0 in
  let otherGallons := lit 0 in
  (* 1. Low-flow appliances *)
  let appliances := match appliances response with Some a => a | None => [] end in
  let showerGallons :=
    if includes "showerhead" appliances then showerGallons - lit 63
    else showerGallons in
  (* 2. Bath usage *)
  let showerGallons :=
    ifNum (bathsPerMonth response)
      (fun baths => let bathValue := (lit 80 * baths) / lit 30 in
                    showerGallons + bathValue)
      showerGallons in
  (* 3. Dishwasher usage *)
  let dishwasherGallons :=
    if strictEq (dishwasherType response) "yes_efficient"
       && isSet (dishwasherFrequency response)
    then dishwasherGallons + (lit 4 * valueOf (dishwasherFrequency response)) / lit 30
    else if strictEq (dishwasherType response) "yes_not_efficient"
            && isSet (dishwasherFrequency response)
    then dishwasherGallons + (lit 10 * valueOf (dishwasherFrequency response)) / lit 30
    else dishwasherGallons in
  (* 4. Laundry usage *)
  let laundryGallons :=
    if strictEq (laundryType response) "yes_efficient"
       && isSet (laundryFrequency response)
    then laundryGallons + (lit 14 * valueOf (laundryFrequency response)) / lit 30
    else if strictEq (laundryType response) "yes_not_efficient"
            && isSet (laundryFrequency response)
    then laundryGallons + (lit 20 * valueOf (laundryFrequency response)) / lit 30
    else laundryGallons in
  (* 5. Garden/lawn watering *)
  let gardenGallons :=
    if isTrue (hasGarden response) && isSet (gardenArea response)
       && isSet (gardenFrequency response)
    then gardenGallons +
         (lit 0.623 * valueOf (gardenArea response) * valueOf (gardenFrequency response))
         / lit 30
    else gardenGallons in
  (* 6. Swimming pool *)
  let poolGallons :=
    if isTrue (hasPool response) then poolGallons + lit 65 else poolGallons in
  (* 7. Car washing *)
  let carWashGallons :=
    if strictEq (carWashMethod response) "garden_hose"
       && isSet (carWashFrequency response)
    then carWashGallons + (lit 100 * valueOf (carWashFrequency response)) / lit 30
    else if strictEq (carWashMethod response) "drive_through"
            && isSet (carWashFrequency response)
    then carWashGallons + (lit 35 * valueOf (carWashFrequency response)) / lit 30
    else if strictEq (carWashMethod response) "self_service"
            && isSet (carWashFrequency response)
    then carWashGallons + (lit 17 * valueOf (carWashFrequency response)) / lit 30
    else carWashGallons in
  (* 8. Energy source *)
  let energyGallons :=
    ifNum (utilityPercentage response)
      (fun pct => energyGallons + lit 0.34 * pct)
      energyGallons in
  (* 9. Shopping habits *)
  let shoppingGallons :=
    if strictEq (shoppingHabits response) "basics" then shoppingGallons + lit 291
    else if strictEq (shoppingHabits response) "moderate" then shoppingGallons + lit 583
    else if strictEq (shoppingHabits response) "addict" then shoppingGallons + lit 1000
    else shoppingGallons in
  (* Calculate total *)
  let totalGallons :=
    showerGallons + toiletGallons + kitchenGallons + dishwasherGallons +
    laundryGallons + gardenGallons + poolGallons + carWashGallons +
    energyGallons + shoppingGallons + otherGallons in
  {| totalGallons := totalGallons;
     showerGallons := showerGallons;
     toiletGallons := toiletGallons;
     kitchenGallons := kitchenGallons;
     dishwasherGallons := dishwasherGallons;
     laundryGallons := laundryGallons;
     gardenGallons := gardenGallons;
     poolGallons := poolGallons;
     carWashGallons := carWashGallons;
     energyGallons := energyGallons;
     shoppingGallons := shoppingGallons;
     otherGallons := otherGallons |}.

Definition calculateInitialWaterConsumption (response : InitialQuizResponse num)
  : WaterConsumption num :=
  roundAll (ensureNonNegative (initialCategories response)).

(** One step of [calculateDailyWaterConsumption]: [if (field) { update }],
    the update acting on [updatedConsumption]. *)
Definition whenSet (field : option num)
    (update : num -> WaterConsumption num -> WaterConsumption num)
    (updatedConsumption : WaterConsumption num) : WaterConsumption num :=
  ifNum field (fun v => update v updatedConsumption) updatedConsumption.

(** Steps 1 to 12 of [calculateDailyWaterConsumption]: the updates of the
    copy [updatedConsumption] of the baseline, in the order of the source. *)
Definition applyDailyActivity (dailyResponse : DailyQuizResponse num)
    (initialResponse : InitialQuizResponse num)
    (updatedConsumption : WaterConsumption num) : WaterConsumption num :=
  let u := updatedConsumption in
  (* 1. Shower time *)
  let u :=
    whenSet (showerMinutes dailyResponse)
      (fun minutes u =>
         if optIncludes "showerhead" (appliances initialResponse)
         then withShower (showerGallons u + lit 1.8 * minutes) u
         else withShower (showerGallons u + lit 2.5 * minutes) u)
      u in
  (* 2. Bathroom sink usage *)
  let u :=
    whenSet (bathroomSinkMinutes dailyResponse)
      (fun minutes u =>
         if optIncludes "bathroom_sink" (appliances initialResponse)
         then withKitchen (kitchenGallons u + lit 1.5 * minutes) u
         else withKitchen (kitchenGallons u + lit 2.2 * minutes) u)
      u in
  (* 3. Kitchen sink usage *)
  let u :=
    whenSet (kitchenSinkMinutes dailyResponse)
      (fun minutes u =>
         if optIncludes "kitchen_sink" (appliances initialResponse)
         then withKitchen (kitchenGallons u + lit 1.5 * minutes) u
         else withKitchen (kitchenGallons u + lit 2.2 * minutes) u)
      u in
  (* 4. Toilet flushes *)
  let u :=
    whenSet (toiletFlushes dailyResponse)
      (fun flushes u =>
         if optIncludes "toilet" (appliances initialResponse)
         then withToilet (toiletGallons u + lit 1.6 * flushes) u
         else withToilet (toiletGallons u + lit 3.5 * flushes) u)
      u in
  (* 5. Rainwater collected (subtract from total) *)
  let u :=
    whenSet (rainwaterCollected dailyResponse)
      (fun gallons u => withTotal (totalGallons u - gallons) u)
      u in
  (* 6. Miles driven *)
  let u :=
    whenSet (milesDriven dailyResponse)
      (fun miles u => withOther (otherGallons u + lit 0.165 * miles) u)
      u in
  (* 7. Recycled paper *)
  let u :=
    whenSet (recycledPaper dailyResponse)
      (fun units u => withOther (otherGallons u + lit 0.04 * units) u)
      u in
  (* 8. Recycled plastic (subtract from total) *)
  let u :=
    whenSet (recycledPlastic dailyResponse)
      (fun units u => withTotal (totalGallons u - lit 0.03 * units) u)
      u in
  (* 9. Recycled bottles & cans (subtract from total) *)
  let u :=
    whenSet (recycledBottlesCans dailyResponse)
      (fun units u => withTotal (totalGallons u - lit 0.03 * units) u)
      u in
  (* 10. Veggies consumed *)
  let u :=
    whenSet (veggiesConsumed dailyResponse)
      (fun units u => withOther (otherGallons u + lit 0.085 * units) u)
      u in
  (* 11. Meat consumed *)
  let u :=
    whenSet (meatConsumed dailyResponse)
      (fun units u => withOther (otherGallons u + lit 2 * units) u)
      u in
  (* 12. Pet food *)
  whenSet (petFoodUsed dailyResponse)
    (fun units u => withOther (otherGallons u + lit 0.7 * units) u)
    u.

(** "Update total with changes to components". *)
Definition updateTotal (c : WaterConsumption num) : WaterConsumption num :=
  withTotal (sumCategories c) c.

(** The twelve properties of [updatedConsumption] when the correction is
    reached. *)
Definition dailyCategories (dailyResponse : DailyQuizResponse num)
    (initialResponse : InitialQuizResponse num) : WaterConsumption num :=
  let baseConsumption := calculateInitialWaterConsumption initialResponse in
  updateTotal (applyDailyActivity dailyResponse initialResponse baseConsumption).

Definition calculateDailyWaterConsumption (dailyResponse : DailyQuizResponse num)
    (initialResponse : InitialQuizResponse num) : WaterConsumption num :=
  roundAll (ensureNonNegative (dailyCategories dailyResponse initialResponse)).

End Estimators.

(** ** Inputs and observations the properties are stated on *)

Section Observations.

Context {num : Type} {N : Number num}.
Local Open Scope string_scope.

(** The eleven categories, in the order of the sum. *)
Definition categories (c : WaterConsumption num) : list num :=
  [ showerGallons c; toiletGallons c; kitchenGallons c; dishwasherGallons c;
    laundryGallons c; gardenGallons c; poolGallons c; carWashGallons c;
    energyGallons c; shoppingGallons c; otherGallons c ].

(** The twelve values of a breakdown: the total, then the categories. *)
Definition values (c : WaterConsumption num) : list num :=
  totalGallons c :: categories c.

(** The ten categories the correction never touches. *)
Definition categoriesButOther (c : WaterConsumption num) : list num :=
  [ showerGallons c; toiletGallons c; kitchenGallons c; dishwasherGallons c;
    laundryGallons c; gardenGallons c; poolGallons c; carWashGallons c;
    energyGallons c; shoppingGallons c ].

(** The column defaults of [initial_quiz_responses]. *)
Definition defaultProfile : InitialQuizResponse num :=
  {| appliances := Some [];
     greywater := Some false;
     bathsPerMonth := Some (lit 0);
     dishwasherType := Some "none";
     dishwasherFrequency := Some (lit 0);
     laundryType := Some "none";
     laundryFrequency := Some (lit 0);
     hasGarden := Some false;
     gardenArea := Some (lit 0);
     gardenFrequency := Some (lit 0);
     hasPool := Some false;
     carWashMethod := Some "none";
     carWashFrequency := Some (lit 0);
     utilityPercentage := Some (lit 0);
     shoppingHabits := Some "basics" |}.

(** A profile with no field set. *)
Definition absentProfile : InitialQuizResponse num :=
  {| appliances := None;
     greywater := None;
     bathsPerMonth := None;
     dishwasherType := None;
     dishwasherFrequency := None;
     laundryType := None;
     laundryFrequency := None;
     hasGarden := None;
     gardenArea := None;
     gardenFrequency := None;
     hasPool := None;
     carWashMethod := None;
     carWashFrequency := None;
     utilityPercentage := None;
     shoppingHabits := None |}.

(** An activity log with no field set. *)
Definition absentActivity : DailyQuizResponse num :=
  {| showerMinutes := None;
     bathroomSinkMinutes := None;
     kitchenSinkMinutes := None;
     toiletFlushes := None;
     rainwaterCollected := None;
     milesDriven := None;
     recycledPaper := None;
     recycledPlastic := None;
     recycledBottlesCans := None;
     veggiesConsumed := None;
     meatConsumed := None;
     petFoodUsed := None |}.

(** The twelve fields of an activity log. *)
Definition activityFields (d : DailyQuizResponse num) : list (option num) :=
  [ showerMinutes d; bathroomSinkMinutes d; kitchenSinkMinutes d; toiletFlushes d;
    rainwaterCollected d; milesDriven d; recycledPaper d; recycledPlastic d;
    recycledBottlesCans d; veggiesConsumed d; meatConsumed d; petFoodUsed d ].

(** An all-zero activity log: every field is absent or falsy. *)
Definition noActivity (d : DailyQuizResponse num) : bool :=
  forallb (fun field => negb (isSet field)) (activityFields d).

(** The log with [showerMinutes] replaced. *)
Definition withShowerMinutes (minutes : option num) (d : DailyQuizResponse num)
  : DailyQuizResponse num :=
  {| showerMinutes := minutes;
     bathroomSinkMinutes := bathroomSinkMinutes d;
     kitchenSinkMinutes := kitchenSinkMinutes d;
     toiletFlushes := toiletFlushes d;
     rainwaterCollected := rainwaterCollected d;
     milesDriven := milesDriven d;
     recycledPaper := recycledPaper d;
     recycledPlastic := recycledPlastic d;
     recycledBottlesCans := recycledBottlesCans d;
     veggiesConsumed := veggiesConsumed d;
     meatConsumed := meatConsumed d;
     petFoodUsed := petFoodUsed d |}.

(** The log with rainwaterCollected, recycledPlastic and recycledBottlesCans
    set to zero. *)
Definition withoutCredits (d : DailyQuizResponse num) : DailyQuizResponse num :=
  {| showerMinutes := showerMinutes d;
     bathroomSinkMinutes := bathroomSinkMinutes d;
     kitchenSinkMinutes := kitchenSinkMinutes d;
     toiletFlushes := toiletFlushes d;
     rainwaterCollected := Some (lit 0);
     milesDriven := milesDriven d;
     recycledPaper := recycledPaper d;
     recycledPlastic := Some (lit 0);
     recycledBottlesCans := Some (lit 0);
     veggiesConsumed := veggiesConsumed d;
     meatConsumed := meatConsumed d;
     petFoodUsed := petFoodUsed d |}.

(** An absent numeric field replaced by zero, an absent flag by [false], an
    absent enumeration by ["none"], an absent list by the empty list. *)
Definition orZero (field : option num) : option num :=
  Some (match field with Some v => v | None => lit 0 end).

Definition orFalse (field : option bool) : option bool :=
  Some (match field with Some b => b | None => false end).

Definition orNone (field : option string) : option string :=
  Some (match field with Some s => s | None => "none" end).

Definition orEmpty (field : option (list string)) : option (list string) :=
  Some (match field with Some a => a | None => [] end).

Definition fillProfile (p : InitialQuizResponse num) : InitialQuizResponse num :=
  {| appliances := orEmpty (appliances p);
     greywater := orFalse (greywater p);
     bathsPerMonth := orZero (bathsPerMonth p);
     dishwasherType := orNone (dishwasherType p);
     dishwasherFrequency := orZero (dishwasherFrequency p);
     laundryType := orNone (laundryType p);
     laundryFrequency := orZero (laundryFrequency p);
     hasGarden := orFalse (hasGarden p);
     gardenArea := orZero (gardenArea p);
     gardenFrequency := orZero (gardenFrequency p);
     hasPool := orFalse (hasPool p);
     carWashMethod := orNone (carWashMethod p);
     carWashFrequency := orZero (carWashFrequency p);
     utilityPercentage := orZero (utilityPercentage p);
     shoppingHabits := orNone (shoppingHabits p) |}.

Definition fillActivity (d : DailyQuizResponse num) : DailyQuizResponse num :=
  {| showerMinutes := orZero (showerMinutes d);
     bathroomSinkMinutes := orZero (bathroomSinkMinutes d);
     kitchenSinkMinutes := orZero (kitchenSinkMinutes d);
     toiletFlushes := orZero (toiletFlushes d);
     rainwaterCollected := orZero (rainwaterCollected d);
     milesDriven := orZero (milesDriven d);
     recycledPaper := orZero (recycledPaper d);
     recycledPlastic := orZero (recycledPlastic d);
     recycledBottlesCans := orZero (recycledBottlesCans d);
     veggiesConsumed := orZero (veggiesConsumed d);
     meatConsumed := orZero (meatConsumed d);
     petFoodUsed := orZero (petFoodUsed d) |}.

(** Scenario 3 and 5 of the specification: the column defaults, a low-flow
    showerhead and [baths] baths a month. *)
Definition showerheadProfile (baths : Q) : InitialQuizResponse num :=
  {| appliances := Some ["showerhead"];
     greywater := Some false;
     bathsPerMonth := Some (lit baths);
     dishwasherType := Some "none";
     dishwasherFrequency := Some (lit 0);
     laundryType := Some "none";
     laundryFrequency := Some (lit 0);
     hasGarden := Some false;
     gardenArea := Some (lit 0);
     gardenFrequency := Some (lit 0);
     hasPool := Some false;
     carWashMethod := Some "none";
     carWashFrequency := Some (lit 0);
     utilityPercentage := Some (lit 0);
     shoppingHabits := Some "basics" |}.

(** The column defaults with an efficient dishwasher and an efficient washing
    machine, each run three times a month: 0.4 and 1.4 gallons a day. *)
Definition fractionalProfile : InitialQuizResponse num :=
  {| appliances := Some [];
     greywater := Some false;
     bathsPerMonth := Some (lit 0);
     dishwasherType := Some "yes_efficient";
     dishwasherFrequency := Some (lit 3);
     laundryType := Some "yes_efficient";
     laundryFrequency := Some (lit 3);
     hasGarden := Some false;
     gardenArea := Some (lit 0);
     gardenFrequency := Some (lit 0);
     hasPool := Some false;
     carWashMethod := Some "none";
     carWashFrequency := Some (lit 0);
     utilityPercentage := Some (lit 0);
     shoppingHabits := Some "basics" |}.

(** A low-flow showerhead, no bath, an efficient dishwasher run three times a
    month, an efficient washing machine run once a month and no shopping
    class: a raw total of -63 + 0.4 + 14/30. *)
Definition deficitProfile : InitialQuizResponse num :=
  {| appliances := Some ["showerhead"];
     greywater := Some false;
     bathsPerMonth := Some (lit 0);
     dishwasherType := Some "yes_efficient";
     dishwasherFrequency := Some (lit 3);
     laundryType := Some "yes_efficient";
     laundryFrequency := Some (lit 1);
     hasGarden := Some false;
     gardenArea := Some (lit 0);
     gardenFrequency := Some (lit 0);
     hasPool := Some false;
     carWashMethod := Some "none";
     carWashFrequency := Some (lit 0);
     utilityPercentage := Some (lit 0);
     shoppingHabits := None |}.

(** The column defaults with the literal class names of the specification's
    data model in the four enumerated fields. *)
Definition unrecognizedProfile : InitialQuizResponse num :=
  {| appliances := Some [];
     greywater := Some false;
     bathsPerMonth := Some (lit 0);
     dishwasherType := Some "efficient";
     dishwasherFrequency := Some (lit 30);
     laundryType := Some "inefficient";
     laundryFrequency := Some (lit 30);
     hasGarden := Some false;
     gardenArea := Some (lit 0);
     gardenFrequency := Some (lit 0);
     hasPool := Some false;
     carWashMethod := Some "bucket";
     carWashFrequency := Some (lit 30);
     utilityPercentage := Some (lit 0);
     shoppingHabits := Some "minimal" |}.

(** A one-minute shower and one flush. *)
Definition showerAndFlush : DailyQuizResponse num :=
  {| showerMinutes := Some (lit 1);
     bathroomSinkMinutes := None;
     kitchenSinkMinutes := None;
     toiletFlushes := Some (lit 1);
     rainwaterCollected := None;
     milesDriven := None;
     recycledPaper := None;
     recycledPlastic := None;
     recycledBottlesCans := None;
     veggiesConsumed := None;
     meatConsumed := None;
     petFoodUsed := None |}.

(** A day with every field set. *)
Definition busyDay : DailyQuizResponse num :=
  {| showerMinutes := Some (lit 10);
     bathroomSinkMinutes := Some (lit 3);
     kitchenSinkMinutes := Some (lit 7);
     toiletFlushes := Some (lit 5);
     rainwaterCollected := Some (lit 40);
     milesDriven := Some (lit 12);
     recycledPaper := Some (lit 4);
     recycledPlastic := Some (lit 6);
     recycledBottlesCans := Some (lit 2);
     veggiesConsumed := Some (lit 3);
     meatConsumed := Some (lit 1);
     petFoodUsed := Some (lit 2) |}.

End Observations.

(** ** Observations on doubles *)

(** Equality of two doubles as numbers, as a boolean. *)
Definition f64_eqb (x y : float) : bool := PrimFloat.eqb x y.

(** ** Further inputs: the validation schema and edits of a profile *)

Section ProfileEdits.

Context {num : Type} {N : Number num}.
Local Open Scope string_scope.

(** The profile with the greywater flag replaced. *)
Definition withGreywater (flag : option bool) (p : InitialQuizResponse num)
  : InitialQuizResponse num :=
  {| appliances := appliances p;
     greywater := flag;
     bathsPerMonth := bathsPerMonth p;
     dishwasherType := dishwasherType p;
     dishwasherFrequency := dishwasherFrequency p;
     laundryType := laundryType p;
     laundryFrequency := laundryFrequency p;
     hasGarden := hasGarden p;
     gardenArea := gardenArea p;
     gardenFrequency := gardenFrequency p;
     hasPool := hasPool p;
     carWashMethod := carWashMethod p;
     carWashFrequency := carWashFrequency p;
     utilityPercentage := utilityPercentage p;
     shoppingHabits := shoppingHabits p |}.

(** The profile with one more low-flow appliance tag. *)
Definition withAppliance (tag : string) (p : InitialQuizResponse num)
  : InitialQuizResponse num :=
  {| appliances :=
       Some (tag :: match appliances p with Some a => a | None => [] end);
     greywater := greywater p;
     bathsPerMonth := bathsPerMonth p;
     dishwasherType := dishwasherType p;
     dishwasherFrequency := dishwasherFrequency p;
     laundryType := laundryType p;
     laundryFrequency := laundryFrequency p;
     hasGarden := hasGarden p;
     gardenArea := gardenArea p;
     gardenFrequency := gardenFrequency p;
     hasPool := hasPool p;
     carWashMethod := carWashMethod p;
     carWashFrequency := carWashFrequency p;
     utilityPercentage := utilityPercentage p;
     shoppingHabits := shoppingHabits p |}.

(** The seven categories only the profile decides. *)
Definition profileCategories (c : WaterConsumption num) : list num :=
  [ dishwasherGallons c; laundryGallons c; gardenGallons c; poolGallons c;
    carWashGallons c; energyGallons c; shoppingGallons c ].

End ProfileEdits.

(** ** Password hashing (server/auth.ts) *)

(** How a promise of [auth.ts] is rejected. *)
Inductive JsError : Type :=
| TypeError
| RangeError.

(** One hexadecimal digit of [Buffer.toString("hex")], lower case. *)
Definition hexDigit (n : N) : Ascii.ascii :=
  if (n <? 10)%N then ascii_of_N (48 + n) else ascii_of_N (87 + n).

(** The value of a hexadecimal digit, either case, as [Buffer.from(_, "hex")]
    reads it. *)
Definition unhex (c : Ascii.ascii) : option N :=
  let n := N_of_ascii c in
  if ((48 <=? n) && (n <=? 57))%N then Some (n - 48)%N
  else if ((97 <=? n) && (n <=? 102))%N then Some (n - 87)%N
  else if ((65 <=? n) && (n <=? 70))%N then Some (n - 55)%N
  else None.

(** [buf.toString("hex")]: two digits a byte. *)
Fixpoint toHex (buf : list Byte.byte) : string :=
  match buf with
  | [] => EmptyString
  | b :: rest =>
      String (hexDigit (Byte.to_N b / 16))
        (String (hexDigit (Byte.to_N b mod 16)) (toHex rest))
  end.

(** [Buffer.from(s, "hex")]: a byte for each pair of digits, up to the first
    pair that is not two digits; an odd last character is dropped. *)
Fixpoint fromHex (s : string) : list Byte.byte :=
  match s with
  | String hi (String lo rest) =>
      match unhex hi, unhex lo with
      | Some h, Some l =>
          match Byte.of_N (16 * h + l) with
          | Some b => b :: fromHex rest
          | None => []
          end
      | _, _ => []
      end
  | _ => []
  end.

(** [s.split(sep)] for a separator of one character: the segments between
    the separators, at least one. *)
Fixpoint split (sep : Ascii.ascii) (s : string) : list string :=
  match s with
  | EmptyString => [EmptyString]
  | String c rest =>
      if Ascii.eqb c sep then EmptyString :: split sep rest
      else match split sep rest with
           | seg :: segs => String c seg :: segs
           | [] => [String c EmptyString]
           end
  end.

(** Whether a character occurs in a string. *)
Fixpoint occurs (c : Ascii.ascii) (s : string) : bool :=
  match s with
  | EmptyString => false
  | String c' rest => Ascii.eqb c' c || occurs c rest
  end.

Fixpoint bytes_eqb (a b : list Byte.byte) : bool :=
  match a, b with
  | [], [] => true
  | x :: a', y :: b' => Byte.eqb x y && bytes_eqb a' b'
  | _, _ => false
  end.

(** [crypto.timingSafeEqual]: throws a RangeError on buffers of different
    lengths. *)
Definition timingSafeEqual (a b : list Byte.byte) : JsError + bool :=
  if Nat.eqb (List.length a) (List.length b) then inr (bytes_eqb a b)
  else inl RangeError.

Section PasswordHashing.

(** [scryptAsync(password, salt, keylen)]: the key derivation of Node's
    [crypto], taken as given. *)
Variable scrypt : string -> string -> nat -> list Byte.byte.

(** [hashPassword], the sixteen random bytes made an argument. *)
Definition hashPassword (password : string) (randomBytes : list Byte.byte) : string :=
  let salt := toHex randomBytes in
  let buf := scrypt password salt 64 in
  (toHex buf ++ "." ++ salt)%string.

(** [comparePasswords]: [inl] is a rejected promise.  With no second segment
    [salt] is [undefined], which [scrypt] rejects with a TypeError. *)
Definition comparePasswords (supplied stored : string) : JsError + bool :=
  match split "." stored with
  | hashed :: rest =>
      let hashedBuf := fromHex hashed in
      match rest with
      | salt :: _ =>
          let suppliedBuf := scrypt supplied salt 64 in
          timingSafeEqual hashedBuf suppliedBuf
      | [] => inl TypeError
      end
  | [] => inl TypeError
  end.

End PasswordHashing.

(** ** Storage, requests and responses (server/storage.ts, server/routes.ts) *)

(** A row of [users]. *)
Record User (num : Type) : Type := {
  id : Z;
  username : string;
  password : string;
  waterGoal : option num;
  initialQuizCompleted : option bool;
  name : option string;
  email : option string;
  phone : option string
}.

(** What [initialQuizValidationSchema.parse] and
    [dailyQuizValidationSchema.safeParse] report on a body they refuse: the
    message of the error and its formatted issues. *)
Record ZodError : Type := {
  zodMessage : string;
  zodFormat : string
}.

(** A JavaScript value read from a request body. *)
Inductive JsValue (num : Type) : Type :=
| JsUndefined
| JsNull
| JsBoolean (b : bool)
| JsNumber (n : num)
| JsString (s : string)
| JsObject.

Arguments JsUndefined {num}.
Arguments JsNull {num}.
Arguments JsBoolean {num} b.
Arguments JsString {num} s.
Arguments JsObject {num}.

Section Storage.

Variable num : Type.

(** [req.body], any JSON. *)
Variable Body : Type.

(** The data a daily quiz row is updated with: what the schema returned, or
    the body as it came. *)
Inductive DailyUpdate : Type :=
| Validated (data : DailyQuizResponse num)
| Unvalidated (body : Body).

(** The calls on [storage] (the interface [IStorage]) and on the session the
    handlers make, each with the type of what it resolves to.  The dates are
    the milliseconds of [new Date()]. *)
Inductive StorageCall : Type -> Type :=
| getUser (userId : Z) : StorageCall (option (User num))
| getUserByUsername (name : string) : StorageCall (option (User num))
| createUser (name : string) (hashed : string) : StorageCall (User num)
| updateUserGoal (userId : Z) (goal : num) : StorageCall (option (User num))
| updateUserInitialQuizStatus (userId : Z) (completed : bool)
    : StorageCall (option (User num))
| getInitialQuizResponse (userId : Z) : StorageCall (option (InitialQuizResponse num))
| createInitialQuizResponse (userId : Z) (data : InitialQuizResponse num)
    : StorageCall (InitialQuizResponse num)
| updateInitialQuizResponse (userId : Z) (data : InitialQuizResponse num)
    : StorageCall (option (InitialQuizResponse num))
| getDailyQuizResponse (userId : Z) (date : Z)
    : StorageCall (option (DailyQuizResponse num))
| createDailyQuizResponse (userId : Z) (data : DailyQuizResponse num)
    : StorageCall (DailyQuizResponse num)
| updateDailyQuizResponse (userId : Z) (date : Z) (data : DailyUpdate)
    : StorageCall (option (DailyQuizResponse num))
| getWaterConsumption (userId : Z) (date : Z)
    : StorageCall (option (WaterConsumption num))
| createWaterConsumption (userId : Z) (date : option Z) (data : WaterConsumption num)
    : StorageCall (WaterConsumption num)
| updateWaterConsumption (userId : Z) (date : Z) (data : WaterConsumption num)
    : StorageCall (option (WaterConsumption num))
| saveSession : StorageCall unit
| login (user : User num) : StorageCall unit.

(** An assignment to [req.user]. *)
Inductive SessionUpdate : Type :=
| setInitialQuizCompleted (completed : bool).

(** An asynchronous handler: it ends with a result, awaits a call that
    resolves or rejects with the message of an error, or assigns to the
    session user. *)
Inductive Prog (R : Type) : Type :=
| Done (result : R)
| Await (T : Type) (call : StorageCall T) (k : string + T -> Prog R)
| Assign (update : SessionUpdate) (k : Prog R).

Arguments Done {R} result.
Arguments Await {R T} call k.
Arguments Assign {R} update k.

(** [await call] where a rejection is thrown to [catch]. *)
Definition awaitOr {R T : Type} (catch : string -> Prog R)
    (call : StorageCall T) (k : T -> Prog R) : Prog R :=
  Await call (fun answer =>
    match answer with
    | inl error => catch error
    | inr value => k value
    end).

(** What a response carries. *)
Inductive Payload : Type :=
| StatusText
| Text (text : string)
| ErrorJson (message : string)
| NullJson
| GoalJson (goal : option num)
| UserJson (user : User num)
| InitialQuizJson (row : InitialQuizResponse num)
| DailyQuizJson (row : DailyQuizResponse num)
| ConsumptionJson (row : WaterConsumption num).

(** The end of a handler: a response of some status, a rejection nothing
    catches, with no response sent, or an error handed to [next]. *)
Inductive Outcome : Type :=
| Responded (status : Z) (payload : Payload)
| Unhandled (error : string)
| PassedToNext (error : string).

(** The request: [req.isAuthenticated()], [req.user] and [req.body]. *)
Record Request : Type := {
  isAuthenticated : bool;
  user : User num;
  body : Body
}.

(** One step of a run: a call with its answer, or an assignment. *)
Inductive Event : Type :=
| Called (T : Type) (call : StorageCall T) (answer : string + T)
| Assigned (update : SessionUpdate).

(** A handler run against a storage of any state whose calls answer as
    [answer] says: the events in order, and the result. *)
Fixpoint run {Store R : Type}
    (answer : forall T : Type, StorageCall T -> Store -> (string + T) * Store)
    (s : Store) (prog : Prog R) : list Event * R :=
  match prog with
  | Done result => ([], result)
  | Await call k =>
      let '(a, s') := answer _ call s in
      let '(events, result) := run answer s' (k a) in
      (Called call a :: events, result)
  | Assign update k =>
      let '(events, result) := run answer s k in
      (Assigned update :: events, result)
  end.

(** The breakdowns a run hands to [createWaterConsumption] and
    [updateWaterConsumption], in order. *)
Fixpoint consumptionWrites (events : list Event) : list (WaterConsumption num) :=
  match events with
  | [] => []
  | Called call _ :: rest =>
      match call with
      | createWaterConsumption _ _ data => data :: consumptionWrites rest
      | updateWaterConsumption _ _ data => data :: consumptionWrites rest
      | _ => consumptionWrites rest
      end
  | Assigned _ :: rest => consumptionWrites rest
  end.

(** Whether a call writes to the database or the session store. *)
Definition isWrite {T : Type} (call : StorageCall T) : bool :=
  match call with
  | getUser _ | getUserByUsername _ | getInitialQuizResponse _
  | getDailyQuizResponse _ _ | getWaterConsumption _ _ => false
  | _ => true
  end.

(** The writes of a run. *)
Fixpoint writes (events : list Event) : list Event :=
  match events with
  | [] => []
  | Called call answer :: rest =>
      if isWrite call then Called call answer :: writes rest else writes rest
  | Assigned update :: rest => Assigned update :: writes rest
  end.

(** The goals a run hands to [updateUserGoal]. *)
Fixpoint goalWrites (events : list Event) : list num :=
  match events with
  | [] => []
  | Called call _ :: rest =>
      match call with
      | updateUserGoal _ goal => goal :: goalWrites rest
      | _ => goalWrites rest
      end
  | Assigned _ :: rest => goalWrites rest
  end.

(** The passwords a run hands to [createUser]. *)
Fixpoint createdPasswords (events : list Event) : list string :=
  match events with
  | [] => []
  | Called call _ :: rest =>
      match call with
      | createUser _ hashed => hashed :: createdPasswords rest
      | _ => createdPasswords rest
      end
  | Assigned _ :: rest => createdPasswords rest
  end.

(** The row a call resolved to, when it is a call of the kind looked for
    and it resolved to a row. *)
Definition dailyQuizStoredBy {T : Type} (call : StorageCall T)
  : string + T -> option (DailyQuizResponse num) :=
  match call in StorageCall T return string + T -> option (DailyQuizResponse num) with
  | createDailyQuizResponse _ _ =>
      fun answer => match answer with inr row => Some row | inl _ => None end
  | updateDailyQuizResponse _ _ _ =>
      fun answer => match answer with inr (Some row) => Some row | _ => None end
  | _ => fun _ => None
  end.

Definition dailyQuizFetchedBy {T : Type} (call : StorageCall T)
  : string + T -> option (DailyQuizResponse num) :=
  match call in StorageCall T return string + T -> option (DailyQuizResponse num) with
  | getDailyQuizResponse _ _ =>
      fun answer => match answer with inr (Some row) => Some row | _ => None end
  | _ => fun _ => None
  end.

Definition initialQuizStoredBy {T : Type} (call : StorageCall T)
  : string + T -> option (InitialQuizResponse num) :=
  match call in StorageCall T return string + T -> option (InitialQuizResponse num) with
  | createInitialQuizResponse _ _ =>
      fun answer => match answer with inr row => Some row | inl _ => None end
  | updateInitialQuizResponse _ _ =>
      fun answer => match answer with inr (Some row) => Some row | _ => None end
  | _ => fun _ => None
  end.

Definition initialQuizFetchedBy {T : Type} (call : StorageCall T)
  : string + T -> option (InitialQuizResponse num) :=
  match call in StorageCall T return string + T -> option (InitialQuizResponse num) with
  | getInitialQuizResponse _ =>
      fun answer => match answer with inr (Some row) => Some row | _ => None end
  | _ => fun _ => None
  end.

Definition consumptionFetchedBy {T : Type} (call : StorageCall T)
  : string + T -> option (WaterConsumption num) :=
  match call in StorageCall T return string + T -> option (WaterConsumption num) with
  | getWaterConsumption _ _ =>
      fun answer => match answer with inr (Some row) => Some row | _ => None end
  | _ => fun _ => None
  end.

Definition consumptionCreatedBy {T : Type} (call : StorageCall T)
  : string + T -> option (WaterConsumption num) :=
  match call in StorageCall T return string + T -> option (WaterConsumption num) with
  | createWaterConsumption _ _ _ =>
      fun answer => match answer with inr row => Some row | inl _ => None end
  | _ => fun _ => None
  end.

(** The first row of a kind in a run. *)
Fixpoint firstRow {A : Type}
    (select : forall T : Type, StorageCall T -> string + T -> option A)
    (events : list Event) : option A :=
  match events with
  | [] => None
  | Called call answer :: rest =>
      match select _ call answer with
      | Some row => Some row
      | None => firstRow select rest
      end
  | Assigned _ :: rest => firstRow select rest
  end.

(** The daily quiz row storage created or updated, the one it returned for
    today, the profile row it created or updated and the one it returned. *)
Definition storedDailyQuiz (events : list Event) : option (DailyQuizResponse num) :=
  firstRow (@dailyQuizStoredBy) events.

Definition fetchedDailyQuiz (events : list Event) : option (DailyQuizResponse num) :=
  firstRow (@dailyQuizFetchedBy) events.

Definition storedInitialQuiz (events : list Event) : option (InitialQuizResponse num) :=
  firstRow (@initialQuizStoredBy) events.

Definition fetchedInitialQuiz (events : list Event) : option (InitialQuizResponse num) :=
  firstRow (@initialQuizFetchedBy) events.

Definition fetchedConsumption (events : list Event) : option (WaterConsumption num) :=
  firstRow (@consumptionFetchedBy) events.

Definition createdConsumption (events : list Event) : option (WaterConsumption num) :=
  firstRow (@consumptionCreatedBy) events.

(** The data a run hands to [updateDailyQuizResponse]. *)
Fixpoint dailyUpdates (events : list Event) : list DailyUpdate :=
  match events with
  | [] => []
  | Called call _ :: rest =>
      match call with
      | updateDailyQuizResponse _ _ data => data :: dailyUpdates rest
      | _ => dailyUpdates rest
      end
  | Assigned _ :: rest => dailyUpdates rest
  end.

End Storage.

Arguments Validated {num Body} data.
Arguments Unvalidated {num Body} body.
Arguments getUser {num Body} userId.
Arguments getUserByUsername {num Body} name.
Arguments createUser {num Body} name hashed.
Arguments updateUserGoal {num Body} userId goal.
Arguments updateUserInitialQuizStatus {num Body} userId completed.
Arguments getInitialQuizResponse {num Body} userId.
Arguments createInitialQuizResponse {num Body} userId data.
Arguments updateInitialQuizResponse {num Body} userId data.
Arguments getDailyQuizResponse {num Body} userId date.
Arguments createDailyQuizResponse {num Body} userId data.
Arguments updateDailyQuizResponse {num Body} userId date data.
Arguments getWaterConsumption {num Body} userId date.
Arguments createWaterConsumption {num Body} userId date data.
Arguments updateWaterConsumption {num Body} userId date data.
Arguments saveSession {num Body}.
Arguments login {num Body} user.
Arguments Done {num Body R} result.
Arguments Await {num Body R T} call k.
Arguments Assign {num Body R} update k.
Arguments awaitOr {num Body R T} catch call k.
Arguments StatusText {num}.
Arguments Text {num} text.
Arguments ErrorJson {num} message.
Arguments NullJson {num}.
Arguments GoalJson {num} goal.
Arguments UserJson {num} user.
Arguments InitialQuizJson {num} row.
Arguments DailyQuizJson {num} row.
Arguments ConsumptionJson {num} row.
Arguments Responded {num} status payload.
Arguments Unhandled {num} error.
Arguments PassedToNext {num} error.
Arguments isAuthenticated {num Body} r.
Arguments user {num Body} r.
Arguments body {num Body} r.
Arguments Called {num Body T} call answer.
Arguments Assigned {num Body} update.
Arguments run {num Body Store R} answer s prog.
Arguments consumptionWrites {num Body} events.
Arguments isWrite {num Body T} call.
Arguments writes {num Body} events.
Arguments goalWrites {num Body} events.
Arguments createdPasswords {num Body} events.
Arguments storedDailyQuiz {num Body} events.
Arguments fetchedDailyQuiz {num Body} events.
Arguments storedInitialQuiz {num Body} events.
Arguments fetchedInitialQuiz {num Body} events.
Arguments fetchedConsumption {num Body} events.
Arguments createdConsumption {num Body} events.
Arguments dailyUpdates {num Body} events.

(** ** The route handlers (server/routes.ts) and the sign-in (server/auth.ts) *)

Section Routes.

Context {num : Type} {N : Number num}.

Variable Body : Type.

(** [initialQuizValidationSchema.parse], [dailyQuizValidationSchema.parse]
    (and [safeParse]) of zod, taken as given: the validated data, or the
    error thrown. *)
Variable parseInitialQuiz : Body -> ZodError + InitialQuizResponse num.
Variable parseDailyQuiz : Body -> ZodError + DailyQuizResponse num.

(** [{ ...req.body, appliances: Array.isArray(req.body.appliances) ?
    req.body.appliances : [] }] *)
Variable withArrayAppliances : Body -> Body.

(** [req.body.goal] *)
Variable bodyGoal : Body -> JsValue num.

Local Open Scope string_scope.
Local Open Scope Z_scope.

Definition sendStatus (status : Z) : Prog num Body (Outcome num) :=
  Done (Responded status StatusText).

Definition send (status : Z) (text : string) : Prog num Body (Outcome num) :=
  Done (Responded status (Text text)).

Definition json (status : Z) (payload : Payload num) : Prog num Body (Outcome num) :=
  Done (Responded status payload).

(** A rejection outside any [try]. *)
Definition unhandled (error : string) : Prog num Body (Outcome num) :=
  Done (Unhandled error).

(** [!goal], [typeof goal !== "number"], [goal < k] and [goal > k] on a
    JavaScript value; the comparisons are reached on numbers only. *)
Definition toBoolean (v : JsValue num) : bool :=
  match v with
  | JsUndefined | JsNull => false
  | JsBoolean b => b
  | JsNumber n => truthy n
  | JsString s => negb (String.eqb s "")
  | JsObject => true
  end.

Definition isNumber (v : JsValue num) : bool :=
  match v with
  | JsNumber _ => true
  | _ => false
  end.

Definition lessThan (v : JsValue num) (k : num) : bool :=
  match v with
  | JsNumber n => ltb n k
  | _ => false
  end.

Definition greaterThan (v : JsValue num) (k : num) : bool :=
  match v with
  | JsNumber n => ltb k n
  | _ => false
  end.

(** POST /api/goal, the handler registered first. *)
Definition postGoal (req : Request num Body) : Prog num Body (Outcome num) :=
  if negb (isAuthenticated req) then sendStatus 401
  else
    let goal := bodyGoal (body req) in
    if negb (toBoolean goal) || negb (isNumber goal)
       || lessThan goal (lit 800) || greaterThan goal (lit 2000)
    then send 400 "Invalid goal value. Must be between 800 and 2000 gallons."
    else
      match goal with
      | JsNumber goal =>
          awaitOr unhandled (updateUserGoal (id (user req)) goal)
            (fun updatedUser =>
               match updatedUser with
               | None => send 404 "User not found"
               | Some updatedUser => json 200 (GoalJson (waterGoal updatedUser))
               end)
      | _ => send 400 "Invalid goal value. Must be between 800 and 2000 gallons."
      end.

(** POST /api/initial-quiz *)
Definition postInitialQuiz (req : Request num Body) (today : Z) : Prog num Body (Outcome num) :=
  if negb (isAuthenticated req) then sendStatus 401
  else
    let catch := fun error : string => json 400 (ErrorJson error) in
    let requestData := withArrayAppliances (body req) in
    match parseInitialQuiz requestData with
    | inl error => catch (zodMessage error)
    | inr validatedData =>
      let userId := id (user req) in
      awaitOr catch (getInitialQuizResponse userId) (fun existingResponse =>
      match existingResponse with
      | Some _ =>
        awaitOr catch (updateInitialQuizResponse userId validatedData)
        (fun updatedResponse =>
        match updatedResponse with
        | None => send 500 "Failed to update quiz response"
        | Some updatedResponse =>
          awaitOr catch (updateUserInitialQuizStatus userId true) (fun _ =>
          Assign (setInitialQuizCompleted true) (
          awaitOr catch saveSession (fun _ =>
          let baseConsumption := calculateInitialWaterConsumption updatedResponse in
          awaitOr catch (getWaterConsumption userId today)
          (fun existingConsumption =>
          match existingConsumption with
          | Some _ =>
            awaitOr catch (getDailyQuizResponse userId today)
            (fun dailyQuizResponse =>
            match dailyQuizResponse with
            | Some dailyQuizResponse =>
              let updatedConsumption :=
                calculateDailyWaterConsumption dailyQuizResponse updatedResponse in
              awaitOr catch (updateWaterConsumption userId today updatedConsumption)
              (fun _ => json 200 (InitialQuizJson updatedResponse))
            | None =>
              awaitOr catch (updateWaterConsumption userId today baseConsumption)
              (fun _ => json 200 (InitialQuizJson updatedResponse))
            end)
          | None =>
            awaitOr catch (createWaterConsumption userId None baseConsumption)
            (fun _ => json 200 (InitialQuizJson updatedResponse))
          end))))
        end)
      | None =>
        awaitOr catch (createInitialQuizResponse userId validatedData)
        (fun newResponse =>
        awaitOr catch (updateUserInitialQuizStatus userId true)
        (fun updatedUserQuizStatus =>
        let rest :=
          let consumption := calculateInitialWaterConsumption newResponse in
          awaitOr catch (createWaterConsumption userId None consumption)
          (fun _ => json 201 (InitialQuizJson newResponse)) in
        match updatedUserQuizStatus with
        | Some _ =>
          Assign (setInitialQuizCompleted true) (
          awaitOr catch saveSession (fun _ => rest))
        | None => rest
        end))
      end)
    end.

(** POST /api/daily-quiz *)
Definition postDailyQuiz (req : Request num Body) (today : Z) : Prog num Body (Outcome num) :=
  if negb (isAuthenticated req) then sendStatus 401
  else
    let catch := fun error : string => json 400 (ErrorJson error) in
    match parseDailyQuiz (body req) with
    | inl error => catch (zodMessage error)
    | inr validatedData =>
      let userId := id (user req) in
      awaitOr catch (getDailyQuizResponse userId today) (fun existingResponse =>
      awaitOr catch (getInitialQuizResponse userId) (fun initialQuizResponse =>
      match initialQuizResponse with
      | None => send 400 "Initial quiz must be completed first"
      | Some initialQuizResponse =>
        match existingResponse with
        | Some _ =>
          awaitOr catch
            (updateDailyQuizResponse userId today (Validated validatedData))
          (fun updatedResponse =>
          match updatedResponse with
          | None => send 500 "Failed to update quiz response"
          | Some updatedResponse =>
            let consumption :=
              calculateDailyWaterConsumption updatedResponse initialQuizResponse in
            awaitOr catch (getWaterConsumption userId today)
            (fun existingConsumption =>
            match existingConsumption with
            | Some _ =>
              awaitOr catch (updateWaterConsumption userId today consumption)
              (fun _ => json 200 (DailyQuizJson updatedResponse))
            | None =>
              awaitOr catch (createWaterConsumption userId None consumption)
              (fun _ => json 200 (DailyQuizJson updatedResponse))
            end)
          end)
        | None =>
          awaitOr catch (createDailyQuizResponse userId validatedData)
          (fun newResponse =>
          let consumption :=
            calculateDailyWaterConsumption newResponse initialQuizResponse in
          awaitOr catch (getWaterConsumption userId today)
          (fun existingConsumption =>
          match existingConsumption with
          | Some _ =>
            awaitOr catch (updateWaterConsumption userId today consumption)
            (fun _ => json 201 (DailyQuizJson newResponse))
          | None =>
            awaitOr catch (createWaterConsumption userId None consumption)
            (fun _ => json 201 (DailyQuizJson newResponse))
          end))
        end
      end))
    end.

(** PATCH /api/daily-quiz *)
Definition patchDailyQuiz (req : Request num Body) (today : Z) : Prog num Body (Outcome num) :=
  let catch := fun error : string => json 400 (ErrorJson error) in
  if negb (isAuthenticated req) then sendStatus 401
  else
    match parseDailyQuiz (body req) with
    | inl error =>
      json 400 (ErrorJson ("Invalid daily quiz data: " ++ zodFormat error))
    | inr _ =>
      let userId := id (user req) in
      awaitOr catch (getDailyQuizResponse userId today) (fun existingResponse =>
      match existingResponse with
      | None => json 404 (ErrorJson "No daily quiz found for today")
      | Some _ =>
        awaitOr catch
          (updateDailyQuizResponse userId today (Unvalidated (body req)))
        (fun updatedResponse =>
        match updatedResponse with
        | None => json 500 (ErrorJson "Failed to update daily quiz")
        | Some updatedResponse =>
          awaitOr catch (getInitialQuizResponse userId) (fun initialResponse =>
          match initialResponse with
          | Some initialResponse =>
            let waterConsumption :=
              calculateDailyWaterConsumption updatedResponse initialResponse in
            awaitOr catch (getWaterConsumption userId today)
            (fun existingConsumption =>
            match existingConsumption with
            | Some _ =>
              awaitOr catch
                (updateWaterConsumption userId today waterConsumption)
              (fun _ => json 200 (DailyQuizJson updatedResponse))
            | None =>
              awaitOr catch
                (createWaterConsumption userId (Some today) waterConsumption)
              (fun _ => json 200 (DailyQuizJson updatedResponse))
            end)
          | None => json 200 (DailyQuizJson updatedResponse)
          end)
        end)
      end)
    end.

(** GET /api/water-consumption *)
Definition getWaterConsumptionRoute (req : Request num Body) (today : Z) : Prog num Body (Outcome num) :=
  if negb (isAuthenticated req) then sendStatus 401
  else
    let userId := id (user req) in
    awaitOr unhandled (getWaterConsumption userId today) (fun consumption =>
    match consumption with
    | None =>
      awaitOr unhandled (getInitialQuizResponse userId)
      (fun initialQuizResponse =>
      match initialQuizResponse with
      | Some initialQuizResponse =>
        let calculatedConsumption :=
          calculateInitialWaterConsumption initialQuizResponse in
        awaitOr unhandled
          (createWaterConsumption userId None calculatedConsumption)
        (fun newConsumption => json 200 (ConsumptionJson newConsumption))
      | None => json 200 NullJson
      end)
    | Some consumption => json 200 (ConsumptionJson consumption)
    end).

End Routes.

Section SignIn.

Context {num : Type}.
Variable Body : Type.
Variable scrypt : string -> string -> nat -> list Byte.byte.

(** What the verify callback of the LocalStrategy hands to [done], or the
    rejection of the callback. *)
Inductive Verdict : Type :=
| Accepted (user : User num)
| Refused
| Rejected (error : string + JsError).

(** The verify callback of the LocalStrategy: [done(null, user)] or
    [done(null, false)]. *)
Definition verify (name supplied : string) : Prog num Body Verdict :=
  Await (getUserByUsername name) (fun answer =>
    match answer with
    | inl error => Done (Rejected (inl error))
    | inr None => Done Refused
    | inr (Some user) =>
        match comparePasswords scrypt supplied (password user) with
        | inl error => Done (Rejected (inr error))
        | inr passwordValid =>
            if negb passwordValid then Done Refused else Done (Accepted user)
        end
    end).

(** POST /api/register, on a body with a username and a password; the
    sixteen random bytes of [hashPassword] are an argument.  A failure of
    [req.login] goes to [next]. *)
Definition register (name plain : string) (randomBytes : list Byte.byte)
  : Prog num Body (Outcome num) :=
  awaitOr (fun error => Done (Unhandled error)) (getUserByUsername name)
  (fun existingUser =>
  match existingUser with
  | Some _ => Done (Responded 400 (Text "Username already exists"))
  | None =>
    awaitOr (fun error => Done (Unhandled error))
      (createUser name (hashPassword scrypt plain randomBytes))
    (fun user =>
    Await (login user) (fun answer =>
      match answer with
      | inl error => Done (PassedToNext error)
      | inr _ => Done (Responded 201 (UserJson user))
      end))
  end).

End SignIn.

Arguments verify {num Body} scrypt name supplied.
Arguments register {num Body} scrypt name plain randomBytes.
Arguments Accepted {num} user.
Arguments Refused {num}.
Arguments Rejected {num} error.

(** ** A storage and a key derivation to run the handlers on *)

Section Fixtures.

Variable num : Type.
Variable Body : Type.

(** A signed-in user. *)
Definition someUser : User num :=
  {| id := 7;
     username := "ada";
     password := "";
     waterGoal := None;
     initialQuizCompleted := Some true;
     name := None;
     email := None;
     phone := None |}.

(** A storage with no state: it has the given profile row, daily row and
    breakdown for every user and day, returns what it is asked to create or
    update, and knows no user by name. *)
Definition fixedStorage
    (profile : option (InitialQuizResponse num))
    (daily : option (DailyQuizResponse num))
    (consumption : option (WaterConsumption num))
    (T : Type) (call : StorageCall num Body T) (s : unit) : (string + T) * unit :=
  match call in StorageCall _ _ T return (string + T) * unit with
  | getUser _ => (inr (Some someUser), s)
  | getUserByUsername _ => (inr None, s)
  | createUser name hashed =>
      (inr {| id := 8; username := name; password := hashed; waterGoal := None;
              initialQuizCompleted := Some false; name := None; email := None;
              phone := None |}, s)
  | updateUserGoal _ goal =>
      (inr (Some {| id := 7; username := "ada"; password := "";
                    waterGoal := Some goal; initialQuizCompleted := Some true;
                    name := None; email := None; phone := None |}), s)
  | updateUserInitialQuizStatus _ _ => (inr (Some someUser), s)
  | getInitialQuizResponse _ => (inr profile, s)
  | createInitialQuizResponse _ data => (inr data, s)
  | updateInitialQuizResponse _ data => (inr (Some data), s)
  | getDailyQuizResponse _ _ => (inr daily, s)
  | createDailyQuizResponse _ data => (inr data, s)
  | updateDailyQuizResponse _ _ (Validated data) => (inr (Some data), s)
  | updateDailyQuizResponse _ _ (Unvalidated _) => (inr daily, s)
  | getWaterConsumption _ _ => (inr consumption, s)
  | createWaterConsumption _ _ data => (inr data, s)
  | updateWaterConsumption _ _ data => (inr (Some data), s)
  | saveSession => (inr tt, s)
  | login _ => (inr tt, s)
  end.

(** A storage whose state is the one user it may know: it returns that
    user for every name and remembers the user it is asked to create. *)
Definition userStorage
    (T : Type) (call : StorageCall num Body T) (known : option (User num))
  : (string + T) * option (User num) :=
  match call in StorageCall _ _ T return (string + T) * option (User num) with
  | getUserByUsername _ => (inr known, known)
  | createUser name hashed =>
      let created :=
        {| id := 8; username := name; password := hashed; waterGoal := None;
           initialQuizCompleted := Some false; name := None; email := None;
           phone := None |} in
      (inr created, Some created)
  | other => (fst (fixedStorage None None None other tt), known)
  end.

(** An authenticated request of [someUser]. *)
Definition requestOf (content : Body) : Request num Body :=
  {| isAuthenticated := true; user := someUser; body := content |}.

End Fixtures.

Arguments someUser {num}.
Arguments fixedStorage {num Body} profile daily consumption T call s.
Arguments userStorage {num Body} T call known.
Arguments requestOf {num Body} content.

(** A stand-in for the key derivation: the first [keylen] bytes of the
    password, the salt and zeros. *)
Definition toyScrypt (secret salt : string) (keylen : nat) : list Byte.byte :=
  firstn keylen
    (list_byte_of_string secret ++ list_byte_of_string salt
     ++ repeat Byte.x00 keylen).

(** ** Doubles as integers *)

(** Every finite double is a whole multiple of 2^-1074.  With a sign [s], a
    mantissa [m] and an exponent [e] it is the integer m * 2^(e + 1074) of
    such units, and the arithmetic of the doubles is the arithmetic of these
    integers followed by a rounding to 53 significant bits. *)

(** The exponent of the unit in the last place of a magnitude [S]. *)
Definition ulp_exp (S : Z) : Z := Z.max (Zdigits2 S - prec) 0.

(** A magnitude that is a double: no bit below its unit in the last place. *)
Definition representable (F : Z) : Prop := (F mod 2 ^ ulp_exp F = 0)%Z.

(** [F] is a rounding of [S] to 53 bits: the truncation of [S] or the next
    multiple of the unit, and [S] itself when [S] is a double. *)
Definition rounds_to (S F : Z) : Prop :=
  (F = S / 2 ^ ulp_exp S * 2 ^ ulp_exp S
   \/ F = S / 2 ^ ulp_exp S * 2 ^ ulp_exp S + 2 ^ ulp_exp S)%Z
  /\ ((S mod 2 ^ ulp_exp S = 0)%Z -> F = S).

(** A shifted mantissa has lost a non-zero bit. *)
Definition inexact (mrs : shr_record) : bool := shr_r mrs || shr_s mrs.

(** How many places [shr_fexp] shifts a mantissa [m] of exponent [e]. *)
Definition places (m e : Z) : Z := Z.max 0 (fexp prec emax (Zdigits2 m + e) - e).

(** The double of sign [sx] and magnitude [F] units. *)
Definition canon (sx : bool) (F : Z) : spec_float :=
  match (F / 2 ^ ulp_exp F)%Z with
  | Zpos m =>
      if (emin + ulp_exp F <=? emax - prec)%Z
      then S754_finite sx m (emin + ulp_exp F)
      else S754_infinity sx
  | _ => S754_zero sx
  end.

(** A bound no finite double reaches, standing for infinity. *)
Definition INF : Z := (2 ^ 2200)%Z.

(** The magnitude of a finite double, in units of 2^-1074. *)
Definition magnitude (m : positive) (e : Z) : Z := (Zpos m * 2 ^ (e + 1074))%Z.

(** The order-preserving integer of a double: its value in units of
    2^-1074, and plus or minus [INF] for the infinities. *)
Definition key (x : spec_float) : Z :=
  match x with
  | S754_zero _ => 0
  | S754_infinity s => if s then - INF else INF
  | S754_nan => 0
  | S754_finite s m e =>
      if s then - (Zpos m * 2 ^ (e + 1074)) else Zpos m * 2 ^ (e + 1074)
  end%Z.

(** The keys of 1 and of 1/2. *)
Definition ONE : Z := (2 ^ 1074)%Z.
Definition HALF : Z := (2 ^ 1073)%Z.

Definition f64_key (x : float) : Z := key (Prim2SF x).

(** A double that is a number: not NaN. *)
Definition f64_ok (x : float) : Prop := Prim2SF x <> S754_nan.



(** A positive finite double. *)
Definition posFinite (x : float) : bool :=
  match Prim2SF x with
  | S754_finite false _ _ => true
  | _ => false
  end.

(** A double at least [b] units. *)
Definition atLeast (b : Z) (x : float) : Prop := f64_ok x /\ (b <= f64_key x)%Z.

(** ** Valid inputs (shared/schema.ts) *)

(** [z.number().min(0)] on a number that is not an overflowed literal:
    0 <= x < Infinity. *)
Definition validNumber (x : float) : bool :=
  PrimFloat.leb PrimFloat.zero x && PrimFloat.ltb x PrimFloat.infinity.

(** [z.number().min(0).optional()] *)
Definition validField (field : option float) : bool :=
  match field with
  | Some x => validNumber x
  | None => true
  end.

(** The numeric keys of [initialQuizValidationSchema]. *)
Definition validProfile (p : InitialQuizResponse float) : bool :=
  forallb validField
    [ bathsPerMonth p; dishwasherFrequency p; laundryFrequency p; gardenArea p;
      gardenFrequency p; carWashFrequency p; utilityPercentage p ].

(** [dailyQuizValidationSchema]: every key is a number that is [min(0)]. *)
Definition validActivity (d : DailyQuizResponse float) : bool :=
  forallb validField (activityFields d).

(** ** Invariants of the estimators on valid inputs *)

(** The shower category is at least -63 gallons and no other category is
    negative; no category is NaN. *)
Definition sound (c : WaterConsumption float) : Prop :=
  atLeast (-63 * ONE) (showerGallons c)
  /\ atLeast 0 (toiletGallons c)
  /\ atLeast 0 (kitchenGallons c)
  /\ atLeast 0 (dishwasherGallons c)
  /\ atLeast 0 (laundryGallons c)
  /\ atLeast 0 (gardenGallons c)
  /\ atLeast 0 (poolGallons c)
  /\ atLeast 0 (carWashGallons c)
  /\ atLeast 0 (energyGallons c)
  /\ atLeast 0 (shoppingGallons c)
  /\ atLeast 0 (otherGallons c).

(** A closed double is a number of at least [b] units, by evaluation. *)
Definition atLeastb (b : Z) (x : float) : bool :=
  match Prim2SF x with
  | S754_nan => false
  | sf => (b <=? key sf)%Z
  end.

(** Category by category, [u] is a number and at least [b]. *)
Definition grows (b u : WaterConsumption float) : Prop :=
  Forall2 (fun x y => f64_ok y /\ (f64_key x <= f64_key y)%Z)
    (categories b) (categories u).



(** ** Facts that hold in every arithmetic *)

Section Generic.

Context {num : Type} {N : Number num}.
Local Open Scope string_scope.

Lemma ifNum_same {X : Type} (field : option num) (x : X) :
  ifNum field (fun _ => x) x = x.
Proof. destruct field as [v|]; simpl; [destruct (truthy v)|]; reflexivity. Qed.

(** What one step does to an observation [obs] of the breakdown. *)
Lemma whenSet_obs {X : Type} (obs : WaterConsumption num -> X) field update c :
  obs (whenSet field update c) = ifNum field (fun v => obs (update v c)) (obs c).
Proof.
  unfold whenSet, ifNum.
  destruct field as [v|]; [destruct (truthy v)|]; reflexivity.
Qed.

(** A step whose update leaves [obs] alone leaves it alone. *)
Lemma whenSet_keeps {X : Type} (obs : WaterConsumption num -> X) field update c :
  (forall v c', obs (update v c') = obs c') ->
  obs (whenSet field update c) = obs c.
Proof.
  intros Hkeep. rewrite whenSet_obs.
  destruct field as [v|]; simpl; [destruct (truthy v)|]; auto.
Qed.

Lemma categories_withTotal (v : num) c : categories (withTotal v c) = categories c.
Proof. reflexivity. Qed.

(** The recomputed total and everything after it depend on the categories
    only. *)
Lemma updateTotal_categories (c c' : WaterConsumption num) :
  categories c = categories c' -> updateTotal c = updateTotal c'.
Proof.
  destruct c, c'; unfold categories, updateTotal, sumCategories, withTotal; simpl.
  intros H; injection H; intros; subst; reflexivity.
Qed.

(** A step that reads and writes categories only maps equal categories to
    equal categories. *)
Lemma whenSet_categories field update c c' :
  (forall v u u', categories u = categories u' ->
                  categories (update v u) = categories (update v u')) ->
  categories c = categories c' ->
  categories (whenSet field update c) = categories (whenSet field update c').
Proof.
  intros Hupd Hc. rewrite !(whenSet_obs categories).
  destruct field as [v|]; simpl; [destruct (truthy v)|]; auto.
Qed.

(** A step that writes the total only changes no category. *)
Lemma whenSet_total_only field (f : num -> WaterConsumption num -> num) c :
  categories (whenSet field (fun v u => withTotal (f v u) u) c) = categories c.
Proof. apply whenSet_keeps. intros; apply categories_withTotal. Qed.

Ltac categories_congruence :=
  let v := fresh "v" in
  let u := fresh "u" in
  let u' := fresh "u" in
  let H := fresh "H" in
  intros v u u' H; destruct u, u'; unfold categories in *; simpl in *;
  injection H; intros; subst; reflexivity.

(** C1. For every profile and every daily activity log, the Daily Adjuster
    returns the same breakdown, in every category and in the total, as on the
    same inputs with rainwaterCollected, recycledPlastic and
    recycledBottlesCans set to zero: the three fields only ever change the
    intermediate total, which the recomputation of the total overwrites.
    This holds whatever the arithmetic, binary64 included. *)
Theorem daily_ignores_total_only_fields :
  forall (d : DailyQuizResponse num) (p : InitialQuizResponse num),
    calculateDailyWaterConsumption d p
    = calculateDailyWaterConsumption (withoutCredits d) p.
Proof.
  intros d p. unfold calculateDailyWaterConsumption, dailyCategories.
  do 2 f_equal. apply updateTotal_categories.
  unfold applyDailyActivity, withoutCredits; cbv zeta.
  cbn [showerMinutes bathroomSinkMinutes kitchenSinkMinutes toiletFlushes
       rainwaterCollected milesDriven recycledPaper recycledPlastic
       recycledBottlesCans veggiesConsumed meatConsumed petFoodUsed].
  do 3 (apply whenSet_categories; [categories_congruence|]).
  rewrite !whenSet_total_only.
  do 2 (apply whenSet_categories; [categories_congruence|]).
  rewrite !whenSet_total_only.
  reflexivity.
Qed.

(** The correction writes the total and "other" only, the rounding is field
    by field. *)
Lemma ensureNonNegative_keeps {X : Type} (obs : WaterConsumption num -> X) c :
  (forall v c', obs (withTotal v c') = obs c') ->
  (forall v c', obs (withOther v c') = obs c') ->
  obs (ensureNonNegative c) = obs c.
Proof.
  intros Ht Ho. unfold ensureNonNegative.
  destruct (ltb (totalGallons c) (lit 0)); [rewrite Ht, Ho|]; reflexivity.
Qed.

Lemma categoriesButOther_ensureNonNegative c :
  categoriesButOther (ensureNonNegative c) = categoriesButOther c.
Proof. apply ensureNonNegative_keeps; reflexivity. Qed.

(** *** Absent fields *)

Lemma optIncludes_orEmpty s field :
  optIncludes s (orEmpty field) = optIncludes s field.
Proof. destruct field; reflexivity. Qed.

Lemma isTrue_orFalse field : isTrue (orFalse field) = isTrue field.
Proof. destruct field; reflexivity. Qed.

Lemma strictEq_orNone field s :
  String.eqb "none" s = false -> strictEq (orNone field) s = strictEq field s.
Proof. destruct field; simpl; auto. Qed.

Lemma valueOf_orZero field : valueOf (orZero field) = valueOf field.
Proof. destruct field; reflexivity. Qed.

Section ZeroIsFalsy.

(** [if (0)] does not take the branch. *)
Hypothesis truthy_zero : truthy (lit 0) = false.

Lemma ifNum_orZero {X : Type} field (then_ : num -> X) else_ :
  ifNum (orZero field) then_ else_ = ifNum field then_ else_.
Proof. destruct field; simpl; [|rewrite truthy_zero]; reflexivity. Qed.

Lemma isSet_orZero field : isSet (orZero field) = isSet field.
Proof. apply ifNum_orZero. Qed.

Lemma whenSet_orZero field update c :
  whenSet (orZero field) update c = whenSet field update c.
Proof. apply ifNum_orZero. Qed.

Lemma initialCategories_fillProfile p :
  initialCategories (fillProfile p) = initialCategories p.
Proof.
  unfold initialCategories, fillProfile; cbv zeta.
  cbn [appliances bathsPerMonth dishwasherType dishwasherFrequency laundryType
       laundryFrequency hasGarden gardenArea gardenFrequency hasPool
       carWashMethod carWashFrequency utilityPercentage shoppingHabits].
  rewrite !ifNum_orZero, !isSet_orZero, !valueOf_orZero, !isTrue_orFalse.
  rewrite !strictEq_orNone by reflexivity.
  destruct (appliances p); reflexivity.
Qed.

Lemma applyDailyActivity_fill d p u :
  applyDailyActivity (fillActivity d) (fillProfile p) u = applyDailyActivity d p u.
Proof.
  unfold applyDailyActivity, fillActivity, fillProfile; cbv zeta.
  cbn [showerMinutes bathroomSinkMinutes kitchenSinkMinutes toiletFlushes
       rainwaterCollected milesDriven recycledPaper recycledPlastic
       recycledBottlesCans veggiesConsumed meatConsumed petFoodUsed appliances].
  rewrite !whenSet_orZero, !optIncludes_orEmpty.
  reflexivity.
Qed.

(** C8. Both estimators are total functions of a profile and an activity log
    any of whose fields may be absent, and they return exactly what they
    return once each absent numeric field is replaced by zero, each absent
    flag by false, each absent enumeration by "none" and an absent appliance
    list by the empty list.  Needs only that zero is falsy, which holds for
    rationals and for doubles. *)
Theorem absent_fields_are_defaults :
  forall (d : DailyQuizResponse num) (p : InitialQuizResponse num),
    calculateInitialWaterConsumption (fillProfile p)
    = calculateInitialWaterConsumption p
    /\ calculateDailyWaterConsumption (fillActivity d) (fillProfile p)
       = calculateDailyWaterConsumption d p.
Proof.
  intros d p.
  assert (Hinit : calculateInitialWaterConsumption (fillProfile p)
                  = calculateInitialWaterConsumption p).
  { unfold calculateInitialWaterConsumption.
    rewrite initialCategories_fillProfile. reflexivity. }
  split; [exact Hinit|].
  unfold calculateDailyWaterConsumption, dailyCategories.
  rewrite Hinit, applyDailyActivity_fill. reflexivity.
Qed.

End ZeroIsFalsy.

Section ZeroIsRound.

(** [Math.round(0)] is 0. *)
Hypothesis round_zero : round (lit 0) = lit 0.

(** C10. The Baseline Estimator is a total function, and a profile whose
    dishwasherType, laundryType, carWashMethod or shoppingHabits is a string
    the code does not compare against (or is absent) gets 0 gallons in that
    field's category: no branch of the chain is taken and there is no error
    branch. *)
Theorem unrecognized_class_contributes_nothing :
  forall p : InitialQuizResponse num,
    (strictEq (dishwasherType p) "yes_efficient" = false ->
     strictEq (dishwasherType p) "yes_not_efficient" = false ->
     dishwasherGallons (calculateInitialWaterConsumption p) = lit 0)
    /\ (strictEq (laundryType p) "yes_efficient" = false ->
        strictEq (laundryType p) "yes_not_efficient" = false ->
        laundryGallons (calculateInitialWaterConsumption p) = lit 0)
    /\ (strictEq (carWashMethod p) "garden_hose" = false ->
        strictEq (carWashMethod p) "drive_through" = false ->
        strictEq (carWashMethod p) "self_service" = false ->
        carWashGallons (calculateInitialWaterConsumption p) = lit 0)
    /\ (strictEq (shoppingHabits p) "basics" = false ->
        strictEq (shoppingHabits p) "moderate" = false ->
        strictEq (shoppingHabits p) "addict" = false ->
        shoppingGallons (calculateInitialWaterConsumption p) = lit 0).
Proof.
  intros p. unfold calculateInitialWaterConsumption.
  repeat split; intros;
    cbn [roundAll dishwasherGallons laundryGallons carWashGallons shoppingGallons];
    rewrite ensureNonNegative_keeps by reflexivity;
    unfold initialCategories; cbv zeta;
    cbn [dishwasherGallons laundryGallons carWashGallons shoppingGallons];
    repeat match goal with H : strictEq _ _ = false |- _ => rewrite H; clear H end;
    cbn [andb]; exact round_zero.
Qed.

End ZeroIsRound.

End Generic.

(** ** The daily steps, category by category *)

Section DailySteps.

Context {num : Type} {N : Number num}.
Local Open Scope string_scope.
Local Open Scope num_scope.



Lemma whenSet_unset field update (c : WaterConsumption num) :
  isSet field = false -> whenSet field update c = c.
Proof.
  unfold isSet, whenSet, ifNum.
  destruct field as [v|]; [destruct (truthy v)|]; intros; try reflexivity.
  discriminate.
Qed.

(** An all-zero log takes no step. *)
Lemma applyDailyActivity_noActivity (d : DailyQuizResponse num) p u :
  noActivity d = true -> applyDailyActivity d p u = u.
Proof.
  unfold noActivity, activityFields; cbn [forallb].
  rewrite !andb_true_iff, !negb_true_iff.
  intros H; decompose [and] H; clear H.
  unfold applyDailyActivity; cbv zeta.
  rewrite !whenSet_unset by assumption. reflexivity.
Qed.

Lemma includes_appliances s (field : option (list string)) :
  includes s (match field with Some a => a | None => [] end) = optIncludes s field.
Proof. destruct field; reflexivity. Qed.

(** The shower category of the baseline before the correction. *)
Lemma initialCategories_shower (p : InitialQuizResponse num) :
  showerGallons (initialCategories p)
  = ifNum (bathsPerMonth p)
      (fun baths =>
         (if optIncludes "showerhead" (appliances p) then lit 0 - lit 63 else lit 0)
         + lit 80 * baths / lit 30)
      (if optIncludes "showerhead" (appliances p) then lit 0 - lit 63 else lit 0).
Proof.
  unfold initialCategories; cbv zeta; cbn [showerGallons].
  rewrite includes_appliances. reflexivity.
Qed.

End DailySteps.

(** ** The closing steps: the correction and the rounding *)

Section Closing.

Context {num : Type} {N : Number num}.
Local Open Scope string_scope.
Local Open Scope num_scope.

Lemma totalGallons_ensureNonNegative (c : WaterConsumption num) :
  totalGallons (ensureNonNegative c)
  = if totalGallons c <? lit 0 then lit 0 else totalGallons c.
Proof.
  unfold ensureNonNegative. destruct (totalGallons c <? lit 0); reflexivity.
Qed.

Lemma otherGallons_ensureNonNegative (c : WaterConsumption num) :
  otherGallons (ensureNonNegative c)
  = if totalGallons c <? lit 0 then otherGallons c + abs (totalGallons c)
    else otherGallons c.
Proof.
  unfold ensureNonNegative. destruct (totalGallons c <? lit 0); reflexivity.
Qed.


Lemma categories_roundAll (c : WaterConsumption num) :
  categories (roundAll c) = map round (categories c).
Proof. reflexivity. Qed.

Lemma categoriesButOther_roundAll (c : WaterConsumption num) :
  categoriesButOther (roundAll c) = map round (categoriesButOther c).
Proof. reflexivity. Qed.

Lemma categoriesButOther_updateTotal (c : WaterConsumption num) :
  categoriesButOther (updateTotal c) = categoriesButOther c.
Proof. reflexivity. Qed.

Lemma categories_updateTotal (c : WaterConsumption num) :
  categories (updateTotal c) = categories c.
Proof. reflexivity. Qed.

Lemma categories_values (c : WaterConsumption num) :
  values c = totalGallons c :: categories c.
Proof. reflexivity. Qed.

(** C2 (as amended). For every valid profile and activity log, and for every
    other input, the persisted totalGallons of both estimators is Math.round
    of the total the correction leaves: the sum, in the program's arithmetic
    and in the order of the source, of the eleven category values before
    rounding (for the Daily Adjuster: of the baseline's persisted values
    after the twelve daily steps), or 0 when that sum is negative.  Each
    persisted category is the rounding of its own value, so the persisted
    total is not the sum of the eleven persisted categories. *)
Theorem total_is_rounded_sum :
  forall (d : DailyQuizResponse num) (p : InitialQuizResponse num),
    (totalGallons (calculateInitialWaterConsumption p)
     = round (if sumCategories (initialCategories p) <? lit 0 then lit 0
              else sumCategories (initialCategories p))
     /\ categoriesButOther (calculateInitialWaterConsumption p)
        = map round (categoriesButOther (initialCategories p)))
    /\ (totalGallons (calculateDailyWaterConsumption d p)
        = round (if sumCategories
                      (applyDailyActivity d p (calculateInitialWaterConsumption p))
                    <? lit 0
                 then lit 0
                 else sumCategories
                        (applyDailyActivity d p (calculateInitialWaterConsumption p)))
        /\ categoriesButOther (calculateDailyWaterConsumption d p)
           = map round
               (categoriesButOther
                  (applyDailyActivity d p (calculateInitialWaterConsumption p)))).
Proof.
  intros d p. split; split.
  - unfold calculateInitialWaterConsumption; cbn [roundAll totalGallons].
    rewrite totalGallons_ensureNonNegative. reflexivity.
  - unfold calculateInitialWaterConsumption.
    rewrite categoriesButOther_roundAll, categoriesButOther_ensureNonNegative.
    reflexivity.
  - unfold calculateDailyWaterConsumption, dailyCategories;
      cbn [roundAll totalGallons].
    rewrite totalGallons_ensureNonNegative. reflexivity.
  - unfold calculateDailyWaterConsumption, dailyCategories.
    rewrite categoriesButOther_roundAll, categoriesButOther_ensureNonNegative.
    rewrite categoriesButOther_updateTotal. reflexivity.
Qed.

End Closing.

(** ** The literal facts of the specification, on rationals *)

Section Exact.

Local Open Scope Q_scope.
Local Open Scope string_scope.

Implicit Types (p : InitialQuizResponse Q).

(** *** Comparison and truthiness on rationals *)

Lemma Qltb_lt x y : Qltb x y = true <-> x < y.
Proof.
  unfold Qltb. rewrite negb_true_iff, <- not_true_iff_false, Qle_bool_iff.
  split; [apply Qnot_le_lt | apply Qlt_not_le].
Qed.

Lemma Qltb_ge x y : Qltb x y = false <-> y <= x.
Proof.
  unfold Qltb. rewrite negb_false_iff. apply Qle_bool_iff.
Qed.

Lemma Qtruthy_false q : Qtruthy q = false <-> q == 0.
Proof.
  unfold Qtruthy. rewrite negb_false_iff. apply Qeq_bool_iff.
Qed.

(** C5. With the showerhead tag the baseline's shower category is -63, flat,
    plus 80 x bathsPerMonth / 30 before rounding; with bathsPerMonth = 30 the
    persisted showerGallons is 17, in exact arithmetic for every such profile
    and in binary64 for the profile of Scenario 3. *)
Theorem showerhead_thirty_baths :
  (forall p (baths : Q),
     optIncludes "showerhead" (appliances p) = true ->
     bathsPerMonth p = Some baths ->
     showerGallons (initialCategories p) == - (63) + 80 * baths / 30)
  /\ (forall p,
        optIncludes "showerhead" (appliances p) = true ->
        bathsPerMonth p = Some 30 ->
        showerGallons (calculateInitialWaterConsumption p) = 17)
  /\ f64_eqb
       (showerGallons (calculateInitialWaterConsumption (N:=F64Number)
                         (showerheadProfile 30)))
       (f64_of_Z 17) = true.
Proof.
  split; [|split].
  - intros p baths Htag Hbaths.
    rewrite initialCategories_shower, Htag, Hbaths.
    unfold ifNum; simpl.
    destruct (Qtruthy baths) eqn:E; [unfold Qdiv; ring|].
    apply Qtruthy_false in E. rewrite E. reflexivity.
  - intros p Htag Hbaths.
    unfold calculateInitialWaterConsumption; cbn [roundAll showerGallons].
    rewrite (ensureNonNegative_keeps (@showerGallons Q)) by reflexivity.
    rewrite initialCategories_shower, Htag, Hbaths. reflexivity.
  - vm_compute. reflexivity.
Qed.

End Exact.

(** ** The arithmetic of binary64 *)

Section Binary64.

Local Open Scope Z_scope.

(** Significant bits *)

Lemma digits2_pos_bounds p :
  2 ^ (Zpos (digits2_pos p) - 1) <= Zpos p < 2 ^ Zpos (digits2_pos p).
Proof.
  induction p as [p IH|p IH|]; cbn [digits2_pos].
  - rewrite Pos2Z.inj_succ, (Pos2Z.inj_xI p).
    replace (Z.succ (Zpos (digits2_pos p)) - 1) with (Z.succ (Zpos (digits2_pos p) - 1)) by lia.
    rewrite !Z.pow_succ_r by lia.
    revert IH. generalize (2 ^ (Zpos (digits2_pos p) - 1)) (2 ^ Zpos (digits2_pos p)).
    intros; lia.
  - rewrite Pos2Z.inj_succ, (Pos2Z.inj_xO p).
    replace (Z.succ (Zpos (digits2_pos p)) - 1) with (Z.succ (Zpos (digits2_pos p) - 1)) by lia.
    rewrite !Z.pow_succ_r by lia.
    revert IH. generalize (2 ^ (Zpos (digits2_pos p) - 1)) (2 ^ Zpos (digits2_pos p)).
    intros; lia.
  - simpl. lia.
Qed.

Lemma Zdigits2_bounds m : 0 < m -> 2 ^ (Zdigits2 m - 1) <= m < 2 ^ Zdigits2 m.
Proof.
  destruct m as [|p|p]; try lia. intros _. apply digits2_pos_bounds.
Qed.

Lemma Zdigits2_pos m : 0 < m -> 0 < Zdigits2 m.
Proof. destruct m; simpl; lia. Qed.

Lemma Zdigits2_unique m d : 0 < m -> 2 ^ (d - 1) <= m < 2 ^ d -> Zdigits2 m = d.
Proof.
  intros Hm [Hl Hu].
  pose proof (Zdigits2_bounds Hm) as [Hl' Hu'].
  pose proof (Zdigits2_pos Hm) as Hd.
  assert (0 < d).
  { destruct (Z_lt_le_dec 0 d); [assumption|].
    assert (2 ^ d <= 2 ^ 0) by (destruct (Z.eq_dec d 0); [subst; lia|rewrite Z.pow_neg_r by lia; simpl; lia]).
    simpl in *. lia. }
  destruct (Z_lt_le_dec (Zdigits2 m) d) as [H1|H1].
  - assert (2 ^ Zdigits2 m <= 2 ^ (d - 1)) by (apply Z.pow_le_mono_r; lia). lia.
  - destruct (Z_lt_le_dec d (Zdigits2 m)) as [H2|H2]; [|lia].
    assert (2 ^ d <= 2 ^ (Zdigits2 m - 1)) by (apply Z.pow_le_mono_r; lia). lia.
Qed.

Lemma Zdigits2_mul_pow2 m k : 0 < m -> 0 <= k -> Zdigits2 (m * 2 ^ k) = Zdigits2 m + k.
Proof.
  intros Hm Hk.
  pose proof (Zdigits2_bounds Hm) as [Hl Hu].
  pose proof (Zdigits2_pos Hm) as Hd.
  assert (0 < 2 ^ k) by (apply Z.pow_pos_nonneg; lia).
  apply Zdigits2_unique; [nia|].
  replace (Zdigits2 m + k - 1) with ((Zdigits2 m - 1) + k) by lia.
  rewrite !Z.pow_add_r by lia. nia.
Qed.

Lemma Zdigits2_div_pow2 m k :
  0 < m -> 0 <= k < Zdigits2 m -> Zdigits2 (m / 2 ^ k) = Zdigits2 m - k.
Proof.
  intros Hm Hk.
  pose proof (Zdigits2_bounds Hm) as [Hl Hu].
  assert (Hp : 0 < 2 ^ k) by (apply Z.pow_pos_nonneg; lia).
  assert (E1 : 2 ^ (Zdigits2 m - 1) = 2 ^ (Zdigits2 m - k - 1) * 2 ^ k).
  { rewrite <- Z.pow_add_r by lia. f_equal. lia. }
  assert (E2 : 2 ^ Zdigits2 m = 2 ^ (Zdigits2 m - k) * 2 ^ k).
  { rewrite <- Z.pow_add_r by lia. f_equal. lia. }
  assert (Hq : 2 ^ (Zdigits2 m - k - 1) <= m / 2 ^ k).
  { apply Z.div_le_lower_bound; [assumption|]. rewrite Z.mul_comm. lia. }
  assert (Hq' : m / 2 ^ k < 2 ^ (Zdigits2 m - k)).
  { apply Z.div_lt_upper_bound; [assumption|]. rewrite Z.mul_comm. lia. }
  assert (0 < 2 ^ (Zdigits2 m - k - 1)) by (apply Z.pow_pos_nonneg; lia).
  apply Zdigits2_unique; [lia|]. split; assumption.
Qed.

Lemma Zdigits2_le m n : 0 < m -> m <= n -> Zdigits2 m <= Zdigits2 n.
Proof.
  intros Hm Hmn.
  assert (Hn : 0 < n) by lia.
  pose proof (Zdigits2_bounds Hm) as [Hl Hu].
  pose proof (Zdigits2_bounds Hn) as [Hl' Hu'].
  destruct (Z_lt_le_dec (Zdigits2 n) (Zdigits2 m)) as [H|H]; [|assumption].
  assert (2 ^ Zdigits2 n <= 2 ^ (Zdigits2 m - 1)) by (apply Z.pow_le_mono_r; lia).
  lia.
Qed.

Lemma Zdigits2_lt_pow2 m d : 0 < m -> m < 2 ^ d -> Zdigits2 m <= d.
Proof.
  intros Hm H.
  pose proof (Zdigits2_bounds Hm) as [Hl Hu].
  destruct (Z_lt_le_dec d (Zdigits2 m)) as [H1|H1]; [|assumption].
  assert (0 <= d).
  { destruct (Z_lt_le_dec d 0); [rewrite Z.pow_neg_r in H by lia; lia|assumption]. }
  assert (2 ^ d <= 2 ^ (Zdigits2 m - 1)) by (apply Z.pow_le_mono_r; lia).
  lia.
Qed.

Lemma Zdigits2_ge_pow2 m d : 0 <= d -> 2 ^ d <= m -> d < Zdigits2 m.
Proof.
  intros Hd H.
  assert (0 < 2 ^ d) by (apply Z.pow_pos_nonneg; lia).
  assert (Hm : 0 < m) by lia.
  pose proof (Zdigits2_bounds Hm) as [Hl Hu].
  destruct (Z_lt_le_dec d (Zdigits2 m)) as [H1|H1]; [assumption|].
  assert (2 ^ Zdigits2 m <= 2 ^ d) by (apply Z.pow_le_mono_r; lia).
  lia.
Qed.

Lemma iter_pos_nat (A : Type) (f : A -> A) p x :
  iter_pos f p x = Nat.iter (Pos.to_nat p) f x.
Proof.
  revert x; induction p as [p IH|p IH|]; intros x; cbn [iter_pos].
  - rewrite !IH, Pos2Nat.inj_xI. rewrite <- Nat.iter_add, <- Nat.iter_succ_r.
    f_equal. lia.
  - rewrite !IH, Pos2Nat.inj_xO. rewrite <- Nat.iter_add. f_equal. lia.
  - reflexivity.
Qed.

Lemma shr_1_m mrs : 0 <= shr_m mrs -> shr_m (shr_1 mrs) = shr_m mrs / 2.
Proof.
  destruct mrs as [m r s]; cbn [shr_m]. intros Hm.
  destruct m as [|[p|p|]|p]; try lia; cbn [shr_1 shr_m].
  - reflexivity.
  - rewrite (Pos2Z.inj_xI p). apply Z.div_unique with 1; lia.
  - rewrite (Pos2Z.inj_xO p). apply Z.div_unique with 0; lia.
  - reflexivity.
Qed.

Lemma shr_1_inexact mrs :
  0 <= shr_m mrs -> inexact (shr_1 mrs) = Z.odd (shr_m mrs) || inexact mrs.
Proof.
  destruct mrs as [m r s]; cbn [shr_m]. intros Hm. unfold inexact.
  destruct m as [|[p|p|]|p]; try lia; cbn [shr_1 shr_r shr_s Z.odd]; reflexivity.
Qed.

Lemma iter_shr_1 n mrs :
  0 <= shr_m mrs ->
  shr_m (Nat.iter n shr_1 mrs) = shr_m mrs / 2 ^ Z.of_nat n
  /\ (inexact mrs = false -> shr_m mrs mod 2 ^ Z.of_nat n = 0 ->
      inexact (Nat.iter n shr_1 mrs) = false).
Proof.
  intros Hm. induction n as [|n [IHm IHx]].
  - simpl. rewrite Z.div_1_r. auto.
  - change (Nat.iter (S n) shr_1 mrs) with (shr_1 (Nat.iter n shr_1 mrs)).
    assert (Hp : 0 < 2 ^ Z.of_nat n) by (apply Z.pow_pos_nonneg; lia).
    assert (Hq : 0 <= shr_m (Nat.iter n shr_1 mrs)).
    { rewrite IHm. apply Z.div_pos; lia. }
    rewrite Nat2Z.inj_succ, Z.pow_succ_r by lia.
    split.
    + rewrite shr_1_m by exact Hq. rewrite IHm, Z.div_div by lia.
      f_equal. lia.
    + intros Hx Hmod. rewrite shr_1_inexact by exact Hq.
      assert (Hmod' : shr_m mrs mod 2 ^ Z.of_nat n = 0).
      { apply Z.mod_divide in Hmod; [|lia]. apply Z.mod_divide; [lia|].
        destruct Hmod as [c Hc]. exists (c * 2). lia. }
      rewrite (IHx Hx Hmod'), orb_false_r, IHm.
      apply Z.mod_divide in Hmod; [|lia]. destruct Hmod as [c Hc].
      rewrite Hc. replace (c * (2 * 2 ^ Z.of_nat n)) with (c * 2 * 2 ^ Z.of_nat n) by ring.
      rewrite Z.div_mul by lia. rewrite Z.mul_comm, Z.odd_mul. reflexivity.
Qed.

(** [shr] divides the mantissa by a power of two and stays exact when the
    division is. *)
Lemma shr_spec mrs e n :
  0 <= shr_m mrs ->
  exists mrs',
    shr mrs e n = (mrs', e + Z.max 0 n)
    /\ shr_m mrs' = shr_m mrs / 2 ^ Z.max 0 n
    /\ (inexact mrs = false -> shr_m mrs mod 2 ^ Z.max 0 n = 0 ->
        inexact mrs' = false).
Proof.
  intros Hm. destruct n as [|p|p]; cbn [shr].
  - exists mrs. rewrite Z.add_0_r. simpl. rewrite Z.div_1_r. auto.
  - exists (iter_pos shr_1 p mrs).
    replace (Z.max 0 (Zpos p)) with (Z.of_nat (Pos.to_nat p)) by lia.
    rewrite iter_pos_nat.
    destruct (iter_shr_1 (Pos.to_nat p) mrs Hm) as [H1 H2].
    split; [f_equal; lia|]. split; assumption.
  - exists mrs. replace (Z.max 0 (Zneg p)) with 0 by lia.
    rewrite Z.add_0_r. simpl. rewrite Z.div_1_r. auto.
Qed.

Lemma loc_of_shr_record_exact mrs :
  inexact mrs = false -> loc_of_shr_record mrs = loc_Exact.
Proof.
  destruct mrs as [m [|] [|]]; unfold inexact; simpl; intros; try discriminate.
  reflexivity.
Qed.

Lemma round_nearest_even_cases m l :
  (round_nearest_even m l = m \/ round_nearest_even m l = m + 1)
  /\ (l = loc_Exact -> round_nearest_even m l = m).
Proof.
  destruct l as [|[| |]]; simpl; try destruct (Z.even m);
    (split; [auto|intros; try discriminate; auto]).
Qed.

Lemma shr_fexp_spec m e l :
  0 <= m ->
  exists mrs,
    shr_fexp prec emax m e l = (mrs, e + places m e)
    /\ shr_m mrs = m / 2 ^ places m e
    /\ (l = loc_Exact -> m mod 2 ^ places m e = 0 -> inexact mrs = false).
Proof.
  intros Hm. unfold shr_fexp, places.
  assert (H0 : 0 <= shr_m (shr_record_of_loc m l)) by (destruct l as [|[| |]]; exact Hm).
  destruct (shr_spec (shr_record_of_loc m l) e
              (fexp prec emax (Zdigits2 m + e) - e) H0) as (mrs & E & Hq & Hx).
  exists mrs. split; [exact E|].
  assert (Em : shr_m (shr_record_of_loc m l) = m) by (destruct l as [|[| |]]; reflexivity).
  rewrite Em in Hq, Hx. split; [exact Hq|].
  intros -> Hmod. apply Hx; [reflexivity|exact Hmod].
Qed.

(** The two shifts and the rounding of [binary_round_aux], in integers. *)
Lemma binary_round_aux_spec sx mx ex lx :
  0 <= mx ->
  exists m2,
    (m2 = mx / 2 ^ places mx ex \/ m2 = mx / 2 ^ places mx ex + 1)
    /\ (lx = loc_Exact -> mx mod 2 ^ places mx ex = 0 -> m2 = mx / 2 ^ places mx ex)
    /\ binary_round_aux prec emax sx mx ex lx
       = match m2 / 2 ^ places m2 (ex + places mx ex) with
         | Z0 => S754_zero sx
         | Zpos m =>
             if ex + places mx ex + places m2 (ex + places mx ex) <=? emax - prec
             then S754_finite sx m (ex + places mx ex + places m2 (ex + places mx ex))
             else S754_infinity sx
         | Zneg _ => S754_nan
         end.
Proof.
  intros Hm. unfold binary_round_aux.
  destruct (shr_fexp_spec ex lx Hm) as (mrs1 & E1 & Hq1 & Hx1).
  rewrite E1.
  set (m2 := round_nearest_even (shr_m mrs1) (loc_of_shr_record mrs1)).
  assert (Hq1' : 0 <= shr_m mrs1).
  { rewrite Hq1. apply Z.div_pos; [lia|]. apply Z.pow_pos_nonneg; [lia|].
    unfold places; lia. }
  destruct (round_nearest_even_cases (shr_m mrs1) (loc_of_shr_record mrs1)) as [Hc He].
  fold m2 in Hc, He.
  assert (Hm2 : 0 <= m2) by lia.
  destruct (shr_fexp_spec (ex + places mx ex) loc_Exact Hm2) as (mrs2 & E2 & Hq2 & _).
  rewrite E2, Hq2.
  exists m2. rewrite <- Hq1. split; [exact Hc|]. split; [|reflexivity].
  intros Hl Hmod. apply He, loc_of_shr_record_exact, Hx1; assumption.
Qed.

Lemma fexp_eq e : fexp prec emax e = Z.max (e - 53) (-1074).
Proof. reflexivity. Qed.

Lemma ulp_exp_eq S : ulp_exp S = Z.max (Zdigits2 S - 53) 0.
Proof. reflexivity. Qed.

Lemma ulp_exp_nonneg S : 0 <= ulp_exp S.
Proof. rewrite ulp_exp_eq. lia. Qed.

Lemma ulp_exp_lt S : 0 < S -> ulp_exp S < Zdigits2 S.
Proof. intros H. pose proof (Zdigits2_pos H). rewrite ulp_exp_eq. lia. Qed.

Lemma pow2_pos k : 0 <= k -> 0 < 2 ^ k.
Proof. intros. apply Z.pow_pos_nonneg; lia. Qed.

Lemma pow2_split a b : 0 <= a <= b -> 2 ^ b = 2 ^ (b - a) * 2 ^ a.
Proof. intros H. rewrite <- Z.pow_add_r by lia. f_equal. lia. Qed.

(** The quotient of a rounding: at most [prec] bits. *)
Lemma quotient_digits S :
  0 < S -> Zdigits2 (S / 2 ^ ulp_exp S) = Zdigits2 S - ulp_exp S.
Proof.
  intros H. apply Zdigits2_div_pow2; [exact H|].
  pose proof (ulp_exp_nonneg S). pose proof (ulp_exp_lt H). lia.
Qed.

Lemma quotient_bounds S :
  0 < S ->
  0 < S / 2 ^ ulp_exp S < 2 ^ 53
  /\ (0 < ulp_exp S -> 2 ^ 52 <= S / 2 ^ ulp_exp S).
Proof.
  intros H.
  pose proof (ulp_exp_nonneg S) as Hk. pose proof (ulp_exp_lt H) as Hk'.
  pose proof (pow2_pos Hk) as Hp.
  pose proof (Zdigits2_bounds H) as [Hl Hu].
  assert (Hq : 0 < S / 2 ^ ulp_exp S).
  { apply Z.div_str_pos. split; [exact Hp|].
    apply Z.le_trans with (2 ^ (Zdigits2 S - 1)); [|exact Hl].
    apply Z.pow_le_mono_r; lia. }
  pose proof (Zdigits2_bounds Hq) as [Hl' Hu'].
  rewrite (quotient_digits H) in Hl', Hu'.
  split; [split; [exact Hq|]|].
  - eapply Z.lt_le_trans; [exact Hu'|]. apply Z.pow_le_mono_r; [lia|].
    rewrite ulp_exp_eq. lia.
  - intros Hpos. eapply Z.le_trans; [|exact Hl'].
    apply Z.pow_le_mono_r; [lia|]. rewrite ulp_exp_eq in *. lia.
Qed.

(** What a rounding returns: a multiple q' * 2^k of the unit with q' the
    quotient or its successor. *)
Lemma rounds_to_quotient S F :
  rounds_to S F ->
  exists q', F = q' * 2 ^ ulp_exp S
             /\ (q' = S / 2 ^ ulp_exp S \/ q' = S / 2 ^ ulp_exp S + 1).
Proof.
  intros [[H|H] _].
  - exists (S / 2 ^ ulp_exp S). auto.
  - exists (S / 2 ^ ulp_exp S + 1). split; [rewrite H; ring|auto].
Qed.

Lemma rounds_to_ge S F : 0 < S -> rounds_to S F -> S / 2 ^ ulp_exp S * 2 ^ ulp_exp S <= F.
Proof.
  intros HS [[H|H] _]; rewrite H; [lia|].
  pose proof (pow2_pos (ulp_exp_nonneg S)). lia.
Qed.

Lemma truncation_bounds S :
  0 < S ->
  2 ^ (Zdigits2 S - 1) <= S / 2 ^ ulp_exp S * 2 ^ ulp_exp S <= S.
Proof.
  intros H.
  pose proof (ulp_exp_nonneg S) as Hk. pose proof (ulp_exp_lt H) as Hk'.
  pose proof (pow2_pos Hk) as Hp.
  pose proof (Zdigits2_bounds H) as [Hl Hu].
  split.
  - assert (E : 2 ^ (Zdigits2 S - 1) = 2 ^ (Zdigits2 S - 1 - ulp_exp S) * 2 ^ ulp_exp S)
      by (apply pow2_split; lia).
    rewrite E. apply Z.mul_le_mono_nonneg_r; [lia|].
    apply Z.div_le_lower_bound; [exact Hp|]. rewrite Z.mul_comm, <- E. exact Hl.
  - rewrite Z.mul_comm. apply Z.mul_div_le. exact Hp.
Qed.

Lemma rounds_to_pos S F : 0 < S -> rounds_to S F -> 0 < F.
Proof.
  intros HS HF. pose proof (rounds_to_ge HS HF).
  pose proof (truncation_bounds HS) as [Hl _].
  assert (0 < 2 ^ (Zdigits2 S - 1)).
  { apply pow2_pos. pose proof (Zdigits2_pos HS). lia. }
  lia.
Qed.

Lemma rounds_to_exact S F : representable S -> rounds_to S F -> F = S.
Proof. intros HS [_ H]. apply H, HS. Qed.

(** Every double not above S is not above its rounding. *)
Lemma rounds_to_lower S F A :
  0 < S -> rounds_to S F -> representable A -> A <= S -> A <= F.
Proof.
  intros HS HF HA HAS.
  destruct (Z_le_gt_dec A 0) as [H0|H0].
  { pose proof (rounds_to_pos HS HF). lia. }
  apply Z.le_trans with (S / 2 ^ ulp_exp S * 2 ^ ulp_exp S);
    [|apply rounds_to_ge; assumption].
  assert (HA0 : 0 < A) by lia.
  pose proof (truncation_bounds HS) as [Hl _].
  pose proof (Zdigits2_le HA0 HAS) as Hd.
  pose proof (Zdigits2_bounds HA0) as [_ Hu].
  destruct (Z.eq_dec (Zdigits2 A) (Zdigits2 S)) as [E|E].
  - (* same binade: A is a multiple of the same unit *)
    unfold representable in HA.
    assert (Ek : ulp_exp A = ulp_exp S) by (rewrite !ulp_exp_eq, E; reflexivity).
    rewrite Ek in HA.
    pose proof (pow2_pos (ulp_exp_nonneg S)) as Hp.
    apply Z.mod_divide in HA; [|lia]. destruct HA as [c Hc]. subst A.
    apply Z.mul_le_mono_nonneg_r; [lia|].
    apply Z.div_le_lower_bound; [exact Hp|]. rewrite Z.mul_comm. exact HAS.
  - assert (2 ^ Zdigits2 A <= 2 ^ (Zdigits2 S - 1)) by (apply Z.pow_le_mono_r; lia).
    lia.
Qed.

(** Every double not below S is not below its rounding. *)
Lemma rounds_to_upper S F A :
  0 < S -> rounds_to S F -> representable A -> S <= A -> F <= A.
Proof.
  intros HS HF HA HSA.
  pose proof (pow2_pos (ulp_exp_nonneg S)) as Hp.
  destruct (Z.eq_dec (S mod 2 ^ ulp_exp S) 0) as [E|E].
  { destruct HF as [_ HF]. rewrite (HF E). exact HSA. }
  assert (HA0 : 0 < A) by lia.
  pose proof (Zdigits2_le HS HSA) as Hd.
  assert (Hk : ulp_exp S <= ulp_exp A) by (rewrite !ulp_exp_eq; lia).
  unfold representable in HA.
  apply Z.mod_divide in HA; [|pose proof (pow2_pos (ulp_exp_nonneg A)); lia].
  destruct HA as [c Hc].
  rewrite (@pow2_split (ulp_exp S) (ulp_exp A)) in Hc
    by (pose proof (ulp_exp_nonneg S); lia).
  rewrite Z.mul_assoc in Hc.
  set (c' := c * 2 ^ (ulp_exp A - ulp_exp S)) in *.
  pose proof (Z.div_mod S (2 ^ ulp_exp S) ltac:(lia)) as Hdm.
  pose proof (Z.mod_pos_bound S (2 ^ ulp_exp S) Hp) as Hmb.
  assert (Hlt : S / 2 ^ ulp_exp S < c').
  { apply Z.mul_lt_mono_pos_r with (2 ^ ulp_exp S); [exact Hp|]. lia. }
  destruct HF as [[HF|HF] _]; rewrite HF, Hc; nia.
Qed.

Lemma rounds_to_representable S F : 0 < S -> rounds_to S F -> representable F.
Proof.
  intros HS HF.
  pose proof (rounds_to_pos HS HF) as HF0.
  destruct (rounds_to_quotient HF) as (q' & EF & Hq').
  pose proof (quotient_bounds HS) as [[Hq0 Hq53] Hq52].
  pose proof (ulp_exp_nonneg S) as Hk.
  pose proof (pow2_pos Hk) as Hp.
  assert (Hq'0 : 0 < q') by lia.
  assert (HdF : Zdigits2 F = Zdigits2 q' + ulp_exp S).
  { rewrite EF. apply Zdigits2_mul_pow2; assumption. }
  unfold representable. apply Z.mod_divide.
  { pose proof (pow2_pos (ulp_exp_nonneg F)). lia. }
  destruct (Z_lt_le_dec q' (2 ^ 53)) as [Hlt|Hge].
  - (* no carry: the unit of F is at most that of S *)
    pose proof (@Zdigits2_lt_pow2 q' 53 Hq'0 Hlt) as Hd.
    assert (Hle : ulp_exp F <= ulp_exp S).
    { rewrite (ulp_exp_eq F), HdF.
      destruct (Z.eq_dec (ulp_exp S) 0) as [E0|E0]; [lia|].
      assert (2 ^ 52 <= S / 2 ^ ulp_exp S) by (apply Hq52; lia).
      lia. }
    exists (q' * 2 ^ (ulp_exp S - ulp_exp F)).
    rewrite <- Z.mul_assoc, <- pow2_split; [exact EF|].
    pose proof (ulp_exp_nonneg F). lia.
  - (* carry: F is a power of two *)
    assert (Eq : q' = 2 ^ 53) by lia.
    assert (Ed : Zdigits2 q' = 54).
    { apply Zdigits2_unique; [exact Hq'0|]. rewrite Eq. simpl. lia. }
    assert (EkF : ulp_exp F = ulp_exp S + 1) by (rewrite (ulp_exp_eq F), HdF, Ed; lia).
    exists (2 ^ 52). rewrite EkF, EF, Eq.
    rewrite Z.pow_add_r by lia.
    change (2 ^ 53) with (2 ^ 52 * 2). change (2 ^ 1) with 2. ring.
Qed.

Lemma emin_eq : emin = -1074.
Proof. reflexivity. Qed.

Lemma places_eq m e : places m e = Z.max 0 (Z.max (Zdigits2 m + e - 53) (-1074) - e).
Proof. reflexivity. Qed.

Lemma div_pow2_cancel m a k : 0 <= a <= k -> (m * 2 ^ a) / 2 ^ k = m / 2 ^ (k - a).
Proof.
  intros H. rewrite (@pow2_split a k) by lia.
  apply Z.div_mul_cancel_r; apply Z.neq_sym, Z.lt_neq, pow2_pos; lia.
Qed.

Lemma mod_pow2_cancel m a k :
  0 <= a <= k -> (m * 2 ^ a) mod 2 ^ k = 0 -> m mod 2 ^ (k - a) = 0.
Proof.
  intros H. rewrite (@pow2_split a k) by lia.
  assert (0 < 2 ^ a) by (apply pow2_pos; lia).
  assert (0 < 2 ^ (k - a)) by (apply pow2_pos; lia).
  rewrite Z.mul_mod_distr_r by lia. nia.
Qed.

(** [binary_round_aux] on an exact, aligned mantissa: the double of a
    rounding of its value. *)
Lemma binary_round_aux_canon sx mx ex :
  -1074 <= ex -> ex <= fexp prec emax (Zdigits2 (Zpos mx) + ex) ->
  exists F, rounds_to (Zpos mx * 2 ^ (ex + 1074)) F
            /\ binary_round_aux prec emax sx (Zpos mx) ex loc_Exact = canon sx F.
Proof.
  intros Hex Hal. rewrite fexp_eq in Hal.
  remember (Zpos mx * 2 ^ (ex + 1074)) as S eqn:ES.
  assert (Hmx : 0 < Zpos mx) by lia.
  assert (HS : 0 < S) by (pose proof (@pow2_pos (ex + 1074)); nia).
  assert (HdS : Zdigits2 S = Zdigits2 (Zpos mx) + (ex + 1074))
    by (rewrite ES; apply Zdigits2_mul_pow2; lia).
  pose proof (ulp_exp_nonneg S) as Hk. pose proof (ulp_exp_eq S) as Ek.
  assert (Epl : places (Zpos mx) ex = ulp_exp S - (ex + 1074)).
  { rewrite places_eq, Ek, HdS. lia. }
  assert (Hka : ex + 1074 <= ulp_exp S) by (rewrite Ek, HdS; lia).
  assert (Eq : Zpos mx / 2 ^ places (Zpos mx) ex = S / 2 ^ ulp_exp S).
  { rewrite Epl, <- div_pow2_cancel by lia. rewrite <- ES. reflexivity. }
  assert (Emod : S mod 2 ^ ulp_exp S = 0 -> Zpos mx mod 2 ^ places (Zpos mx) ex = 0).
  { rewrite Epl. intros Hmod. apply mod_pow2_cancel; [lia|].
    rewrite <- ES. exact Hmod. }
  destruct (@binary_round_aux_spec sx (Zpos mx) ex loc_Exact ltac:(lia))
    as (m2 & Hm2 & Hex2 & E).
  rewrite E. rewrite Eq in Hm2, Hex2.
  assert (HF : rounds_to S (m2 * 2 ^ ulp_exp S)).
  { split.
    - destruct Hm2 as [->| ->]; [left; reflexivity|right; ring].
    - intros Hmod. rewrite (Hex2 eq_refl (Emod Hmod)).
      pose proof (Z.div_mod S (2 ^ ulp_exp S)
                    ltac:(pose proof (pow2_pos Hk); lia)) as Hdm.
      rewrite Hmod in Hdm. lia. }
  exists (m2 * 2 ^ ulp_exp S). split; [exact HF|]. clear HF.
  pose proof (quotient_bounds HS) as [[Hq0 Hq53] Hq52].
  assert (Hm20 : 0 < m2) by lia.
  remember (m2 * 2 ^ ulp_exp S) as F eqn:EF.
  assert (HdF : Zdigits2 F = Zdigits2 m2 + ulp_exp S)
    by (rewrite EF; apply Zdigits2_mul_pow2; lia).
  pose proof (Zdigits2_pos Hm20) as Hd2.
  assert (Hd2' : 0 < ulp_exp S -> 53 <= Zdigits2 m2).
  { intros Hpos. assert (52 < Zdigits2 m2); [|lia].
    apply Zdigits2_ge_pow2; [lia|]. specialize (Hq52 Hpos). lia. }
  assert (Epl2 : places m2 (ex + places (Zpos mx) ex) = Z.max (Zdigits2 m2 - 53) 0).
  { rewrite places_eq, Epl. lia. }
  assert (EkF : ulp_exp F = ulp_exp S + Z.max (Zdigits2 m2 - 53) 0).
  { rewrite (ulp_exp_eq F), HdF.
    destruct (Z.eq_dec (ulp_exp S) 0) as [E0|E0]; [lia|].
    assert (53 <= Zdigits2 m2) by (apply Hd2'; lia). lia. }
  unfold canon. rewrite EkF, Epl2, Epl.
  set (j := Z.max (Zdigits2 m2 - 53) 0) in *.
  assert (EqF : F / 2 ^ (ulp_exp S + j) = m2 / 2 ^ j).
  { rewrite EF, div_pow2_cancel by lia. do 2 f_equal. lia. }
  rewrite EqF, emin_eq.
  replace (ex + (ulp_exp S - (ex + 1074)) + j) with (-1074 + (ulp_exp S + j)) by lia.
  assert (0 <= m2 / 2 ^ j) by (apply Z.div_pos; [lia|apply pow2_pos; lia]).
  destruct (m2 / 2 ^ j) as [|q|q]; try reflexivity. lia.
Qed.

Lemma iter_xO mx d : Zpos (Pos.iter xO mx d) = Zpos mx * 2 ^ Zpos d.
Proof.
  induction d as [|d IH] using Pos.peano_ind.
  - simpl. rewrite (Pos2Z.inj_xO mx). lia.
  - rewrite Pos.iter_succ, (Pos2Z.inj_xO (Pos.iter xO mx d)), IH.
    rewrite Pos2Z.inj_succ, Z.pow_succ_r by lia. ring.
Qed.

Lemma shl_align_spec mx ex ex' :
  exists mz, shl_align mx ex ex' = (mz, Z.min ex ex')
             /\ Zpos mz = Zpos mx * 2 ^ (ex - Z.min ex ex').
Proof.
  unfold shl_align. destruct (ex' - ex) as [|d|d] eqn:E.
  - exists mx. replace (Z.min ex ex') with ex by lia.
    rewrite Z.sub_diag. simpl. split; [reflexivity|lia].
  - exists mx. replace (Z.min ex ex') with ex by lia.
    rewrite Z.sub_diag. simpl. split; [reflexivity|lia].
  - exists (Pos.iter xO mx d). replace (Z.min ex ex') with ex' by lia.
    split; [reflexivity|]. rewrite iter_xO. f_equal. f_equal. lia.
Qed.

(** [binary_round]: aligned first, then rounded. *)
Lemma binary_round_canon sx mx ex :
  -1074 <= ex ->
  exists F, rounds_to (Zpos mx * 2 ^ (ex + 1074)) F
            /\ binary_round prec emax sx mx ex = canon sx F.
Proof.
  intros Hex. unfold binary_round.
  destruct (shl_align_spec mx ex (fexp prec emax (Zpos (digits2_pos mx) + ex)))
    as (mz & E & Hmz).
  rewrite E. rewrite fexp_eq in *.
  set (ez := Z.min ex (Z.max (Zpos (digits2_pos mx) + ex - 53) (-1074))) in *.
  assert (Hez : -1074 <= ez <= ex) by (unfold ez; lia).
  assert (Hd : Zdigits2 (Zpos mz) = Zpos (digits2_pos mx) + (ex - ez)).
  { rewrite Hmz. change (Zpos (digits2_pos mx)) with (Zdigits2 (Zpos mx)).
    apply Zdigits2_mul_pow2; lia. }
  destruct (@binary_round_aux_canon sx mz ez) as (F & HF & EF).
  - lia.
  - rewrite fexp_eq, Hd. unfold ez. lia.
  - exists F. split; [|exact EF].
    replace (Zpos mx * 2 ^ (ex + 1074)) with (Zpos mz * 2 ^ (ez + 1074)); [exact HF|].
    rewrite Hmz, <- Z.mul_assoc, <- Z.pow_add_r by lia. do 2 f_equal. lia.
Qed.

Lemma INF_gt : 2 ^ 2098 < INF.
Proof. unfold INF. apply Z.pow_lt_mono_r; lia. Qed.

Lemma INF_pos : 0 < INF.
Proof. unfold INF. apply pow2_pos. lia. Qed.

Global Opaque INF.

Lemma valid_finite s m e :
  valid_binary (S754_finite s m e) = true ->
  -1074 <= e <= 971
  /\ Zdigits2 (Zpos m) <= 53
  /\ (-1074 < e -> Zdigits2 (Zpos m) = 53).
Proof.
  cbn [SpecFloat.valid_binary]. unfold bounded, canonical_mantissa.
  rewrite andb_true_iff, Z.eqb_eq, Z.leb_le, fexp_eq.
  change (emax - prec) with 971.
  change (Zpos (digits2_pos m)) with (Zdigits2 (Zpos m)).
  pose proof (@Zdigits2_pos (Zpos m) ltac:(lia)). lia.
Qed.

Lemma magnitude_pos m e : -1074 <= e -> 0 < magnitude m e.
Proof.
  intros H. unfold magnitude. pose proof (@pow2_pos (e + 1074) ltac:(lia)). nia.
Qed.

Lemma magnitude_digits m e :
  -1074 <= e -> Zdigits2 (magnitude m e) = Zdigits2 (Zpos m) + (e + 1074).
Proof. intros H. apply Zdigits2_mul_pow2; lia. Qed.

Lemma valid_magnitude s m e :
  valid_binary (S754_finite s m e) = true ->
  ulp_exp (magnitude m e) = e + 1074
  /\ representable (magnitude m e)
  /\ 0 < magnitude m e < 2 ^ 2098.
Proof.
  intros Hv. destruct (valid_finite _ _ _ Hv) as (He & Hd & Hn).
  assert (Ek : ulp_exp (magnitude m e) = e + 1074).
  { rewrite ulp_exp_eq, magnitude_digits by lia. lia. }
  split; [exact Ek|]. split.
  - unfold representable. rewrite Ek. unfold magnitude. apply Z.mod_mul.
    apply Z.neq_sym, Z.lt_neq, pow2_pos. lia.
  - split; [apply magnitude_pos; lia|].
    assert (Hlt : Zdigits2 (magnitude m e) <= 2098) by (rewrite magnitude_digits; lia).
    pose proof (@Zdigits2_bounds (magnitude m e) ltac:(apply magnitude_pos; lia)) as [_ Hu].
    eapply Z.lt_le_trans; [exact Hu|]. apply Z.pow_le_mono_r; lia.
Qed.

(** The double of a representable magnitude below the overflow threshold. *)
Lemma canon_finite sx F :
  0 < F -> representable F -> Zdigits2 F <= 2098 ->
  exists m e, canon sx F = S754_finite sx m e /\ magnitude m e = F /\ -1074 <= e.
Proof.
  intros HF HR Hd. unfold canon.
  pose proof (quotient_bounds HF) as [[Hq _] _].
  pose proof (ulp_exp_nonneg F) as Hk.
  destruct (F / 2 ^ ulp_exp F) as [|q|q] eqn:Eq; try lia.
  rewrite emin_eq. change (emax - prec) with 971.
  assert (Hle : -1074 + ulp_exp F <= 971) by (rewrite ulp_exp_eq; lia).
  apply Z.leb_le in Hle. rewrite Hle.
  exists q, (-1074 + ulp_exp F). split; [reflexivity|]. split; [|lia].
  unfold magnitude. rewrite <- Eq.
  replace (-1074 + ulp_exp F + 1074) with (ulp_exp F) by lia.
  unfold representable in HR.
  pose proof (Z.div_mod F (2 ^ ulp_exp F)
                ltac:(pose proof (pow2_pos Hk); lia)) as Hdm.
  rewrite HR in Hdm. lia.
Qed.

Lemma canon_overflow sx F :
  0 < F -> 2098 < Zdigits2 F -> canon sx F = S754_infinity sx.
Proof.
  intros HF Hd. unfold canon.
  pose proof (quotient_bounds HF) as [[Hq _] _].
  destruct (F / 2 ^ ulp_exp F) as [|q|q] eqn:Eq; try lia.
  rewrite emin_eq. change (emax - prec) with 971.
  assert (Hgt : (-1074 + ulp_exp F <=? 971) = false)
    by (apply Z.leb_gt; rewrite ulp_exp_eq; lia).
  rewrite Hgt. reflexivity.
Qed.

(** A valid finite double is the double of its magnitude. *)
Lemma valid_canon s m e :
  valid_binary (S754_finite s m e) = true ->
  S754_finite s m e = canon s (magnitude m e).
Proof.
  intros Hv. destruct (valid_magnitude _ _ _ Hv) as (Ek & _ & _).
  destruct (valid_finite _ _ _ Hv) as (He & _ & _).
  unfold canon. rewrite Ek. unfold magnitude at 1.
  rewrite Z.div_mul by (apply Z.neq_sym, Z.lt_neq, pow2_pos; lia).
  rewrite emin_eq. change (emax - prec) with 971.
  replace (-1074 + (e + 1074)) with e by lia.
  assert (Hle : (e <=? 971) = true) by (apply Z.leb_le; lia).
  rewrite Hle. reflexivity.
Qed.

Lemma canon_valid sx F :
  0 < F -> valid_binary (canon sx F) = true.
Proof.
  intros HF. unfold canon.
  pose proof (quotient_bounds HF) as [[Hq Hq53] Hq52].
  pose proof (ulp_exp_nonneg F) as Hk.
  destruct (F / 2 ^ ulp_exp F) as [|q|q] eqn:Eq; try reflexivity.
  rewrite emin_eq. change (emax - prec) with 971.
  destruct (-1074 + ulp_exp F <=? 971) eqn:Hle; [|reflexivity].
  cbn [SpecFloat.valid_binary]. unfold bounded, canonical_mantissa.
  rewrite andb_true_iff, Z.eqb_eq, fexp_eq. change (emax - prec) with 971.
  split; [|exact Hle].
  change (Zpos (digits2_pos q)) with (Zdigits2 (Zpos q)).
  rewrite <- Eq, quotient_digits by exact HF.
  pose proof (ulp_exp_eq F). lia.
Qed.

Lemma key_finite s m e :
  valid_binary (S754_finite s m e) = true ->
  key (S754_finite s m e) = (if s then - magnitude m e else magnitude m e)
  /\ 0 < magnitude m e < 2 ^ 2098.
Proof.
  intros Hv. destruct (valid_magnitude _ _ _ Hv) as (_ & _ & H).
  split; [destruct s; reflexivity|exact H].
Qed.

Lemma magnitude_compare m1 e1 m2 e2 :
  valid_binary (S754_finite false m1 e1) = true ->
  valid_binary (S754_finite false m2 e2) = true ->
  match e1 ?= e2 with
  | Lt => Lt
  | Gt => Gt
  | Eq => Pos.compare_cont Eq m1 m2
  end = (magnitude m1 e1 ?= magnitude m2 e2).
Proof.
  intros H1 H2.
  destruct (valid_finite _ _ _ H1) as (He1 & Hd1 & Hn1).
  destruct (valid_finite _ _ _ H2) as (He2 & Hd2 & Hn2).
  pose proof (@Zdigits2_bounds (Zpos m1) ltac:(lia)) as [Hl1 Hu1].
  pose proof (@Zdigits2_bounds (Zpos m2) ltac:(lia)) as [Hl2 Hu2].
  assert (Hlt : forall ma ea mb eb,
             -1074 <= ea -> ea < eb -> Zpos ma < 2 ^ 53 -> 2 ^ 52 <= Zpos mb ->
             magnitude ma ea < magnitude mb eb).
  { intros ma ea mb eb Hea Hab Ha Hb. unfold magnitude.
    assert (Hp : 0 < 2 ^ (ea + 1074)) by (apply pow2_pos; lia).
    assert (E : 2 ^ (eb + 1074) = 2 ^ (eb - ea - 1) * 2 * 2 ^ (ea + 1074)).
    { replace (eb + 1074) with ((eb - ea - 1) + 1 + (ea + 1074)) at 1 by lia.
      rewrite !Z.pow_add_r by lia. reflexivity. }
    assert (Hq : 1 <= 2 ^ (eb - ea - 1)).
    { pose proof (@pow2_pos (eb - ea - 1) ltac:(lia)). lia. }
    rewrite E. change (2 ^ 53) with (2 ^ 52 * 2) in Ha.
    rewrite Z.mul_assoc. apply Z.mul_lt_mono_pos_r; [exact Hp|].
    assert (Zpos mb * 1 <= Zpos mb * 2 ^ (eb - ea - 1))
      by (apply Z.mul_le_mono_nonneg_l; lia).
    lia. }
  assert (Hb1 : Zpos m1 < 2 ^ 53).
  { eapply Z.lt_le_trans; [exact Hu1|]. apply Z.pow_le_mono_r; lia. }
  assert (Hb2 : Zpos m2 < 2 ^ 53).
  { eapply Z.lt_le_trans; [exact Hu2|]. apply Z.pow_le_mono_r; lia. }
  destruct (Z.compare_spec e1 e2) as [E|E|E].
  - subst e2. unfold magnitude.
    rewrite <- Zmult_compare_compat_r
      by (apply Z.lt_gt, pow2_pos; lia). reflexivity.
  - symmetry. apply Z.compare_lt_iff. apply Hlt; try lia.
    rewrite Hn2 in Hl2 by lia. exact Hl2.
  - symmetry. apply Z.compare_gt_iff. apply Hlt; try lia.
    rewrite Hn1 in Hl1 by lia. exact Hl1.
Qed.

Lemma SFcompare_finite sx mx ex sy my ey :
  valid_binary (S754_finite sx mx ex) = true ->
  valid_binary (S754_finite sy my ey) = true ->
  SFcompare (S754_finite sx mx ex) (S754_finite sy my ey)
  = Some (key (S754_finite sx mx ex) ?= key (S754_finite sy my ey)).
Proof.
  intros Hx Hy.
  destruct (key_finite _ _ _ Hx) as [Ex Bx].
  destruct (key_finite _ _ _ Hy) as [Ey By].
  rewrite Ex, Ey. cbn [SFcompare]. f_equal.
  assert (Hx' : valid_binary (S754_finite false mx ex) = true) by exact Hx.
  assert (Hy' : valid_binary (S754_finite false my ey) = true) by exact Hy.
  destruct sx, sy.
  - rewrite Z.compare_opp, <- (magnitude_compare _ _ _ _ Hy' Hx').
    rewrite (Z.compare_antisym ex ey).
    destruct (ex ?= ey); cbn [CompOpp]; try reflexivity.
    rewrite Pos.compare_cont_antisym. reflexivity.
  - symmetry. apply Z.compare_lt_iff; lia.
  - symmetry. apply Z.compare_gt_iff; lia.
  - apply magnitude_compare; assumption.
Qed.

(** The comparison of two doubles is the comparison of their keys. *)
Lemma SFcompare_key x y :
  valid_binary x = true -> valid_binary y = true ->
  x <> S754_nan -> y <> S754_nan ->
  SFcompare x y = Some (key x ?= key y).
Proof.
  intros Hx Hy Nx Ny. pose proof INF_gt as HI. pose proof INF_pos as HI0.
  destruct x as [sx|sx| |sx mx ex]; [| |congruence|];
    (destruct y as [sy|sy| |sy my ey]; [| |congruence|]);
    try (apply SFcompare_finite; assumption);
    try (destruct (key_finite _ _ _ Hx) as [Ex Bx]);
    try (destruct (key_finite _ _ _ Hy) as [Ey By]);
    try rewrite Ex; try rewrite Ey;
    cbn [SFcompare key]; f_equal; symmetry;
    repeat match goal with |- context [if ?b then _ else _] => destruct b end;
    first [ reflexivity
          | apply Z.compare_lt_iff; lia
          | apply Z.compare_gt_iff; lia
          | apply Z.compare_eq_iff; lia ].
Qed.

Lemma SFleb_key x y :
  valid_binary x = true -> valid_binary y = true ->
  x <> S754_nan -> y <> S754_nan ->
  SFleb x y = (key x <=? key y).
Proof.
  intros Hx Hy Nx Ny. unfold SFleb. rewrite SFcompare_key by assumption.
  unfold Z.leb. destruct (key x ?= key y); reflexivity.
Qed.

Lemma SFltb_key x y :
  valid_binary x = true -> valid_binary y = true ->
  x <> S754_nan -> y <> S754_nan ->
  SFltb x y = (key x <? key y).
Proof.
  intros Hx Hy Nx Ny. unfold SFltb. rewrite SFcompare_key by assumption.
  unfold Z.ltb. destruct (key x ?= key y); reflexivity.
Qed.

Lemma SFeqb_key x y :
  valid_binary x = true -> valid_binary y = true ->
  x <> S754_nan -> y <> S754_nan ->
  SFeqb x y = (key x =? key y).
Proof.
  intros Hx Hy Nx Ny. unfold SFeqb. rewrite SFcompare_key by assumption.
  destruct (Z.compare_spec (key x) (key y)) as [E|E|E]; symmetry.
  - apply Z.eqb_eq, E.
  - apply Z.eqb_neq. lia.
  - apply Z.eqb_neq. lia.
Qed.

Lemma shl_align_fst mx ex ez :
  ez <= ex -> Zpos (fst (shl_align mx ex ez)) = Zpos mx * 2 ^ (ex - ez).
Proof.
  intros H. destruct (shl_align_spec mx ex ez) as (mz & E & Hmz).
  rewrite E. cbn [fst]. rewrite Hmz. do 2 f_equal. lia.
Qed.

Lemma binary_normalize_canon M ez :
  -1074 <= ez -> M <> 0 ->
  exists F, rounds_to (Z.abs M * 2 ^ (ez + 1074)) F
            /\ binary_normalize prec emax M ez false = canon (M <? 0) F.
Proof.
  intros Hez HM. destruct M as [|m|m]; [congruence| |]; cbn [binary_normalize Z.abs Z.ltb Z.compare].
  - apply binary_round_canon. exact Hez.
  - apply binary_round_canon. exact Hez.
Qed.


(** The key of the double of a rounding. *)
Lemma key_canon sx F :
  0 < F -> representable F ->
  canon sx F <> S754_nan
  /\ key (canon sx F)
     = (if sx then -1 else 1) * (if Zdigits2 F <=? 2098 then F else INF).
Proof.
  intros HF HR. destruct (Zdigits2 F <=? 2098) eqn:E.
  - apply Z.leb_le in E.
    destruct (canon_finite sx HF HR E) as (m & e & Ec & Em & He).
    rewrite Ec. split; [discriminate|]. cbn [key]. fold (magnitude m e).
    rewrite Em. destruct sx; lia.
  - apply Z.leb_gt in E. rewrite (canon_overflow sx HF) by lia.
    split; [discriminate|]. cbn [key]. destruct sx; lia.
Qed.

Lemma digits_below F : 0 < F -> F < 2 ^ 2098 -> (Zdigits2 F <=? 2098) = true.
Proof. intros H0 H. apply Z.leb_le. apply Zdigits2_lt_pow2; assumption. Qed.

(** The sum of two finite doubles: the double of a rounding of the exact
    sum of their keys. *)
Lemma SFadd_finite sx mx ex sy my ey :
  valid_binary (S754_finite sx mx ex) = true ->
  valid_binary (S754_finite sy my ey) = true ->
  (key (S754_finite sx mx ex) + key (S754_finite sy my ey) = 0 ->
   SFadd prec emax (S754_finite sx mx ex) (S754_finite sy my ey) = S754_zero false)
  /\ (key (S754_finite sx mx ex) + key (S754_finite sy my ey) <> 0 ->
      exists F,
        rounds_to (Z.abs (key (S754_finite sx mx ex) + key (S754_finite sy my ey))) F
        /\ SFadd prec emax (S754_finite sx mx ex) (S754_finite sy my ey)
           = canon (key (S754_finite sx mx ex) + key (S754_finite sy my ey) <? 0) F).
Proof.
  intros Hx Hy.
  destruct (valid_finite _ _ _ Hx) as (Hex & _ & _).
  destruct (valid_finite _ _ _ Hy) as (Hey & _ & _).
  cbn [SFadd].
  set (ez := Z.min ex ey).
  assert (Hez : -1074 <= ez /\ ez <= ex /\ ez <= ey) by (unfold ez; lia).
  rewrite !shl_align_fst by lia.
  set (M := cond_Zopp sx (Zpos mx * 2 ^ (ex - ez)) + cond_Zopp sy (Zpos my * 2 ^ (ey - ez))).
  assert (EM : key (S754_finite sx mx ex) + key (S754_finite sy my ey)
               = M * 2 ^ (ez + 1074)).
  { unfold M. cbn [key].
    replace (ex + 1074) with ((ex - ez) + (ez + 1074)) by lia.
    replace (ey + 1074) with ((ey - ez) + (ez + 1074)) by lia.
    rewrite (Z.pow_add_r 2 (ex - ez) (ez + 1074)),
      (Z.pow_add_r 2 (ey - ez) (ez + 1074)) by lia.
    destruct sx, sy; cbn [cond_Zopp]; ring. }
  rewrite EM.
  assert (Hp : 0 < 2 ^ (ez + 1074)) by (apply pow2_pos; lia).
  split.
  - intros H0. assert (M = 0) by nia. replace M with 0. reflexivity.
  - intros H0. assert (HM : M <> 0) by nia.
    destruct (binary_normalize_canon (ez:=ez) ltac:(lia) HM) as (F & HF & EF).
    exists F. rewrite EF.
    rewrite Z.abs_mul, (Z.abs_eq (2 ^ (ez + 1074))) by lia.
    split; [exact HF|]. f_equal.
    destruct (Z.ltb_spec M 0), (Z.ltb_spec (M * 2 ^ (ez + 1074)) 0); try reflexivity; nia.
Qed.

(** Adding a non-negative double never lowers, and never gives NaN when the
    first operand is not minus infinity. *)
Lemma SFadd_mono x y :
  valid_binary x = true -> valid_binary y = true ->
  x <> S754_nan -> y <> S754_nan ->
  - INF < key x -> 0 <= key y ->
  SFadd prec emax x y <> S754_nan /\ key x <= key (SFadd prec emax x y).
Proof.
  intros Hx Hy Nx Ny Bx By.
  pose proof INF_gt as HI. pose proof INF_pos as HI0.
  destruct y as [sy|sy| |sy my ey]; [| |congruence|].
  - (* y is a zero *)
    destruct x as [sx|sx| |sx mx ex]; [| |congruence|]; cbn [SFadd].
    + destruct sx, sy; split; try discriminate; cbn [key]; lia.
    + split; [discriminate|lia].
    + split; [discriminate|lia].
  - (* y is an infinity: plus infinity *)
    destruct sy; [cbn [key] in By; lia|].
    destruct x as [sx|sx| |sx mx ex]; [| |congruence|]; cbn [SFadd].
    + split; [discriminate|cbn [key]; lia].
    + destruct sx; [cbn [key] in Bx; lia|]. split; [discriminate|lia].
    + destruct (key_finite _ _ _ Hx) as [Ex Mx].
      split; [discriminate|]. rewrite Ex. cbn [key]. destruct sx; lia.
  - (* y is finite: positive *)
    destruct (key_finite _ _ _ Hy) as [Ey My].
    destruct sy; [rewrite Ey in By; lia|].
    destruct x as [sx|sx| |sx mx ex]; [| |congruence|].
    + cbn [SFadd]. split; [discriminate|]. rewrite Ey. cbn [key]. lia.
    + destruct sx; [cbn [key] in Bx; lia|]. cbn [SFadd].
      split; [discriminate|lia].
    + destruct (key_finite _ _ _ Hx) as [Ex Mx].
      destruct (valid_magnitude _ _ _ Hx) as (_ & Rx & _).
      destruct (SFadd_finite _ _ _ _ _ _ Hx Hy) as [H0 H1].
      rewrite Ex, Ey in *.
      set (S := (if sx then - magnitude mx ex else magnitude mx ex) + magnitude my ey) in *.
      destruct (Z.eq_dec S 0) as [E0|E0].
      { rewrite (H0 E0). split; [discriminate|]. cbn [key]. unfold S in E0.
        destruct sx; lia. }
      destruct (H1 E0) as (F & HF & EF). rewrite EF.
      assert (HS : 0 < Z.abs S) by lia.
      pose proof (rounds_to_pos HS HF) as HF0.
      pose proof (rounds_to_representable HS HF) as HFR.
      destruct (key_canon (S <? 0) HF0 HFR) as [Nn Ek].
      split; [exact Nn|]. rewrite Ek.
      destruct (Z.ltb_spec S 0) as [Hneg|Hpos].
      * (* the sum is negative: its magnitude is below that of x *)
        assert (sx = true) by (destruct sx; [reflexivity|unfold S in Hneg; lia]).
        subst sx. unfold S in *.
        assert (HFx : F <= magnitude mx ex).
        { apply (rounds_to_upper HS HF Rx). lia. }
        rewrite digits_below by lia. lia.
      * (* the sum is positive *)
        assert (Hle : (if sx then - magnitude mx ex else magnitude mx ex) <= F).
        { destruct sx; [lia|].
          apply (rounds_to_lower HS HF Rx). unfold S. lia. }
        destruct (Zdigits2 F <=? 2098); [lia|].
        destruct sx; lia.
Qed.


(** [binary_round_aux] never returns NaN on a non-negative mantissa, and the
    result has the sign it is given. *)
Lemma binary_round_aux_sign sx mx ex lx :
  0 <= mx ->
  binary_round_aux prec emax sx mx ex lx <> S754_nan
  /\ (if sx then key (binary_round_aux prec emax sx mx ex lx) <= 0
      else 0 <= key (binary_round_aux prec emax sx mx ex lx)).
Proof.
  intros Hm. pose proof INF_pos as HI.
  destruct (binary_round_aux_spec sx ex lx Hm) as (m2 & Hm2 & _ & E).
  rewrite E. clear E.
  assert (H0 : 0 <= mx / 2 ^ places mx ex).
  { apply Z.div_pos; [lia|]. apply pow2_pos. unfold places. lia. }
  assert (H2 : 0 <= m2 / 2 ^ places m2 (ex + places mx ex)).
  { apply Z.div_pos; [lia|]. apply pow2_pos. unfold places. lia. }
  destruct (m2 / 2 ^ places m2 (ex + places mx ex)) as [|q|q]; [| |lia].
  - split; [discriminate|]. destruct sx; cbn [key xorb]; lia.
  - destruct (_ <=? _).
    + split; [discriminate|].
      assert (0 <= Zpos q * 2 ^ (ex + places mx ex + places m2 (ex + places mx ex) + 1074)).
      { apply Z.mul_nonneg_nonneg; [lia|]. apply Z.pow_nonneg. lia. }
      destruct sx; cbn [key xorb]; lia.
    + split; [discriminate|]. destruct sx; cbn [key xorb]; lia.
Qed.

(** The product of two non-negative doubles, the pair zero and infinity
    apart, is a non-negative double. *)
Lemma SFmul_nonneg x y :
  valid_binary x = true -> valid_binary y = true ->
  x <> S754_nan -> y <> S754_nan ->
  0 <= key x -> 0 <= key y ->
  (key x < INF \/ key y <> 0) -> (key y < INF \/ key x <> 0) ->
  SFmul prec emax x y <> S754_nan /\ 0 <= key (SFmul prec emax x y).
Proof.
  intros Hx Hy Nx Ny Bx By Cx Cy. pose proof INF_pos as HI.
  destruct x as [sx|sx| |sx mx ex]; [| |congruence|];
    (destruct y as [sy|sy| |sy my ey]; [| |congruence|]); cbn [SFmul].
  - split; [discriminate|cbn [key xorb]; lia].
  - cbn [key xorb] in *. destruct sy; lia.
  - split; [discriminate|cbn [key xorb]; lia].
  - cbn [key xorb] in *. destruct sx; lia.
  - destruct sx, sy; cbn [key xorb] in *; try lia. split; [discriminate|cbn [key xorb]; lia].
  - destruct (key_finite _ _ _ Hy) as [Ey My]. rewrite Ey in By.
    destruct sx, sy; cbn [key xorb] in *; try lia. split; [discriminate|cbn [key xorb]; lia].
  - split; [discriminate|cbn [key xorb]; lia].
  - destruct (key_finite _ _ _ Hx) as [Ex Mx]. rewrite Ex in Bx.
    destruct sx, sy; cbn [key xorb] in *; try lia. split; [discriminate|cbn [key xorb]; lia].
  - destruct (key_finite _ _ _ Hx) as [Ex Mx]. rewrite Ex in Bx.
    destruct (key_finite _ _ _ Hy) as [Ey My]. rewrite Ey in By.
    destruct sx; [lia|]. destruct sy; [lia|].
    apply (@binary_round_aux_sign false (Zpos (mx * my))). lia.
Qed.

Lemma SFdiv_core_binary_nonneg m1 e1 m2 e2 :
  0 <= fst (fst (SFdiv_core_binary prec emax (Zpos m1) e1 (Zpos m2) e2)).
Proof.
  unfold SFdiv_core_binary.
  set (s := _ - _ - _).
  set (m' := match s with Z0 => Zpos m1 | Zpos _ => Z.shiftl (Zpos m1) s | Zneg _ => 0 end).
  assert (0 <= m').
  { unfold m'. destruct s; try lia. apply Z.shiftl_nonneg. lia. }
  pose proof (Z.div_pos m' (Zpos m2) ltac:(lia) ltac:(lia)) as Hq.
  unfold Z.div in Hq. destruct (Z.div_eucl m' (Zpos m2)) as [q r]. exact Hq.
Qed.

(** A non-negative double divided by a positive finite one. *)
Lemma SFdiv_nonneg x y :
  valid_binary x = true -> valid_binary y = true ->
  x <> S754_nan -> y <> S754_nan ->
  0 <= key x -> 0 < key y < INF ->
  SFdiv prec emax x y <> S754_nan /\ 0 <= key (SFdiv prec emax x y).
Proof.
  intros Hx Hy Nx Ny Bx By. pose proof INF_pos as HI.
  destruct y as [sy|sy| |sy my ey]; [cbn [key xorb] in By; lia| |congruence|].
  { cbn [key xorb] in By. destruct sy; lia. }
  destruct (key_finite _ _ _ Hy) as [Ey My]. rewrite Ey in By.
  destruct sy; [lia|].
  destruct x as [sx|sx| |sx mx ex]; [| |congruence|]; cbn [SFdiv].
  - split; [discriminate|cbn [key xorb]; lia].
  - destruct sx; cbn [key xorb] in *; try lia. split; [discriminate|cbn [key xorb]; lia].
  - destruct (key_finite _ _ _ Hx) as [Ex Mx]. rewrite Ex in Bx.
    destruct sx; [lia|].
    pose proof (SFdiv_core_binary_nonneg mx ex my ey) as Hq.
    destruct (SFdiv_core_binary prec emax (Zpos mx) ex (Zpos my) ey) as [[mz ez] lz].
    cbn [fst] in Hq. apply (@binary_round_aux_sign false mz). exact Hq.
Qed.

Lemma SFabs_key x :
  x <> S754_nan -> SFabs x <> S754_nan /\ key (SFabs x) = Z.abs (key x).
Proof.
  intros Nx. pose proof INF_pos as HI.
  destruct x as [sx|sx| |sx mx ex]; [| |congruence|]; cbn [SFabs key];
    (split; [discriminate|]); try destruct sx; lia.
Qed.

Lemma key_bounds x : valid_binary x = true -> - INF <= key x <= INF.
Proof.
  intros Hx. pose proof INF_pos as HI. pose proof INF_gt as HI'.
  destruct x as [sx|sx| |sx mx ex]; cbn [key xorb]; try destruct sx; try lia;
    destruct (valid_magnitude _ _ _ Hx) as (_ & _ & H); unfold magnitude in H; lia.
Qed.

Lemma ONE_HALF : ONE = 2 * HALF.
Proof. reflexivity. Qed.

Lemma HALF_pos : 0 < HALF.
Proof. reflexivity. Qed.

Lemma INF_ONE : INF = 2 ^ 1126 * ONE.
Proof. reflexivity. Qed.

Global Opaque ONE HALF.

Lemma f64_key_bounds x : - INF <= f64_key x <= INF.
Proof. apply key_bounds, Prim2SF_valid. Qed.

Lemma add_mono64 x y :
  f64_ok x -> f64_ok y -> - INF < f64_key x -> 0 <= f64_key y ->
  f64_ok (x + y)%float /\ f64_key x <= f64_key (x + y)%float.
Proof.
  unfold f64_ok, f64_key. rewrite FloatAxioms.add_spec. intros.
  apply SFadd_mono; auto using Prim2SF_valid.
Qed.


Lemma mul_nonneg64 x y :
  f64_ok x -> f64_ok y -> 0 <= f64_key x -> 0 <= f64_key y ->
  (f64_key x < INF \/ f64_key y <> 0) -> (f64_key y < INF \/ f64_key x <> 0) ->
  f64_ok (x * y)%float /\ 0 <= f64_key (x * y)%float.
Proof.
  unfold f64_ok, f64_key. rewrite FloatAxioms.mul_spec. intros.
  apply SFmul_nonneg; auto using Prim2SF_valid.
Qed.

Lemma div_nonneg64 x y :
  f64_ok x -> f64_ok y -> 0 <= f64_key x -> 0 < f64_key y < INF ->
  f64_ok (x / y)%float /\ 0 <= f64_key (x / y)%float.
Proof.
  unfold f64_ok, f64_key. rewrite FloatAxioms.div_spec. intros.
  apply SFdiv_nonneg; auto using Prim2SF_valid.
Qed.

Lemma abs64 x :
  f64_ok x -> f64_ok (PrimFloat.abs x) /\ f64_key (PrimFloat.abs x) = Z.abs (f64_key x).
Proof.
  unfold f64_ok, f64_key. rewrite FloatAxioms.abs_spec. apply SFabs_key.
Qed.

Lemma leb64 x y :
  f64_ok x -> f64_ok y -> (x <=? y)%float = (f64_key x <=? f64_key y).
Proof.
  unfold f64_ok, f64_key. rewrite FloatAxioms.leb_spec. intros.
  apply SFleb_key; auto using Prim2SF_valid.
Qed.

Lemma ltb64 x y :
  f64_ok x -> f64_ok y -> (x <? y)%float = (f64_key x <? f64_key y).
Proof.
  unfold f64_ok, f64_key. rewrite FloatAxioms.ltb_spec. intros.
  apply SFltb_key; auto using Prim2SF_valid.
Qed.

Lemma eqb64 x y :
  f64_ok x -> f64_ok y -> (x =? y)%float = (f64_key x =? f64_key y).
Proof.
  unfold f64_ok, f64_key. rewrite FloatAxioms.eqb_spec. intros.
  apply SFeqb_key; auto using Prim2SF_valid.
Qed.

Lemma leb64_true x y :
  (x <=? y)%float = true -> f64_ok x /\ f64_ok y /\ f64_key x <= f64_key y.
Proof.
  intros H.
  assert (Hx : f64_ok x).
  { unfold f64_ok. intros E. rewrite FloatAxioms.leb_spec, E in H. discriminate. }
  assert (Hy : f64_ok y).
  { unfold f64_ok. intros E. rewrite FloatAxioms.leb_spec, E in H.
    destruct (Prim2SF x); discriminate. }
  rewrite leb64 in H by assumption. apply Z.leb_le in H. auto.
Qed.

Lemma ltb64_true x y :
  (x <? y)%float = true -> f64_ok x /\ f64_ok y /\ f64_key x < f64_key y.
Proof.
  intros H.
  assert (Hx : f64_ok x).
  { unfold f64_ok. intros E. rewrite FloatAxioms.ltb_spec, E in H. discriminate. }
  assert (Hy : f64_ok y).
  { unfold f64_ok. intros E. rewrite FloatAxioms.ltb_spec, E in H.
    destruct (Prim2SF x); discriminate. }
  rewrite ltb64 in H by assumption. apply Z.ltb_lt in H. auto.
Qed.

Lemma is_nan64 x : PrimFloat.is_nan x = false <-> f64_ok x.
Proof.
  unfold PrimFloat.is_nan, f64_ok. rewrite negb_false_iff, FloatAxioms.eqb_spec. split.
  - intros H E. rewrite E in H. discriminate.
  - intros H. rewrite SFeqb_key by auto using Prim2SF_valid. apply Z.eqb_refl.
Qed.

Lemma zero64 : f64_ok PrimFloat.zero /\ f64_key PrimFloat.zero = 0.
Proof. split; [discriminate|reflexivity]. Qed.

(** A truthy double is a number other than zero. *)
Lemma truthy64 x : f64_truthy x = true -> f64_ok x /\ f64_key x <> 0.
Proof.
  unfold f64_truthy. destruct (PrimFloat.is_nan x) eqn:E; [discriminate|].
  apply is_nan64 in E. rewrite negb_true_iff, eqb64 by (exact E || apply zero64).
  intros H. apply Z.eqb_neq in H. split; [exact E|exact H].
Qed.

Lemma ONE_pos : 0 < ONE.
Proof. rewrite ONE_HALF. pose proof HALF_pos. lia. Qed.

Lemma ONE_eq : ONE = 2 ^ 1074.
Proof. reflexivity. Qed.

(** A whole number of at most [prec] bits is a double. *)
Lemma representable_whole q : 0 < q < 2 ^ 53 -> representable (q * ONE).
Proof.
  intros Hq. unfold representable. rewrite ONE_eq.
  assert (Hd : Zdigits2 (q * 2 ^ 1074) = Zdigits2 q + 1074)
    by (apply Zdigits2_mul_pow2; lia).
  pose proof (@Zdigits2_lt_pow2 q 53 ltac:(lia) ltac:(lia)) as Hd'.
  pose proof (ulp_exp_nonneg (q * 2 ^ 1074)) as Hk.
  assert (Hle : ulp_exp (q * 2 ^ 1074) <= 1074) by (rewrite ulp_exp_eq, Hd; lia).
  apply Z.mod_divide; [pose proof (pow2_pos Hk); lia|].
  exists (q * 2 ^ (1074 - ulp_exp (q * 2 ^ 1074))).
  rewrite <- Z.mul_assoc, <- pow2_split by lia. reflexivity.
Qed.

Lemma whole_below q : 0 < q < 2 ^ 53 -> q * ONE < 2 ^ 2098.
Proof.
  intros Hq. rewrite ONE_eq. change (2 ^ 2098) with (2 ^ 1024 * 2 ^ 1074).
  apply Z.mul_lt_mono_pos_r; [apply pow2_pos; lia|].
  eapply Z.lt_trans; [apply Hq|]. apply Z.pow_lt_mono_r; lia.
Qed.

(** The double of a whole number of at most [prec] bits is that number. *)
Lemma f64_of_Z_key q :
  Z.abs q < 2 ^ 53 -> f64_ok (f64_of_Z q) /\ f64_key (f64_of_Z q) = q * ONE.
Proof.
  intros Hq. unfold f64_of_Z, f64_ok, f64_key.
  destruct (Z.eq_dec q 0) as [->|Hq0]; [split; [discriminate|reflexivity]|].
  destruct (@binary_normalize_canon q 0 ltac:(lia) Hq0) as (F & HF & EF).
  rewrite EF. change (0 + 1074) with 1074 in HF. rewrite <- ONE_eq in HF.
  assert (HS : 0 < Z.abs q * ONE) by (pose proof ONE_pos; nia).
  pose proof (rounds_to_pos HS HF) as HF0.
  assert (HR : representable (Z.abs q * ONE)) by (apply representable_whole; lia).
  pose proof (rounds_to_exact HR HF) as E. subst F.
  rewrite Prim2SF_SF2Prim by (apply canon_valid; exact HS).
  destruct (key_canon (q <? 0) HS HR) as [Nn Ek].
  split; [exact Nn|]. rewrite Ek.
  rewrite digits_below by (try exact HS; apply whole_below; lia).
  destruct (Z.ltb_spec q 0); lia.
Qed.

(** The integer [Math.round] computes, from the key. *)
Lemma round_quotient (s : bool) m e :
  -1074 <= e < 0 ->
  Z.shiftr (2 * (if s then Zneg m else Zpos m) + Z.shiftl 1 (- e)) (1 - e)
  = (key (S754_finite s m e) + HALF) / ONE.
Proof.
  intros He. rewrite Z.shiftr_div_pow2, Z.shiftl_mul_pow2 by lia.
  set (sm := if s then Zneg m else Zpos m).
  assert (Ek : key (S754_finite s m e) = sm * 2 ^ (e + 1074)).
  { unfold sm. destruct s; cbn [key]; lia. }
  rewrite Ek, ONE_HALF.
  rewrite <- (Z.div_mul_cancel_l (sm * 2 ^ (e + 1074) + HALF) (2 * HALF) 2)
    by (pose proof HALF_pos; lia).
  replace (2 * (sm * 2 ^ (e + 1074) + HALF))
    with ((2 * sm + 1 * 2 ^ (- e)) * 2 ^ (e + 1074)).
  2:{ rewrite Z.mul_add_distr_r, Z.mul_1_l, <- Z.pow_add_r by lia.
      replace (- e + (e + 1074)) with 1074 by lia.
      rewrite <- ONE_eq, ONE_HALF. ring. }
  replace (2 * (2 * HALF)) with (2 ^ (1 - e) * 2 ^ (e + 1074)).
  2:{ rewrite <- Z.pow_add_r by lia. replace (1 - e + (e + 1074)) with 1075 by lia.
      rewrite <- ONE_HALF, ONE_eq. reflexivity. }
  rewrite Z.div_mul_cancel_r; [reflexivity| |];
    apply Z.neq_sym, Z.lt_neq, pow2_pos; lia.
Qed.

Lemma round_quotient_bound s m e :
  valid_binary (S754_finite s m e) = true -> e < 0 ->
  Z.abs ((key (S754_finite s m e) + HALF) / ONE) < 2 ^ 53.
Proof.
  intros Hv He.
  destruct (key_finite _ _ _ Hv) as [Ek _]. rewrite Ek.
  destruct (valid_finite _ _ _ Hv) as (Hb & Hd & _).
  pose proof (@Zdigits2_bounds (Zpos m) ltac:(lia)) as [_ Hu].
  assert (Hm : Zpos m < 2 ^ 53).
  { eapply Z.lt_le_trans; [exact Hu|]. apply Z.pow_le_mono_r; lia. }
  assert (Hmag : magnitude m e < 2 ^ 52 * ONE).
  { unfold magnitude. rewrite ONE_eq.
    replace (2 ^ 52 * 2 ^ 1074) with (2 ^ 53 * 2 ^ 1073) by reflexivity.
    assert (0 < 2 ^ (e + 1074)) by (apply pow2_pos; lia).
    assert (2 ^ (e + 1074) <= 2 ^ 1073) by (apply Z.pow_le_mono_r; lia).
    apply Z.lt_le_trans with (2 ^ 53 * 2 ^ (e + 1074)).
    - apply Z.mul_lt_mono_pos_r; assumption.
    - apply Z.mul_le_mono_nonneg_l; [apply Z.pow_nonneg; lia|assumption]. }
  pose proof (magnitude_pos m (proj1 Hb)) as H0.
  pose proof ONE_pos as HO. pose proof HALF_pos as HH. pose proof ONE_HALF as EO.
  assert (Hup : (magnitude m e + HALF) / ONE < 2 ^ 52 + 1).
  { apply Z.div_lt_upper_bound; [exact HO|]. lia. }
  assert (Hlo : - 2 ^ 52 <= (- magnitude m e + HALF) / ONE).
  { apply Z.div_le_lower_bound; [exact HO|]. lia. }
  assert (Hup' : (- magnitude m e + HALF) / ONE <= 0).
  { apply Z.lt_succ_r. apply Z.div_lt_upper_bound; [exact HO|]. lia. }
  assert (Hlo' : 0 <= (magnitude m e + HALF) / ONE).
  { apply Z.div_pos; lia. }
  change (2 ^ 53) with (2 * 2 ^ 52).
  assert (0 < 2 ^ 52) by reflexivity.
  destruct s; lia.
Qed.

(** How [Math.round] proceeds: it returns its argument, or the double of the
    integer floor(x + 1/2) of a finite argument with a fractional part. *)
Lemma f64_round_cases x :
  f64_round x = x
  \/ (exists s m e,
        Prim2SF x = S754_finite s m e /\ e < 0
        /\ Z.abs ((f64_key x + HALF) / ONE) < 2 ^ 53
        /\ f64_round x
           = if (f64_key x + HALF) / ONE =? 0
             then (if s then PrimFloat.opp PrimFloat.zero else PrimFloat.zero)
             else f64_of_Z ((f64_key x + HALF) / ONE)).
Proof.
  unfold f64_round, f64_key.
  pose proof (Prim2SF_valid x) as Hv.
  destruct (Prim2SF x) as [sx|sx| |s m e] eqn:E; auto.
  destruct (Z.leb_spec 0 e) as [He|He]; [auto|].
  right. exists s, m, e.
  destruct (valid_finite _ _ _ Hv) as (Hb & _ & _).
  split; [reflexivity|]. split; [exact He|].
  split; [apply round_quotient_bound; assumption|].
  cbv zeta. rewrite round_quotient by lia. reflexivity.
Qed.

(** [Math.round] on keys: floor(x + 1/2), the infinities included. *)
Lemma round64 x :
  f64_ok x ->
  f64_ok (f64_round x)
  /\ f64_key (f64_round x) = (f64_key x + HALF) / ONE * ONE.
Proof.
  intros Hx.
  pose proof ONE_pos as HO. pose proof HALF_pos as HH. pose proof ONE_HALF as EO.
  destruct (f64_round_cases x) as [E|(s & m & e & E & He & Hq & Er)].
  - rewrite E. split; [exact Hx|].
    (* the key is a multiple of ONE *)
    assert (Hmul : exists c, f64_key x = c * ONE).
    { unfold f64_round, f64_key in *. pose proof (Prim2SF_valid x) as Hv.
      destruct (Prim2SF x) as [sx|sx| |s m e] eqn:Ex.
      - exists 0. reflexivity.
      - exists (if sx then - 2 ^ 1126 else 2 ^ 1126). cbn [key]. rewrite INF_ONE.
        destruct sx; ring.
      - exists 0. reflexivity.
      - destruct (Z.leb_spec 0 e) as [He|He].
        + exists ((if s then -1 else 1) * (Zpos m * 2 ^ e)). cbn [key].
          rewrite Z.pow_add_r, <- ONE_eq by lia. destruct s; ring.
        + (* the rounding gave back its argument: it was whole already *)
          destruct (valid_finite _ _ _ Hv) as (Hb & _ & _).
          cbv zeta in E. rewrite round_quotient in E by lia.
          pose proof (@round_quotient_bound s m e Hv He) as Hq.
          set (q := (key (S754_finite s m e) + HALF) / ONE) in *.
          destruct (Z.eqb_spec q 0) as [Eq0|Eq0].
          * exfalso. apply (f_equal Prim2SF) in E. rewrite Ex in E.
            destruct s; discriminate.
          * destruct (f64_of_Z_key q Hq) as [_ Ek].
            unfold f64_key in Ek. rewrite E, Ex in Ek. exists q. exact Ek. }
    destruct Hmul as [c Hc]. rewrite Hc.
    replace (c * ONE + HALF) with (HALF + c * ONE) by ring.
    rewrite Z.div_add by lia. rewrite Z.div_small by lia. ring.
  - rewrite Er. destruct (Z.eqb_spec ((f64_key x + HALF) / ONE) 0) as [E0|E0].
    + rewrite E0. destruct s; split; try discriminate; reflexivity.
    + apply f64_of_Z_key. exact Hq.
Qed.

Lemma round64_nan x : ~ f64_ok x -> f64_round x = x.
Proof.
  unfold f64_ok, f64_round. intros H.
  destruct (Prim2SF x); try reflexivity. exfalso. apply H. discriminate.
Qed.

(** [Math.round] is idempotent. *)
Lemma f64_round_idem x : f64_round (f64_round x) = f64_round x.
Proof.
  pose proof ONE_pos as HO. pose proof HALF_pos as HH. pose proof ONE_HALF as EO.
  destruct (f64_round_cases x) as [E|(s & m & e & E & He & Hq & Er)].
  - rewrite E. exact E.
  - rewrite Er. destruct (Z.eqb_spec ((f64_key x + HALF) / ONE) 0) as [E0|E0].
    + destruct s; reflexivity.
    + set (q := (f64_key x + HALF) / ONE) in *.
      destruct (f64_of_Z_key q Hq) as [Hok Hk].
      destruct (f64_round_cases (f64_of_Z q)) as [E'|(s' & m' & e' & _ & _ & _ & Er')];
        [exact E'|].
      rewrite Er', Hk.
      replace (q * ONE + HALF) with (HALF + q * ONE) by ring.
      rewrite Z.div_add by lia. rewrite Z.div_small by lia. cbn [Z.add].
      destruct (Z.eqb_spec q 0); [contradiction|reflexivity].
Qed.

End Binary64.

(** ** The value of a double *)

Section Values.

Local Open Scope Z_scope.








End Values.

(** ** Exact products *)

Section Products.

Local Open Scope Z_scope.





End Products.

(** ** The estimators on binary64 *)

Section Binary64Estimators.

Local Open Scope string_scope.
Local Open Scope num_scope.

Implicit Types (c u : WaterConsumption float) (p : InitialQuizResponse float)
  (d : DailyQuizResponse float) (x y v a : float) (b : Z).

(** The operations of the interface, at doubles. *)
Ltac f64_ops :=
  change (@add float F64Number) with PrimFloat.add in *;
  change (@sub float F64Number) with PrimFloat.sub in *;
  change (@mul float F64Number) with PrimFloat.mul in *;
  change (@div float F64Number) with PrimFloat.div in *;
  change (@ltb float F64Number) with PrimFloat.ltb in *;
  change (@abs float F64Number) with PrimFloat.abs in *;
  change (@round float F64Number) with f64_round in *;
  change (@truthy float F64Number) with f64_truthy in *;
  change (@lit float F64Number) with f64_lit in *.

Lemma validNumber_spec x :
  validNumber x = true -> f64_ok x /\ (0 <= f64_key x < INF)%Z.
Proof.
  unfold validNumber. rewrite andb_true_iff. intros [H1 H2].
  apply leb64_true in H1. apply ltb64_true in H2.
  destruct H1 as (_ & Hx & H1). destruct H2 as (_ & _ & H2).
  rewrite (proj2 zero64) in H1.
  change (f64_key PrimFloat.infinity) with INF in H2. auto.
Qed.

Lemma posFinite_spec x :
  posFinite x = true -> f64_ok x /\ (0 < f64_key x < INF)%Z.
Proof.
  unfold posFinite, f64_ok, f64_key. pose proof (Prim2SF_valid x) as Hv.
  pose proof INF_gt.
  destruct (Prim2SF x) as [s|s| |[|] m e]; try discriminate. intros _.
  destruct (key_finite _ _ _ Hv) as [E B]. rewrite E.
  split; [discriminate|lia].
Qed.

Lemma atLeastb_spec b x : atLeastb b x = true -> atLeast b x.
Proof.
  unfold atLeastb, atLeast, f64_ok, f64_key.
  destruct (Prim2SF x); try discriminate; intros H; apply Z.leb_le in H;
    (split; [discriminate|exact H]).
Qed.

Lemma atLeast_weaken b b' x : (b' <= b)%Z -> atLeast b x -> atLeast b' x.
Proof. intros H [Hx Hb]. split; [exact Hx|lia]. Qed.

Lemma posFinite_atLeast x : posFinite x = true -> atLeast 0 x.
Proof. intros H. destruct (posFinite_spec _ H). split; [assumption|lia]. Qed.

Lemma validNumber_atLeast x : validNumber x = true -> atLeast 0 x.
Proof. intros H. destruct (validNumber_spec _ H). split; [assumption|lia]. Qed.

(** Adding a number that is not negative keeps a lower bound, and does not
    lower. *)
Lemma add_step b x y :
  (- INF < b)%Z -> atLeast b x -> atLeast 0 y ->
  atLeast b (x + y) /\ (f64_key x <= f64_key (x + y))%Z.
Proof.
  intros Hb [Hx Bx] [Hy By].
  destruct (@add_mono64 x y Hx Hy ltac:(lia) By) as [Hs Bs].
  split; [split; [exact Hs|lia]|exact Bs].
Qed.

Lemma add_atLeast b x y :
  (- INF < b)%Z -> atLeast b x -> atLeast 0 y -> atLeast b (x + y).
Proof. intros. apply add_step; assumption. Qed.

Lemma ONE_gt : (0 < ONE)%Z.
Proof. apply ONE_pos. Qed.

Lemma floor_bound : (- INF < -63 * ONE)%Z.
Proof.
  rewrite INF_ONE. pose proof ONE_pos.
  assert (63 < 2 ^ 1126)%Z by reflexivity. nia.
Qed.

Lemma zero_bound : (- INF < 0)%Z.
Proof. pose proof INF_pos. lia. Qed.

(** A positive constant times a valid number. *)
Lemma mul_lit a v :
  posFinite a = true -> validNumber v = true -> atLeast 0 (a * v).
Proof.
  intros Ha Hv.
  destruct (posFinite_spec _ Ha) as [Oa Ba].
  destruct (validNumber_spec _ Hv) as [Ov Bv].
  apply mul_nonneg64; try assumption; try lia.
Qed.

(** A number that is not negative times a valid number other than zero. *)
Lemma mul_set x v :
  atLeast 0 x -> validNumber v = true -> f64_truthy v = true -> atLeast 0 (x * v).
Proof.
  intros [Ox Bx] Hv Ht.
  destruct (validNumber_spec _ Hv) as [Ov Bv].
  destruct (truthy64 _ Ht) as [_ Nv].
  apply mul_nonneg64; try assumption; try lia.
Qed.

Lemma div_lit x a :
  atLeast 0 x -> posFinite a = true -> atLeast 0 (x / a).
Proof.
  intros [Ox Bx] Ha. destruct (posFinite_spec _ Ha) as [Oa Ba].
  apply div_nonneg64; assumption.
Qed.

Lemma abs_atLeast x : f64_ok x -> atLeast 0 (abs x).
Proof.
  intros Hx. destruct (abs64 Hx) as [Ha Ea]. f64_ops. split; [exact Ha|].
  rewrite Ea. lia.
Qed.

(** [Math.round] keeps a whole lower bound. *)
Lemma round_atLeast (q : Z) x :
  atLeast (q * ONE) x -> atLeast (q * ONE) (round x).
Proof.
  intros [Hx Bx]. destruct (round64 Hx) as [Hr Er]. f64_ops. split; [exact Hr|].
  rewrite Er.
  pose proof ONE_pos. pose proof HALF_pos.
  apply Z.mul_le_mono_nonneg_r; [lia|].
  apply Z.div_le_lower_bound; lia.
Qed.

Lemma round_atLeast_0 x : atLeast 0 x -> atLeast 0 (round x).
Proof. apply (round_atLeast 0). Qed.


(** A comparison with 0 that fails on a number. *)
Lemma not_below_zero x :
  f64_ok x -> (x <? lit 0) = false -> atLeast 0 x.
Proof.
  intros Hx H. split; [exact Hx|].
  change (PrimFloat.ltb x PrimFloat.zero = false) in H.
  rewrite ltb64 in H by (exact Hx || apply zero64).
  rewrite (proj2 zero64) in H. apply Z.ltb_ge in H. exact H.
Qed.

Lemma below_zero x : (x <? lit 0) = true -> f64_ok x.
Proof.
  intros H. change (PrimFloat.ltb x PrimFloat.zero = true) in H.
  apply ltb64_true in H. apply H.
Qed.

(** *** The baseline on a valid profile *)

Lemma zero_atLeast : atLeast 0 (lit 0 : float).
Proof. apply atLeastb_spec. vm_compute. reflexivity. Qed.

Lemma isSet_valid (f : option float) :
  validField f = true -> isSet f = true ->
  validNumber (valueOf f) = true /\ f64_truthy (valueOf f) = true.
Proof.
  destruct f as [v|]; cbn [validField isSet ifNum valueOf]; [|discriminate].
  f64_ops. destruct (f64_truthy v); [auto|discriminate].
Qed.

(** A run count at [a] gallons a run, a thirtieth of it a day. *)
Lemma rate_atLeast a (f : option float) :
  posFinite a = true -> validField f = true -> isSet f = true ->
  atLeast 0 (lit 0 + (a * valueOf f) / lit 30).
Proof.
  intros Ha Hf Hs. destruct (isSet_valid f Hf Hs) as [Hv _].
  apply add_atLeast; [apply zero_bound|apply zero_atLeast|].
  apply div_lit; [apply mul_lit; assumption|vm_compute; reflexivity].
Qed.

Lemma garden_atLeast (fa ff : option float) :
  validField fa = true -> validField ff = true ->
  isSet fa = true -> isSet ff = true ->
  atLeast 0 (lit 0 + (lit 0.623 * valueOf fa * valueOf ff) / lit 30).
Proof.
  intros Ha Hf Sa Sf.
  destruct (isSet_valid fa Ha Sa) as [Va _].
  destruct (isSet_valid ff Hf Sf) as [Vf Tf].
  apply add_atLeast; [apply zero_bound|apply zero_atLeast|].
  apply div_lit; [|vm_compute; reflexivity].
  apply mul_set; [|assumption|assumption].
  apply mul_lit; [vm_compute; reflexivity|assumption].
Qed.

Lemma validProfile_fields p :
  validProfile p = true ->
  validField (bathsPerMonth p) = true
  /\ validField (dishwasherFrequency p) = true
  /\ validField (laundryFrequency p) = true
  /\ validField (gardenArea p) = true
  /\ validField (gardenFrequency p) = true
  /\ validField (carWashFrequency p) = true
  /\ validField (utilityPercentage p) = true.
Proof.
  unfold validProfile; cbn [forallb]. rewrite !andb_true_iff. tauto.
Qed.

Ltac guards :=
  repeat match goal with
         | |- context [strictEq ?f ?s] => destruct (strictEq f s)
         | |- context [isTrue ?f] => destruct (isTrue f)
         end;
  cbn [andb];
  repeat match goal with
         | |- context [isSet ?f] =>
             let E := fresh "E" in destruct (isSet f) eqn:E; cbn [andb]
         end.

Ltac closed_atLeast := apply atLeastb_spec; vm_compute; reflexivity.

(** On a valid profile no category of the baseline is NaN, the shower
    category is at least -63 and no other category is negative. *)
Lemma initialCategories_sound p :
  validProfile p = true -> sound (initialCategories p).
Proof.
  intros Hp. destruct (validProfile_fields p Hp) as (Hb & Hd & Hl & Ha & Hf & Hc & Hu).
  unfold sound.
  split.
  { rewrite initialCategories_shower.
    assert (H0 : atLeast (-63 * ONE)
                   (if optIncludes "showerhead" (appliances p)
                    then lit 0 - lit 63 else lit 0 : float)).
    { destruct (optIncludes "showerhead" (appliances p)); closed_atLeast. }
    destruct (bathsPerMonth p) as [v|]; cbn [ifNum]; [|exact H0].
    destruct (truthy v); [|exact H0].
    apply add_atLeast; [apply floor_bound|exact H0|].
    apply div_lit; [|vm_compute; reflexivity].
    apply mul_lit; [vm_compute; reflexivity|exact Hb]. }
  unfold initialCategories; cbv zeta;
    cbn [toiletGallons kitchenGallons dishwasherGallons laundryGallons
         gardenGallons poolGallons carWashGallons energyGallons shoppingGallons
         otherGallons].
  split; [apply zero_atLeast|].
  split; [apply zero_atLeast|].
  split.
  { guards; try apply zero_atLeast;
      (apply rate_atLeast; [vm_compute; reflexivity|assumption|assumption]). }
  split.
  { guards; try apply zero_atLeast;
      (apply rate_atLeast; [vm_compute; reflexivity|assumption|assumption]). }
  split.
  { guards; try apply zero_atLeast. apply garden_atLeast; assumption. }
  split.
  { guards; closed_atLeast. }
  split.
  { guards; try apply zero_atLeast;
      (apply rate_atLeast; [vm_compute; reflexivity|assumption|assumption]). }
  split.
  { destruct (utilityPercentage p) as [v|]; cbn [ifNum]; [|apply zero_atLeast].
    destruct (truthy v); [|apply zero_atLeast].
    apply add_atLeast; [apply zero_bound|apply zero_atLeast|].
    apply mul_lit; [vm_compute; reflexivity|exact Hu]. }
  split.
  { guards; closed_atLeast. }
  apply zero_atLeast.
Qed.

(** The sum of the categories of a sound breakdown is a number of at least
    -63. *)
Lemma sumCategories_atLeast c : sound c -> atLeast (-63 * ONE) (sumCategories c).
Proof.
  intros (H1 & H2 & H3 & H4 & H5 & H6 & H7 & H8 & H9 & H10 & H11).
  unfold sumCategories.
  repeat (apply add_atLeast; [apply floor_bound| |assumption]).
  exact H1.
Qed.

(** The correction on a sound breakdown whose total is a number. *)
Lemma ensureNonNegative_sound c :
  sound c -> f64_ok (totalGallons c) ->
  sound (ensureNonNegative c)
  /\ atLeast 0 (totalGallons (ensureNonNegative c))
  /\ (f64_key (otherGallons c) <= f64_key (otherGallons (ensureNonNegative c)))%Z.
Proof.
  intros Hc Ht. unfold ensureNonNegative.
  destruct (totalGallons c <? lit 0) eqn:E.
  - destruct Hc as (H1 & H2 & H3 & H4 & H5 & H6 & H7 & H8 & H9 & H10 & H11).
    destruct (@add_step 0 (otherGallons c) (abs (totalGallons c)))
      as [Ho Bo]; [apply zero_bound|exact H11|apply abs_atLeast; exact Ht|].
    split; [|split; [apply zero_atLeast|exact Bo]].
    unfold sound; cbn [withTotal withOther showerGallons toiletGallons
      kitchenGallons dishwasherGallons laundryGallons gardenGallons poolGallons
      carWashGallons energyGallons shoppingGallons otherGallons].
    repeat (split; [assumption|]). exact Ho.
  - split; [exact Hc|]. split; [apply not_below_zero; assumption|lia].
Qed.

Lemma roundAll_sound c :
  sound c -> atLeast 0 (totalGallons c) ->
  sound (roundAll c) /\ atLeast 0 (totalGallons (roundAll c)).
Proof.
  intros (H1 & H2 & H3 & H4 & H5 & H6 & H7 & H8 & H9 & H10 & H11) Ht.
  split; [|apply round_atLeast_0; exact Ht].
  unfold sound; cbn [roundAll showerGallons toiletGallons
    kitchenGallons dishwasherGallons laundryGallons gardenGallons poolGallons
    carWashGallons energyGallons shoppingGallons otherGallons].
  split; [apply round_atLeast; exact H1|].
  repeat (split; [apply round_atLeast_0; assumption|]).
  apply round_atLeast_0; assumption.
Qed.

(** What the two closing steps make of a sound breakdown. *)
Lemma closing_sound c :
  sound c -> totalGallons c = sumCategories c ->
  sound (roundAll (ensureNonNegative c))
  /\ atLeast 0 (totalGallons (roundAll (ensureNonNegative c))).
Proof.
  intros Hc Ht.
  assert (Hok : f64_ok (totalGallons c)).
  { rewrite Ht. apply (sumCategories_atLeast Hc). }
  destruct (ensureNonNegative_sound Hc Hok) as (Hs & Hn & _).
  apply roundAll_sound; assumption.
Qed.

Lemma baseline_sound p :
  validProfile p = true ->
  sound (calculateInitialWaterConsumption p)
  /\ atLeast 0 (totalGallons (calculateInitialWaterConsumption p)).
Proof.
  intros Hp. apply closing_sound; [apply initialCategories_sound; exact Hp|].
  reflexivity.
Qed.

(** *** The day on a valid profile and a valid log *)

Lemma atLeast_ok b x : atLeast b x -> f64_ok x.
Proof. intros [H _]. exact H. Qed.

Ltac fields :=
  cbn [withTotal withShower withToilet withKitchen withOther roundAll
       totalGallons showerGallons toiletGallons kitchenGallons
       dishwasherGallons laundryGallons gardenGallons poolGallons
       carWashGallons energyGallons shoppingGallons otherGallons].

Ltac grows_leaves :=
  unfold grows, categories; fields;
  repeat constructor; try (eapply atLeast_ok; eassumption); try assumption;
  try apply Z.le_refl.

Lemma grows_refl c : sound c -> grows c c.
Proof.
  intros (H1 & H2 & H3 & H4 & H5 & H6 & H7 & H8 & H9 & H10 & H11). grows_leaves.
Qed.

Lemma grows_trans c1 c2 c3 : grows c1 c2 -> grows c2 c3 -> grows c1 c3.
Proof.
  unfold grows. generalize (categories c1) (categories c2) (categories c3).
  intros l1 l2 l3 H12. revert l3.
  induction H12 as [|x y l1 l2 [_ Hxy] _ IH]; intros l3 H23; inversion H23; subst.
  - constructor.
  - constructor; [|apply IH; assumption].
    match goal with H : _ /\ (_ <= _)%Z |- _ => destruct H as [Hok Hyz] end.
    split; [exact Hok|lia].
Qed.

Lemma withShower_step c y :
  sound c -> atLeast 0 y ->
  sound (withShower (showerGallons c + y) c)
  /\ grows c (withShower (showerGallons c + y) c).
Proof.
  intros Hc Hy.
  pose proof Hc as (H1 & H2 & H3 & H4 & H5 & H6 & H7 & H8 & H9 & H10 & H11).
  destruct (add_step floor_bound H1 Hy) as [Hs Bs]. split.
  - unfold sound; fields. repeat (split; [assumption|]). assumption.
  - grows_leaves.
Qed.

Lemma withToilet_step c y :
  sound c -> atLeast 0 y ->
  sound (withToilet (toiletGallons c + y) c)
  /\ grows c (withToilet (toiletGallons c + y) c).
Proof.
  intros Hc Hy.
  pose proof Hc as (H1 & H2 & H3 & H4 & H5 & H6 & H7 & H8 & H9 & H10 & H11).
  destruct (add_step zero_bound H2 Hy) as [Hs Bs]. split.
  - unfold sound; fields. repeat (split; [assumption|]). assumption.
  - grows_leaves.
Qed.

Lemma withKitchen_step c y :
  sound c -> atLeast 0 y ->
  sound (withKitchen (kitchenGallons c + y) c)
  /\ grows c (withKitchen (kitchenGallons c + y) c).
Proof.
  intros Hc Hy.
  pose proof Hc as (H1 & H2 & H3 & H4 & H5 & H6 & H7 & H8 & H9 & H10 & H11).
  destruct (add_step zero_bound H3 Hy) as [Hs Bs]. split.
  - unfold sound; fields. repeat (split; [assumption|]). assumption.
  - grows_leaves.
Qed.

Lemma withOther_step c y :
  sound c -> atLeast 0 y ->
  sound (withOther (otherGallons c + y) c)
  /\ grows c (withOther (otherGallons c + y) c).
Proof.
  intros Hc Hy.
  pose proof Hc as (H1 & H2 & H3 & H4 & H5 & H6 & H7 & H8 & H9 & H10 & H11).
  destruct (add_step zero_bound H11 Hy) as [Hs Bs]. split.
  - unfold sound; fields. repeat (split; [assumption|]). assumption.
  - grows_leaves.
Qed.

Lemma withTotal_step c y :
  sound c -> sound (withTotal y c) /\ grows c (withTotal y c).
Proof.
  intros Hc. split; [exact Hc|]. apply (grows_refl Hc).
Qed.

(** One step of the day on a valid field. *)
Lemma whenSet_step (field : option float) update u c :
  sound c /\ grows u c ->
  validField field = true ->
  (sound c -> forall v, validNumber v = true ->
   sound (update v c) /\ grows c (update v c)) ->
  sound (whenSet field update c) /\ grows u (whenSet field update c).
Proof.
  intros [Hc Hu] Hf Hupd. unfold whenSet, ifNum.
  destruct field as [v|]; [|auto]. destruct (truthy v); [|auto].
  destruct (Hupd Hc v Hf) as [Hs Hg].
  split; [exact Hs|]. eapply grows_trans; eassumption.
Qed.

Lemma validActivity_fields d :
  validActivity d = true -> Forall (fun f => validField f = true) (activityFields d).
Proof.
  unfold validActivity. rewrite forallb_forall. intros H.
  apply Forall_forall. exact H.
Qed.

(** The twelve steps on a valid log keep a breakdown sound and lower no
    category. *)
Lemma applyDailyActivity_sound d p u :
  validActivity d = true -> sound u ->
  sound (applyDailyActivity d p u) /\ grows u (applyDailyActivity d p u).
Proof.
  intros Hd Hu. apply validActivity_fields in Hd. unfold activityFields in Hd.
  repeat match goal with
         | H : Forall _ (_ :: _) |- _ => inversion H; clear H; subst
         end.
  unfold applyDailyActivity; cbv zeta.
  repeat (apply whenSet_step;
          [|assumption
           |let Hc := fresh "Hc" in
            let v := fresh "v" in
            let Hv := fresh "Hv" in
            intros Hc v Hv; cbv beta;
            try match goal with
                | |- context [if ?b then _ else _] => destruct b
                end;
            first [ apply withTotal_step; exact Hc
                  | apply withShower_step;
                    [exact Hc|apply mul_lit; [vm_compute; reflexivity|exact Hv]]
                  | apply withToilet_step;
                    [exact Hc|apply mul_lit; [vm_compute; reflexivity|exact Hv]]
                  | apply withKitchen_step;
                    [exact Hc|apply mul_lit; [vm_compute; reflexivity|exact Hv]]
                  | apply withOther_step;
                    [exact Hc|apply mul_lit; [vm_compute; reflexivity|exact Hv]] ]]).
  split; [exact Hu|apply (grows_refl Hu)].
Qed.


Lemma daily_sound d p :
  validProfile p = true -> validActivity d = true ->
  sound (dailyCategories d p)
  /\ grows (calculateInitialWaterConsumption p) (dailyCategories d p)
  /\ f64_ok (totalGallons (dailyCategories d p)).
Proof.
  intros Hp Hd. destruct (baseline_sound p Hp) as [Hb _].
  destruct (@applyDailyActivity_sound d p _ Hd Hb) as [Hs Hg].
  unfold dailyCategories.
  split; [exact Hs|]. split; [exact Hg|].
  apply (atLeast_ok (sumCategories_atLeast Hs)).
Qed.

(** *** The claims on the program's arithmetic *)

Lemma atLeast_leb x : atLeast 0 x -> PrimFloat.leb (lit 0) x = true.
Proof.
  intros [Hx Bx]. change (@lit float F64Number 0) with PrimFloat.zero.
  rewrite leb64 by (exact Hx || apply zero64).
  rewrite (proj2 zero64). apply Z.leb_le. exact Bx.
Qed.

(** The closing steps on a negative total, whatever the breakdown. *)
Lemma closing_deficit c :
  (totalGallons c <? lit 0) = true ->
  totalGallons (roundAll (ensureNonNegative c)) = lit 0
  /\ otherGallons (roundAll (ensureNonNegative c))
     = round (otherGallons c + abs (totalGallons c)).
Proof.
  intros E. unfold ensureNonNegative. rewrite E. split; reflexivity.
Qed.

(** C3. For every valid profile and activity log (every numeric field absent
    or a finite number that is not negative), both estimators return a
    totalGallons that is a number and at least 0; and whenever the total
    computed from the categories is negative, the returned total is 0 and
    the returned "other" is Math.round of its value plus abs(total): the
    whole deficit goes to "other".  On binary64, the arithmetic of the
    program. *)
Theorem total_clamped_deficit_to_other :
  forall d p,
    validProfile p = true -> validActivity d = true ->
    (PrimFloat.leb (lit 0) (totalGallons (calculateInitialWaterConsumption p)) = true
     /\ ((totalGallons (initialCategories p) <? lit 0) = true ->
         totalGallons (calculateInitialWaterConsumption p) = lit 0
         /\ otherGallons (calculateInitialWaterConsumption p)
            = round (otherGallons (initialCategories p)
                     + abs (totalGallons (initialCategories p)))))
    /\ (PrimFloat.leb (lit 0) (totalGallons (calculateDailyWaterConsumption d p)) = true
        /\ ((totalGallons (dailyCategories d p) <? lit 0) = true ->
            totalGallons (calculateDailyWaterConsumption d p) = lit 0
            /\ otherGallons (calculateDailyWaterConsumption d p)
               = round (otherGallons (dailyCategories d p)
                        + abs (totalGallons (dailyCategories d p))))).
Proof.
  intros d p Hp Hd. split; split.
  - apply atLeast_leb. apply (baseline_sound p Hp).
  - apply closing_deficit.
  - apply atLeast_leb.
    destruct (daily_sound d p Hp Hd) as (Hs & _ & _).
    apply (closing_sound Hs). reflexivity.
  - apply closing_deficit.
Qed.



(** C4 (as amended). With an all-zero activity log the Daily Adjuster returns
    the baseline's persisted value in each of the ten categories other than
    "other".  Its total is recomputed from the baseline's persisted values:
    Math.round of their sum (in binary64, in the order of the source), or 0
    when that sum is negative, in which case "other" is Math.round of the
    baseline's "other" plus the deficit; otherwise "other" is the
    baseline's. *)
Theorem empty_log_keeps_baseline_categories :
  forall d p,
    noActivity d = true ->
    categoriesButOther (calculateDailyWaterConsumption d p)
    = categoriesButOther (calculateInitialWaterConsumption p)
    /\ totalGallons (calculateDailyWaterConsumption d p)
       = round (if sumCategories (calculateInitialWaterConsumption p) <? lit 0
                then lit 0
                else sumCategories (calculateInitialWaterConsumption p))
    /\ otherGallons (calculateDailyWaterConsumption d p)
       = if sumCategories (calculateInitialWaterConsumption p) <? lit 0
         then round (otherGallons (calculateInitialWaterConsumption p)
                     + abs (sumCategories (calculateInitialWaterConsumption p)))
         else otherGallons (calculateInitialWaterConsumption p).
Proof.
  intros d p Hempty.
  unfold calculateDailyWaterConsumption, dailyCategories.
  rewrite applyDailyActivity_noActivity by exact Hempty.
  split; [|split].
  - rewrite categoriesButOther_roundAll, categoriesButOther_ensureNonNegative.
    rewrite categoriesButOther_updateTotal.
    unfold calculateInitialWaterConsumption.
    rewrite categoriesButOther_roundAll.
    generalize (categoriesButOther (ensureNonNegative (initialCategories p))).
    intros l. rewrite map_map. apply map_ext. intros x. apply f64_round_idem.
  - cbn [roundAll totalGallons]. rewrite totalGallons_ensureNonNegative.
    reflexivity.
  - cbn [roundAll otherGallons]. rewrite otherGallons_ensureNonNegative.
    change (totalGallons (updateTotal (calculateInitialWaterConsumption p)))
      with (sumCategories (calculateInitialWaterConsumption p)).
    change (otherGallons (updateTotal (calculateInitialWaterConsumption p)))
      with (otherGallons (calculateInitialWaterConsumption p)).
    destruct (sumCategories (calculateInitialWaterConsumption p) <? lit 0);
      [reflexivity|].
    unfold calculateInitialWaterConsumption; cbn [roundAll otherGallons].
    apply f64_round_idem.
Qed.

(** *** The returned values are roundings *)


(** *** The shower step *)











End Binary64Estimators.

(** ** Runs on concrete inputs *)

Section Runs.

Local Open Scope Q_scope.
Local Open Scope string_scope.

(** Both zero laws the generic results ask for hold for doubles too. *)
Lemma f64_truthy_zero : @truthy float F64Number (lit 0) = false.
Proof. vm_compute. reflexivity. Qed.

Lemma f64_round_zero :
  f64_eqb (@round float F64Number (lit 0)) (lit 0) = true.
Proof. vm_compute. reflexivity. Qed.

(** Scenario 1: the column defaults give 291 gallons, all of it shopping. *)
Example scenario1_exact :
  values (calculateInitialWaterConsumption (N:=QNumber) defaultProfile)
  = [291; 0; 0; 0; 0; 0; 0; 0; 0; 0; 291; 0].
Proof. vm_compute. reflexivity. Qed.

Example scenario1_binary64 :
  forallb (fun xy => f64_eqb (fst xy) (snd xy))
    (combine (values (calculateInitialWaterConsumption (N:=F64Number) defaultProfile))
             (map f64_of_Z [291; 0; 0; 0; 0; 0; 0; 0; 0; 0; 291; 0]%Z))
  = true.
Proof. vm_compute. reflexivity. Qed.

(** Scenario 4: ten shower minutes without the tag put 25 gallons on the
    baseline's 0. *)
Example scenario4_binary64 :
  f64_eqb
    (showerGallons (calculateDailyWaterConsumption (N:=F64Number)
                      (withShowerMinutes (Some (lit 10)) absentActivity)
                      defaultProfile))
    (f64_of_Z 25) = true.
Proof. vm_compute. reflexivity. Qed.

(** Scenario 5: a showerhead, no bath and no shopping class; the deficit of
    63 gallons goes to "other". *)
Example scenario5_binary64 :
  forallb (fun xy => f64_eqb (fst xy) (snd xy))
    (combine (values (calculateInitialWaterConsumption (N:=F64Number) deficitProfile))
             (map f64_of_Z [0; -63; 0; 0; 0; 0; 0; 0; 0; 0; 0; 62]%Z))
  = true.
Proof. vm_compute. reflexivity. Qed.

(** C2, refuted as stated.  For the default profile with an efficient
    dishwasher and washing machine run three times a month the baseline
    returns a total of 293 and categories that sum to 292; for the default
    profile with a one-minute shower and one flush the Daily Adjuster returns
    297 against 298.  In exact arithmetic and in binary64. *)
Lemma total_differs_from_sum_of_rounded :
  ~ (totalGallons (calculateInitialWaterConsumption (N:=QNumber) fractionalProfile)
     == sumCategories (calculateInitialWaterConsumption fractionalProfile))
  /\ ~ (totalGallons (calculateDailyWaterConsumption (N:=QNumber)
                        showerAndFlush defaultProfile)
        == sumCategories (calculateDailyWaterConsumption showerAndFlush defaultProfile))
  /\ f64_eqb
       (totalGallons (calculateInitialWaterConsumption (N:=F64Number) fractionalProfile))
       (sumCategories (calculateInitialWaterConsumption fractionalProfile)) = false
  /\ f64_eqb
       (totalGallons (calculateDailyWaterConsumption (N:=F64Number)
                        showerAndFlush defaultProfile))
       (sumCategories (calculateDailyWaterConsumption showerAndFlush defaultProfile))
     = false.
Proof.
  split; [|split; [|split]].
  - intros H. vm_compute in H. discriminate.
  - intros H. vm_compute in H. discriminate.
  - vm_compute. reflexivity.
  - vm_compute. reflexivity.
Qed.

(** C4, refuted as stated.  With no activity logged, the Daily Adjuster
    returns "other" = 63 where the baseline returns 62 (showerhead, no bath,
    0.4 + 14/30 gallons of appliances), and a total of 292 where the baseline
    returns 293 (the profile above).  In exact arithmetic and in binary64. *)
Lemma empty_log_differs_from_baseline :
  calculateDailyWaterConsumption (N:=QNumber) absentActivity deficitProfile
  <> calculateInitialWaterConsumption deficitProfile
  /\ calculateDailyWaterConsumption (N:=QNumber) absentActivity fractionalProfile
     <> calculateInitialWaterConsumption fractionalProfile
  /\ calculateDailyWaterConsumption (N:=F64Number) absentActivity deficitProfile
     <> calculateInitialWaterConsumption deficitProfile
  /\ calculateDailyWaterConsumption (N:=F64Number) absentActivity fractionalProfile
     <> calculateInitialWaterConsumption fractionalProfile.
Proof.
  split; [|split; [|split]]; intros H.
  - apply (f_equal (@otherGallons Q)) in H. vm_compute in H. discriminate.
  - apply (f_equal (@totalGallons Q)) in H. vm_compute in H. discriminate.
  - apply (f_equal (fun c => f64_eqb (otherGallons c) (f64_of_Z 63))) in H.
    vm_compute in H. discriminate.
  - apply (f_equal (fun c => f64_eqb (totalGallons c) (f64_of_Z 292))) in H.
    vm_compute in H. discriminate.
Qed.




(** Scenario 5 as an instance of C3, for both estimators. *)
Lemma total_clamped_deficit_to_other_witness :
  (validProfile deficitProfile = true /\ validActivity absentActivity = true)
  /\ ((totalGallons (initialCategories (N:=F64Number) deficitProfile) <? lit 0)%num = true
      /\ totalGallons (calculateInitialWaterConsumption (N:=F64Number) deficitProfile)
         = lit 0
      /\ otherGallons (calculateInitialWaterConsumption (N:=F64Number) deficitProfile)
         = f64_of_Z 62)
  /\ ((totalGallons (dailyCategories (N:=F64Number) absentActivity deficitProfile)
       <? lit 0)%num = true
      /\ totalGallons (calculateDailyWaterConsumption (N:=F64Number)
                         absentActivity deficitProfile) = lit 0
      /\ otherGallons (calculateDailyWaterConsumption (N:=F64Number)
                         absentActivity deficitProfile) = f64_of_Z 63).
Proof.
  assert (Hp : validProfile deficitProfile = true) by (vm_compute; reflexivity).
  assert (Hd : validActivity absentActivity = true) by (vm_compute; reflexivity).
  assert (Hi : (totalGallons (initialCategories (N:=F64Number) deficitProfile)
                <? lit 0)%num = true) by (vm_compute; reflexivity).
  assert (Hn : (totalGallons (dailyCategories (N:=F64Number) absentActivity deficitProfile)
                <? lit 0)%num = true) by (vm_compute; reflexivity).
  destruct (total_clamped_deficit_to_other absentActivity deficitProfile Hp Hd)
    as [[_ Hinit] [_ Hdaily]].
  destruct (Hinit Hi) as [Hti Hoi]. destruct (Hdaily Hn) as [Htd Hod].
  split; [split; assumption|].
  split; (split; [assumption|split; [assumption|]]).
  - rewrite Hoi. vm_compute. reflexivity.
  - rewrite Hod. vm_compute. reflexivity.
Defined.

(** C4 as amended, on a profile whose rounded categories sum to -1 and on
    one where they sum to 292. *)
Lemma empty_log_keeps_baseline_categories_witness :
  noActivity (N:=F64Number) absentActivity = true
  /\ (categoriesButOther (calculateDailyWaterConsumption absentActivity deficitProfile)
      = categoriesButOther (calculateInitialWaterConsumption (N:=F64Number) deficitProfile)
      /\ totalGallons (calculateDailyWaterConsumption (N:=F64Number)
                         absentActivity deficitProfile) = lit 0
      /\ otherGallons (calculateDailyWaterConsumption (N:=F64Number)
                         absentActivity deficitProfile) = f64_of_Z 63)
  /\ (totalGallons (calculateDailyWaterConsumption (N:=F64Number)
                      absentActivity fractionalProfile) = f64_of_Z 292
      /\ otherGallons (calculateDailyWaterConsumption absentActivity fractionalProfile)
         = otherGallons (calculateInitialWaterConsumption (N:=F64Number)
                           fractionalProfile)).
Proof.
  assert (He : noActivity (N:=F64Number) absentActivity = true)
    by (vm_compute; reflexivity).
  destruct (empty_log_keeps_baseline_categories absentActivity deficitProfile He)
    as (Hcats & Htot & Hoth).
  destruct (empty_log_keeps_baseline_categories absentActivity fractionalProfile He)
    as (_ & Htot' & Hoth').
  split; [exact He|]. split; [split; [exact Hcats|split]|split].
  - rewrite Htot. vm_compute. reflexivity.
  - rewrite Hoth. vm_compute. reflexivity.
  - rewrite Htot'. vm_compute. reflexivity.
  - rewrite Hoth'. vm_compute. reflexivity.
Defined.

(** Scenario 3 as an instance of C5. *)
Lemma showerhead_thirty_baths_witness :
  optIncludes "showerhead" (appliances (showerheadProfile (N:=QNumber) 30)) = true
  /\ bathsPerMonth (showerheadProfile (N:=QNumber) 30) = Some 30
  /\ showerGallons (initialCategories (N:=QNumber) (showerheadProfile 30))
     == - (63) + 80 * 30 / 30
  /\ showerGallons (calculateInitialWaterConsumption (N:=QNumber) (showerheadProfile 30))
     = 17.
Proof.
  destruct showerhead_thirty_baths as (Hraw & Hpersisted & _).
  split; [reflexivity|]. split; [reflexivity|]. split.
  - apply (Hraw (showerheadProfile 30) 30); reflexivity.
  - apply (Hpersisted (showerheadProfile 30)); reflexivity.
Defined.


(** C8 on the profile and the log with no field at all. *)
Lemma absent_fields_are_defaults_witness :
  @truthy Q QNumber (lit 0) = false
  /\ calculateInitialWaterConsumption (N:=QNumber) (fillProfile absentProfile)
     = calculateInitialWaterConsumption absentProfile
  /\ calculateDailyWaterConsumption (N:=QNumber)
       (fillActivity absentActivity) (fillProfile absentProfile)
     = calculateDailyWaterConsumption absentActivity absentProfile.
Proof.
  split; [reflexivity|].
  exact (@absent_fields_are_defaults Q QNumber eq_refl absentActivity absentProfile).
Defined.


(** C10 on the class names "efficient", "inefficient", "bucket" and
    "minimal". *)
Lemma unrecognized_class_contributes_nothing_witness :
  @round Q QNumber (lit 0) = lit 0
  /\ dishwasherGallons (calculateInitialWaterConsumption (N:=QNumber) unrecognizedProfile) = 0
  /\ laundryGallons (calculateInitialWaterConsumption (N:=QNumber) unrecognizedProfile) = 0
  /\ carWashGallons (calculateInitialWaterConsumption (N:=QNumber) unrecognizedProfile) = 0
  /\ shoppingGallons (calculateInitialWaterConsumption (N:=QNumber) unrecognizedProfile) = 0.
Proof.
  split; [reflexivity|].
  destruct (@unrecognized_class_contributes_nothing Q QNumber eq_refl unrecognizedProfile)
    as (Hdish & Hlaundry & Hcar & Hshop).
  split; [apply Hdish; reflexivity|].
  split; [apply Hlaundry; reflexivity|].
  split; [apply Hcar; reflexivity|].
  apply Hshop; reflexivity.
Defined.

End Runs.

(** ** Fields and tags that do not matter, and tags that help *)

Section Tags.

Context {num : Type} {N : Number num}.
Local Open Scope string_scope.

(** X6. The greywater flag is stored with the profile and read by neither
    estimator: whatever it is set to, the baseline and the day's breakdown
    are the same.  In every arithmetic. *)
Theorem greywater_is_ignored :
  forall (flag : option bool) (d : DailyQuizResponse num) (p : InitialQuizResponse num),
    calculateInitialWaterConsumption (withGreywater flag p)
    = calculateInitialWaterConsumption p
    /\ calculateDailyWaterConsumption d (withGreywater flag p)
       = calculateDailyWaterConsumption d p.
Proof.
  intros flag d p.
  assert (Hraw : initialCategories (withGreywater flag p) = initialCategories p)
    by reflexivity.
  assert (Hbase : calculateInitialWaterConsumption (withGreywater flag p)
                  = calculateInitialWaterConsumption p).
  { unfold calculateInitialWaterConsumption. now rewrite Hraw. }
  split; [exact Hbase|].
  unfold calculateDailyWaterConsumption, dailyCategories.
  rewrite Hbase. reflexivity.
Qed.

Lemma optIncludes_withAppliance s tag (p : InitialQuizResponse num) :
  optIncludes s (appliances (withAppliance tag p))
  = String.eqb s tag || optIncludes s (appliances p).
Proof. unfold withAppliance, optIncludes; simpl. destruct (appliances p); reflexivity. Qed.

(** Only the showerhead tag is read by the baseline. *)
Lemma calculateInitialWaterConsumption_withAppliance tag (p : InitialQuizResponse num) :
  tag <> "showerhead" ->
  calculateInitialWaterConsumption (withAppliance tag p)
  = calculateInitialWaterConsumption p.
Proof.
  intros Htag.
  assert (E : String.eqb "showerhead" tag = false).
  { apply String.eqb_neq. congruence. }
  unfold calculateInitialWaterConsumption. do 2 f_equal.
  unfold initialCategories, withAppliance; cbv zeta.
  cbn [appliances bathsPerMonth dishwasherType dishwasherFrequency laundryType
       laundryFrequency hasGarden gardenArea gardenFrequency hasPool
       carWashMethod carWashFrequency utilityPercentage shoppingHabits].
  assert (Hinc : forall l, includes "showerhead" (tag :: l) = includes "showerhead" l).
  { intros l. unfold includes; cbn [existsb]. rewrite E. reflexivity. }
  rewrite !Hinc. reflexivity.
Qed.

End Tags.

(** ** Password hashing: what is stored verifies, and only that *)

Section HexAndSplit.

Local Open Scope string_scope.

Lemma fromHex_toHex_byte (b : Byte.byte) (s : string) :
  fromHex (String (hexDigit (Byte.to_N b / 16))
             (String (hexDigit (Byte.to_N b mod 16)) s))
  = b :: fromHex s.
Proof. destruct b; reflexivity. Qed.

(** Decoding undoes encoding. *)
Lemma fromHex_toHex (buf : list Byte.byte) : fromHex (toHex buf) = buf.
Proof.
  induction buf as [|b rest IH]; [reflexivity|].
  cbn [toHex]. rewrite fromHex_toHex_byte, IH. reflexivity.
Qed.

Lemma hexDigit_not_dot (b : Byte.byte) :
  Ascii.eqb (hexDigit (Byte.to_N b / 16)) "." = false
  /\ Ascii.eqb (hexDigit (Byte.to_N b mod 16)) "." = false.
Proof. destruct b; split; reflexivity. Qed.

(** The encoding has no dot in it. *)
Lemma occurs_toHex (buf : list Byte.byte) : occurs "." (toHex buf) = false.
Proof.
  induction buf as [|b rest IH]; [reflexivity|].
  cbn [toHex occurs].
  destruct (hexDigit_not_dot b) as [Hhi Hlo].
  rewrite Hhi, Hlo, IH. reflexivity.
Qed.

Lemma split_nonempty (sep : Ascii.ascii) (s : string) : split sep s <> [].
Proof.
  destruct s as [|c rest]; simpl; [discriminate|].
  destruct (Ascii.eqb c sep); [discriminate|].
  destruct (split sep rest); discriminate.
Qed.

(** A string without the separator is one segment. *)
Lemma split_without (sep : Ascii.ascii) (s : string) :
  occurs sep s = false -> split sep s = [s].
Proof.
  induction s as [|c rest IH]; [reflexivity|].
  cbn [occurs split]. intros H. apply orb_false_iff in H. destruct H as [Hc Hrest].
  rewrite Hc, (IH Hrest). reflexivity.
Qed.

(** The first separator ends the first segment. *)
Lemma split_append (sep : Ascii.ascii) (s t : string) :
  occurs sep s = false ->
  split sep (s ++ String sep t) = s :: split sep t.
Proof.
  induction s as [|c rest IH]; intros H.
  - cbn [append split]. rewrite Ascii.eqb_refl. reflexivity.
  - cbn [occurs] in H. apply orb_false_iff in H. destruct H as [Hc Hrest].
    cbn [append split]. rewrite Hc, (IH Hrest). reflexivity.
Qed.

Lemma bytes_eqb_eq (a b : list Byte.byte) : bytes_eqb a b = true <-> a = b.
Proof.
  revert b. induction a as [|x a IH]; intros [|y b]; simpl;
    try (split; [discriminate | discriminate]); [tauto|].
  rewrite andb_true_iff, IH. split.
  - intros [Hxy Hab]. apply Byte.byte_dec_bl in Hxy. congruence.
  - intros H. injection H as -> ->. split; [apply Byte.byte_dec_lb|]; reflexivity.
Qed.

(** [timingSafeEqual] answers true on equal buffers and on nothing else. *)
Lemma timingSafeEqual_true (a b : list Byte.byte) :
  timingSafeEqual a b = inr true <-> a = b.
Proof.
  unfold timingSafeEqual. split.
  - destruct (Nat.eqb (List.length a) (List.length b)); [|discriminate].
    intros H. injection H as H. apply bytes_eqb_eq. exact H.
  - intros ->. rewrite Nat.eqb_refl. f_equal. apply bytes_eqb_eq. reflexivity.
Qed.

End HexAndSplit.

Section Passwords.

Variable scrypt : string -> string -> nat -> list Byte.byte.
Local Open Scope string_scope.

(** Checking a password against a hash just made compares the two derived
    keys, under the salt of the hash. *)
Lemma comparePasswords_hashPassword supplied password randomBytes :
  comparePasswords scrypt supplied (hashPassword scrypt password randomBytes)
  = timingSafeEqual (scrypt password (toHex randomBytes) 64)
                    (scrypt supplied (toHex randomBytes) 64).
Proof.
  unfold comparePasswords, hashPassword; cbv zeta.
  change (toHex (scrypt password (toHex randomBytes) 64) ++ "." ++ toHex randomBytes)
    with (toHex (scrypt password (toHex randomBytes) 64)
          ++ String "." (toHex randomBytes)).
  rewrite split_append by apply occurs_toHex.
  rewrite split_without by apply occurs_toHex.
  rewrite fromHex_toHex. reflexivity.
Qed.

(** X8. A password verifies against its own hash: whatever the sixteen
    random bytes and whatever the key derivation returns,
    comparePasswords(password, hashPassword(password)) resolves to true. *)
Theorem password_verifies_against_its_hash :
  forall (password : string) (randomBytes : list Byte.byte),
    comparePasswords scrypt password (hashPassword scrypt password randomBytes)
    = inr true.
Proof.
  intros password randomBytes.
  rewrite comparePasswords_hashPassword.
  apply timingSafeEqual_true. reflexivity.
Qed.

(** X9. Another password verifies against a stored hash exactly when it
    derives the same key under the stored salt. *)
Theorem other_password_needs_same_key :
  forall (supplied password : string) (randomBytes : list Byte.byte),
    comparePasswords scrypt supplied (hashPassword scrypt password randomBytes)
    = inr true
    <-> scrypt supplied (toHex randomBytes) 64
        = scrypt password (toHex randomBytes) 64.
Proof.
  intros supplied password randomBytes.
  rewrite comparePasswords_hashPassword, timingSafeEqual_true.
  split; intros H; symmetry; exact H.
Qed.

(** X10. comparePasswords resolves to true only on a stored string with a
    dot whose first segment decodes to the key derived from the supplied
    password and the second segment; on a stored string with no dot the
    promise is rejected. *)
Theorem stored_format_is_required :
  forall (supplied stored : string),
    (comparePasswords scrypt supplied stored = inr true ->
     exists hashed salt rest,
       split "." stored = hashed :: salt :: rest
       /\ fromHex hashed = scrypt supplied salt 64)
    /\ (occurs "." stored = false ->
        comparePasswords scrypt supplied stored = inl TypeError).
Proof.
  intros supplied stored. split.
  - unfold comparePasswords.
    destruct (split "." stored) as [|hashed [|salt rest]]; try discriminate.
    cbv zeta. intros H. apply timingSafeEqual_true in H.
    exists hashed, salt, rest. split; [reflexivity | exact H].
  - intros Hdot. unfold comparePasswords.
    rewrite (split_without _ _ Hdot). reflexivity.
Qed.

End Passwords.

(** ** What the handlers write, against any storage *)

Section HandlerRuns.

Context {num : Type} {N : Number num}.
Variable Body : Type.
Variable parseInitialQuiz : Body -> ZodError + InitialQuizResponse num.
Variable parseDailyQuiz : Body -> ZodError + DailyQuizResponse num.
Variable withArrayAppliances : Body -> Body.

(** A storage of any state, answering any way. *)
Variable Store : Type.
Variable answer : forall T : Type, StorageCall num Body T -> Store -> (string + T) * Store.

Local Open Scope string_scope.
Local Open Scope Z_scope.

Ltac evaluate :=
  cbn [run awaitOr json send sendStatus unhandled fst snd negb
       consumptionWrites writes isWrite goalWrites
       storedDailyQuiz fetchedDailyQuiz storedInitialQuiz fetchedInitialQuiz
       firstRow dailyQuizStoredBy dailyQuizFetchedBy initialQuizStoredBy
       initialQuizFetchedBy fetchedConsumption createdConsumption
       consumptionFetchedBy consumptionCreatedBy dailyUpdates
       createdPasswords List.length].

Ltac explore :=
  repeat (evaluate;
    match goal with
    | |- context [@answer ?T ?c ?s] =>
        let a := fresh "a" in
        let s' := fresh "s" in
        destruct (@answer T c s) as [a s']; destruct a as [?|?]
    | |- context [match ?x with Some _ => _ | None => _ end] =>
        is_var x; destruct x
    | |- context [isAuthenticated ?r] => destruct (isAuthenticated r)
    | |- context [parseDailyQuiz ?b] => destruct (parseDailyQuiz b) as [?|?]
    | |- context [parseInitialQuiz ?b] => destruct (parseInitialQuiz b) as [?|?]
    end); evaluate.

(** X11. POST /api/daily-quiz, against any storage.  In one run it hands at
    most one breakdown to storage, and that breakdown is
    calculateDailyWaterConsumption of the daily row storage returned from
    the create or update and the profile row it returned; nothing at all is
    written unless storage returned a profile row; and a 200 or 201 is sent
    only after that one breakdown was handed over. *)
Theorem daily_quiz_persists_adjusted_day :
  forall (s : Store) (req : Request num Body) (today : Z),
    let events := fst (run answer s (postDailyQuiz parseDailyQuiz req today)) in
    let outcome := snd (run answer s (postDailyQuiz parseDailyQuiz req today)) in
    (consumptionWrites events = []
     \/ exists daily initial,
          storedDailyQuiz events = Some daily
          /\ fetchedInitialQuiz events = Some initial
          /\ consumptionWrites events
             = [calculateDailyWaterConsumption daily initial])
    /\ (fetchedInitialQuiz events = None -> writes events = [])
    /\ (forall status payload,
          outcome = Responded status payload ->
          status = 200 \/ status = 201 ->
          exists daily,
            storedDailyQuiz events = Some daily
            /\ payload = DailyQuizJson daily
            /\ List.length (consumptionWrites events) = 1%nat).
Proof.
  intros s req today. cbv zeta. unfold postDailyQuiz.
  explore.
  all: split; [|split].
  all: match goal with
       | |- _ \/ _ =>
           first [ left; reflexivity
                 | right; eexists _, _; repeat split; reflexivity ]
       | |- _ = None -> _ => first [ intros _; reflexivity | discriminate ]
       | |- forall status payload, _ = Responded status payload -> _ =>
           intros status payload Hout Hstatus;
           first [ discriminate Hout
                 | injection Hout as <- <-;
                   first [ destruct Hstatus; discriminate
                         | eexists; repeat split; reflexivity ] ]
       end.
Qed.

(** X12. PATCH /api/daily-quiz, against any storage.  The breakdown it
    hands to storage, if any, is calculateDailyWaterConsumption of the
    updated daily row and the profile row; without a daily row for today
    nothing is written; the update carries the request body as it came, not
    the data the schema returned; and, unlike the POST, it answers 200 with
    the updated row even when there is no profile row, the breakdown then
    being left as it was. *)
Theorem daily_quiz_patch_recomputes_day :
  forall (s : Store) (req : Request num Body) (today : Z),
    let events := fst (run answer s (patchDailyQuiz parseDailyQuiz req today)) in
    let outcome := snd (run answer s (patchDailyQuiz parseDailyQuiz req today)) in
    (consumptionWrites events = []
     \/ exists daily initial,
          storedDailyQuiz events = Some daily
          /\ fetchedInitialQuiz events = Some initial
          /\ consumptionWrites events
             = [calculateDailyWaterConsumption daily initial])
    /\ (fetchedDailyQuiz events = None -> writes events = [])
    /\ (forall data, In data (dailyUpdates events) -> data = Unvalidated (body req))
    /\ (forall status payload,
          outcome = Responded status payload ->
          status = 200 ->
          exists daily,
            storedDailyQuiz events = Some daily
            /\ payload = DailyQuizJson daily
            /\ (fetchedInitialQuiz events = None -> consumptionWrites events = [])
            /\ (fetchedInitialQuiz events <> None ->
                List.length (consumptionWrites events) = 1%nat)).
Proof.
  intros s req today. cbv zeta. unfold patchDailyQuiz.
  explore.
  all: split; [|split; [|split]].
  all: match goal with
       | |- _ \/ _ =>
           first [ left; reflexivity
                 | right; eexists _, _; repeat split; reflexivity ]
       | |- _ = None -> _ => first [ intros _; reflexivity | discriminate ]
       | |- forall data, In data _ -> _ =>
           first [ intros data [<-|[]]; reflexivity | intros data [] ]
       | |- forall status payload, _ = Responded status payload -> _ =>
           intros status payload Hout Hstatus;
           first [ discriminate Hout
                 | injection Hout as <- <-;
                   first [ discriminate Hstatus
                         | eexists; repeat split;
                           try reflexivity; try discriminate; congruence ] ]
       end.
Qed.

(** X13. GET /api/water-consumption, against any storage.  A breakdown
    storage has for today is sent as it is and nothing is written.  The only
    breakdown the route ever hands to storage is
    calculateInitialWaterConsumption of the profile row, never the adjusted
    day, and a 200 carries the row storage returned, the one it created, or
    null. *)
Theorem consumption_route_creates_baseline :
  forall (s : Store) (req : Request num Body) (today : Z),
    let events := fst (run answer s (getWaterConsumptionRoute req today)) in
    let outcome := snd (run answer s (getWaterConsumptionRoute req today)) in
    (forall row,
       fetchedConsumption events = Some row ->
       outcome = Responded 200 (ConsumptionJson row) /\ writes events = [])
    /\ (consumptionWrites events = []
        \/ exists initial,
             fetchedInitialQuiz events = Some initial
             /\ consumptionWrites events
                = [calculateInitialWaterConsumption initial])
    /\ (forall status payload,
          outcome = Responded status payload ->
          status = 200 ->
          payload = NullJson /\ writes events = []
          \/ (exists row, fetchedConsumption events = Some row
                          /\ payload = ConsumptionJson row)
          \/ (exists row, createdConsumption events = Some row
                          /\ payload = ConsumptionJson row)).
Proof.
  intros s req today. cbv zeta. unfold getWaterConsumptionRoute.
  explore.
  all: split; [|split].
  all: match goal with
       | |- forall row, _ = Some row -> _ =>
           intros row Hrow;
           first [ discriminate Hrow
                 | injection Hrow as <-; split; reflexivity ]
       | |- _ \/ _ =>
           first [ left; reflexivity | right; eexists; split; reflexivity ]
       | |- forall status payload, _ = Responded status payload -> _ =>
           intros status payload Hout Hstatus;
           first [ discriminate Hout
                 | injection Hout as <- <-;
                   first [ discriminate Hstatus
                         | left; split; reflexivity
                         | right; left; eexists; split; reflexivity
                         | right; right; eexists; split; reflexivity ] ]
       end.
Qed.

(** X14. POST /api/initial-quiz, against any storage.  In one run it hands
    at most one breakdown to storage: the adjusted day,
    calculateDailyWaterConsumption of today's daily row and the stored
    profile row, when storage returned a daily row for today, and otherwise
    calculateInitialWaterConsumption of the stored profile row; a 200 or 201
    carries the stored profile row and is sent only after that breakdown was
    handed over. *)
Theorem initial_quiz_persists_baseline_or_day :
  forall (s : Store) (req : Request num Body) (today : Z),
    let events :=
      fst (run answer s
             (postInitialQuiz parseInitialQuiz withArrayAppliances req today)) in
    let outcome :=
      snd (run answer s
             (postInitialQuiz parseInitialQuiz withArrayAppliances req today)) in
    (consumptionWrites events = []
     \/ exists row,
          storedInitialQuiz events = Some row
          /\ match fetchedDailyQuiz events with
             | Some daily =>
                 consumptionWrites events
                 = [calculateDailyWaterConsumption daily row]
             | None =>
                 consumptionWrites events = [calculateInitialWaterConsumption row]
             end)
    /\ (forall status payload,
          outcome = Responded status payload ->
          status = 200 \/ status = 201 ->
          exists row,
            storedInitialQuiz events = Some row
            /\ payload = InitialQuizJson row
            /\ List.length (consumptionWrites events) = 1%nat).
Proof.
  intros s req today. cbv zeta. unfold postInitialQuiz.
  explore.
  all: split.
  all: match goal with
       | |- _ \/ _ =>
           first [ left; reflexivity | right; eexists; split; reflexivity ]
       | |- forall status payload, _ = Responded status payload -> _ =>
           intros status payload Hout Hstatus;
           first [ discriminate Hout
                 | injection Hout as <- <-;
                   first [ destruct Hstatus; discriminate
                         | eexists; repeat split; reflexivity ] ]
       end.
Qed.

(** Whatever a route hands to storage as a breakdown is an output of one
    of the two estimators. *)
Lemma routes_write_estimates :
  forall (s : Store) (req : Request num Body) (today : Z) (w : WaterConsumption num),
    In w (consumptionWrites
            (fst (run answer s
                    (postInitialQuiz parseInitialQuiz withArrayAppliances req today))))
    \/ In w (consumptionWrites
               (fst (run answer s (postDailyQuiz parseDailyQuiz req today))))
    \/ In w (consumptionWrites
               (fst (run answer s (patchDailyQuiz parseDailyQuiz req today))))
    \/ In w (consumptionWrites
               (fst (run answer s (getWaterConsumptionRoute req today)))) ->
    (exists d p, w = calculateDailyWaterConsumption d p)
    \/ (exists p, w = calculateInitialWaterConsumption p).
Proof.
  intros s req today w [H|[H|[H|H]]]; revert H.
  - unfold postInitialQuiz. explore.
    all: cbn [In]; intros H;
      match type of H with
      | False => destruct H
      | _ => destruct H as [<-|[]]; eauto
      end.
  - unfold postDailyQuiz. explore.
    all: cbn [In]; intros H;
      match type of H with
      | False => destruct H
      | _ => destruct H as [<-|[]]; eauto
      end.
  - unfold patchDailyQuiz. explore.
    all: cbn [In]; intros H;
      match type of H with
      | False => destruct H
      | _ => destruct H as [<-|[]]; eauto
      end.
  - unfold getWaterConsumptionRoute. explore.
    all: cbn [In]; intros H;
      match type of H with
      | False => destruct H
      | _ => destruct H as [<-|[]]; eauto
      end.
Qed.

End HandlerRuns.

(** ** The goal route and the sign-in, against any storage *)

Section GoalRuns.

Variable Body : Type.
Variable bodyGoal : Body -> JsValue Q.
Variable Store : Type.
Variable answer : forall T : Type, StorageCall Q Body T -> Store -> (string + T) * Store.

Local Open Scope string_scope.
Local Open Scope Q_scope.

(** The guard of the route on a number. *)
Lemma goal_guard (goal : Q) :
  negb (toBoolean (JsNumber goal)) || negb (isNumber (JsNumber goal))
  || lessThan (JsNumber goal) (lit 800) || greaterThan (JsNumber goal) (lit 2000)
  = false
  <-> 800 <= goal /\ goal <= 2000.
Proof.
  cbn [toBoolean isNumber lessThan greaterThan negb orb lit QNumber ltb truthy].
  rewrite !orb_false_r, !orb_false_iff, negb_false_iff.
  rewrite !Qltb_ge. unfold Qtruthy. rewrite negb_true_iff.
  split.
  - intros [[_ Hlo] Hhi]. split; assumption.
  - intros [Hlo Hhi]. repeat split; try assumption.
    destruct (Qeq_bool goal 0) eqn:E; [|reflexivity].
    apply Qeq_bool_iff in E. lra.
Qed.

(** X15. POST /api/goal (the handler registered first), against any storage
    and in exact arithmetic.  A goal reaches storage only from an
    authenticated request whose body holds it as a number between 800 and
    2000; such a goal is handed over once and as it is; every other
    authenticated request is answered 400 without a call. *)
Theorem goal_reaches_storage_only_within_bounds :
  forall (s : Store) (req : Request Q Body),
    let events := fst (run answer s (postGoal bodyGoal req)) in
    let outcome := snd (run answer s (postGoal bodyGoal req)) in
    (forall goal,
       In goal (goalWrites events) ->
       isAuthenticated req = true
       /\ bodyGoal (body req) = JsNumber goal
       /\ 800 <= goal /\ goal <= 2000)
    /\ (forall goal,
          isAuthenticated req = true ->
          bodyGoal (body req) = JsNumber goal ->
          800 <= goal -> goal <= 2000 ->
          goalWrites events = [goal])
    /\ (isAuthenticated req = true ->
        goalWrites events = [] ->
        events = []
        /\ outcome
           = Responded 400
               (Text "Invalid goal value. Must be between 800 and 2000 gallons.")).
Proof.
  intros s req. cbv zeta. unfold postGoal.
  destruct (isAuthenticated req).
  2: { cbn. split; [intros goal []|]. split; intros; discriminate. }
  cbn [negb].
  destruct (bodyGoal (body req)) as [| |b|goal|text|] eqn:Egoal.
  1-3, 5-6:
    rewrite ?orb_true_r; cbn [toBoolean isNumber negb orb];
    try (destruct b); try (destruct (negb (String.eqb text "")));
    cbn; (split; [intros goal []|]); split; intros; try discriminate;
    split; reflexivity.
  destruct (negb (toBoolean (JsNumber goal)) || negb (isNumber (JsNumber goal))
            || lessThan (JsNumber goal) (lit 800)
            || greaterThan (JsNumber goal) (lit 2000)) eqn:Eguard.
  - assert (Hout : ~ (800 <= goal /\ goal <= 2000)).
    { intros H. apply goal_guard in H. congruence. }
    cbn. split; [intros g []|]. split.
    + intros g _ Hg Hlo Hhi. injection Hg as <-. tauto.
    + intros _ _. split; reflexivity.
  - apply goal_guard in Eguard. destruct Eguard as [Hlo Hhi].
    cbn [run awaitOr fst snd].
    destruct (answer (updateUserGoal (id (user req)) goal) s) as [[error|[updated|]] s'];
      cbn; (split; [|split]).
    all: try (intros g [<-|[]]; repeat split; assumption).
    all: try (intros g _ Hg _ _; injection Hg as <-; reflexivity).
    all: intros _ Hnone; discriminate Hnone.
Qed.

End GoalRuns.

Section SignInRuns.

Variable num : Type.
Variable Body : Type.
Variable scrypt : string -> string -> nat -> list Byte.byte.
Variable Store : Type.
Variable answer : forall T : Type, StorageCall num Body T -> Store -> (string + T) * Store.

Local Open Scope string_scope.

(** X16. The verify callback of the LocalStrategy, against any storage.  It
    accepts a user exactly when storage returned that user for the name and
    comparePasswords resolved to true on the supplied password and the
    stored one; and it makes the one lookup and writes nothing. *)
Theorem sign_in_accepts_exactly_the_verified :
  forall (s : Store) (name supplied : string) (u : User num),
    (snd (run answer s (verify scrypt name supplied)) = Accepted u
     <-> fst (answer (getUserByUsername name) s) = inr (Some u)
         /\ comparePasswords scrypt supplied (password u) = inr true)
    /\ writes (fst (run answer s (verify scrypt name supplied))) = [].
Proof.
  intros s name supplied u. unfold verify. cbn [run].
  destruct (answer (getUserByUsername name) s) as [[error|[found|]] s'].
  - cbn [fst snd run writes isWrite].
    split; [|reflexivity]. split; [discriminate | intros [H _]; discriminate H].
  - destruct (comparePasswords scrypt supplied (password found)) as [e|[|]] eqn:E;
      cbn [negb fst snd run writes isWrite]; (split; [|reflexivity]).
    + split; [discriminate|]. intros [H1 H2]. injection H1 as ->. congruence.
    + split.
      * intros H. injection H as ->. split; [reflexivity | exact E].
      * intros [H _]. injection H as ->. reflexivity.
    + split; [discriminate|]. intros [H1 H2]. injection H1 as ->. congruence.
  - cbn [fst snd run writes isWrite].
    split; [|reflexivity]. split; [discriminate | intros [H _]; discriminate H].
Qed.

(** X17. POST /api/register and the sign-in together.  The handler creates
    no user when storage knows the name; the one password it ever hands to
    storage is hashPassword of the plain one; and a row storage later
    returns with that stored password is accepted by the verify callback
    under the plain password. *)
Theorem registered_password_signs_in :
  forall (s : Store) (name plain : string) (randomBytes : list Byte.byte),
    let events := fst (run answer s (register scrypt name plain randomBytes)) in
    let outcome := snd (run answer s (register scrypt name plain randomBytes)) in
    (createdPasswords events = []
     \/ createdPasswords events = [hashPassword scrypt plain randomBytes])
    /\ (forall existing,
          fst (answer (getUserByUsername name) s) = inr (Some existing) ->
          createdPasswords events = []
          /\ outcome = Responded 400 (Text "Username already exists"))
    /\ (forall stored (s' : Store) (u : User num),
          In stored (createdPasswords events) ->
          fst (answer (getUserByUsername name) s') = inr (Some u) ->
          password u = stored ->
          snd (run answer s' (verify scrypt name plain)) = Accepted u).
Proof.
  intros s name plain randomBytes. cbv zeta.
  assert (Hverify : forall (s' : Store) (u : User num),
             fst (answer (getUserByUsername name) s') = inr (Some u) ->
             password u = hashPassword scrypt plain randomBytes ->
             snd (run answer s' (verify scrypt name plain)) = Accepted u).
  { intros s' u Hu Hpw. unfold verify. cbn [run].
    destruct (answer (getUserByUsername name) s') as [a s''].
    cbn [fst] in Hu. subst a. cbn [run snd].
    rewrite Hpw, comparePasswords_hashPassword.
    replace (timingSafeEqual (scrypt plain (toHex randomBytes) 64)
                             (scrypt plain (toHex randomBytes) 64))
      with (@inr JsError bool true); [reflexivity|].
    symmetry. apply timingSafeEqual_true. reflexivity. }
  unfold register. cbn [run awaitOr].
  destruct (answer (getUserByUsername name) s) as [[error|[existing|]] s1];
    cbn [fst snd run awaitOr createdPasswords].
  - split; [left; reflexivity|]. split; [intros ? H; discriminate H|].
    intros stored s' u [].
  - split; [left; reflexivity|]. split; [intros ? _; split; reflexivity|].
    intros stored s' u [].
  - destruct (answer (createUser name (hashPassword scrypt plain randomBytes)) s1)
      as [[error|created] s2]; cbn [fst snd run awaitOr createdPasswords].
    + split; [right; reflexivity|]. split; [intros ? H; discriminate H|].
      intros stored s' u [<-|[]] Hu Hpw. apply Hverify; assumption.
    + destruct (answer (login created) s2) as [[error|[]] s3];
        cbn [fst snd run awaitOr createdPasswords].
      all: split; [right; reflexivity|]; split; [intros ? H; discriminate H|].
      all: intros stored s' u [<-|[]] Hu Hpw; apply Hverify; assumption.
Qed.

End SignInRuns.

(** ** The further properties on concrete inputs *)

Section FurtherRuns.

Local Open Scope Q_scope.
Local Open Scope string_scope.

(** X10 on a stored string with no dot. *)
Lemma stored_format_is_required_witness :
  occurs "." "c0ffee" = false
  /\ comparePasswords toyScrypt "secret" "c0ffee" = inl TypeError.
Proof.
  split; [reflexivity|].
  apply (proj2 (stored_format_is_required toyScrypt "secret" "c0ffee")).
  reflexivity.
Defined.

(** X9 on a password and itself under the stand-in derivation. *)
Lemma other_password_needs_same_key_witness :
  toyScrypt "secret" (toHex [Byte.x01; Byte.xfe]) 64
  = toyScrypt "secret" (toHex [Byte.x01; Byte.xfe]) 64
  /\ comparePasswords toyScrypt "secret"
       (hashPassword toyScrypt "secret" [Byte.x01; Byte.xfe]) = inr true.
Proof.
  split; [reflexivity|].
  apply (proj2 (other_password_needs_same_key toyScrypt "secret" "secret"
                  [Byte.x01; Byte.xfe])).
  reflexivity.
Defined.

(** X11 on a storage with a profile and nothing for today, and on one
    without a profile. *)
Lemma daily_quiz_persists_adjusted_day_witness :
  List.length
    (consumptionWrites
       (fst (run (fixedStorage (Some defaultProfile) None None) tt
               (postDailyQuiz (N:=QNumber) (fun _ : unit => inr busyDay)
                  (requestOf tt) 0)))) = 1%nat
  /\ writes
       (fst (run (fixedStorage None None None) tt
               (postDailyQuiz (N:=QNumber) (fun _ : unit => inr busyDay)
                  (requestOf tt) 0))) = [].
Proof.
  split.
  - destruct (@daily_quiz_persists_adjusted_day Q QNumber unit
                (fun _ => inr busyDay) unit
                (fixedStorage (Some defaultProfile) None None) tt (requestOf tt) 0)
      as (_ & _ & Hsent).
    destruct (Hsent 201%Z (DailyQuizJson busyDay) eq_refl (or_intror eq_refl))
      as (daily & _ & _ & Hlen).
    exact Hlen.
  - destruct (@daily_quiz_persists_adjusted_day Q QNumber unit
                (fun _ => inr busyDay) unit
                (fixedStorage None None None) tt (requestOf tt) 0)
      as (_ & Hnone & _).
    exact (Hnone eq_refl).
Defined.

(** X12 on a storage with a daily row and no profile: the row is updated,
    200 is sent and no breakdown is written. *)
Lemma daily_quiz_patch_recomputes_day_witness :
  consumptionWrites
    (fst (run (fixedStorage None (Some busyDay) None) tt
            (patchDailyQuiz (N:=QNumber) (fun _ : unit => inr busyDay)
               (requestOf tt) 0))) = []
  /\ writes
       (fst (run (fixedStorage None None None) tt
               (patchDailyQuiz (N:=QNumber) (fun _ : unit => inr busyDay)
                  (requestOf tt) 0))) = [].
Proof.
  split.
  - destruct (@daily_quiz_patch_recomputes_day Q QNumber unit
                (fun _ => inr busyDay) unit
                (fixedStorage None (Some busyDay) None) tt (requestOf tt) 0)
      as (_ & _ & _ & Hsent).
    destruct (Hsent 200%Z (DailyQuizJson busyDay) eq_refl eq_refl)
      as (daily & _ & _ & Hnone & _).
    exact (Hnone eq_refl).
  - destruct (@daily_quiz_patch_recomputes_day Q QNumber unit
                (fun _ => inr busyDay) unit
                (fixedStorage None None None) tt (requestOf tt) 0)
      as (_ & Hnone & _).
    exact (Hnone eq_refl).
Defined.

(** X13 on a storage that has a breakdown for today. *)
Lemma consumption_route_creates_baseline_witness :
  snd (run (fixedStorage (Some defaultProfile) (Some busyDay)
              (Some (calculateInitialWaterConsumption (N:=QNumber) defaultProfile)))
         tt (getWaterConsumptionRoute (N:=QNumber) (requestOf tt) 0))
  = Responded 200
      (ConsumptionJson (calculateInitialWaterConsumption (N:=QNumber) defaultProfile)).
Proof.
  destruct (@consumption_route_creates_baseline Q QNumber unit unit
              (fixedStorage (Some defaultProfile) (Some busyDay)
                 (Some (calculateInitialWaterConsumption (N:=QNumber) defaultProfile)))
              tt (requestOf tt) 0)
    as (Hfetched & _ & _).
  exact (proj1 (Hfetched _ eq_refl)).
Defined.

(** X14 on a first submission. *)
Lemma initial_quiz_persists_baseline_or_day_witness :
  List.length
    (consumptionWrites
       (fst (run (fixedStorage None None None) tt
               (postInitialQuiz (N:=QNumber) (fun _ : unit => inr defaultProfile)
                  (fun b => b) (requestOf tt) 0)))) = 1%nat.
Proof.
  destruct (@initial_quiz_persists_baseline_or_day Q QNumber unit
              (fun _ => inr defaultProfile) (fun b => b) unit
              (fixedStorage None None None) tt (requestOf tt) 0)
    as (_ & Hsent).
  destruct (Hsent 201%Z (InitialQuizJson defaultProfile) eq_refl (or_intror eq_refl))
    as (row & _ & _ & Hlen).
  exact Hlen.
Defined.

(** X15 on a goal of 1400 gallons. *)
Lemma goal_reaches_storage_only_within_bounds_witness :
  goalWrites
    (fst (run (fixedStorage None None None) tt
            (postGoal (fun _ : unit => JsNumber 1400) (requestOf tt)))) = [1400].
Proof.
  destruct (@goal_reaches_storage_only_within_bounds unit
              (fun _ => JsNumber 1400) unit (fixedStorage None None None) tt
              (requestOf tt))
    as (_ & Hstored & _).
  apply Hstored; [reflexivity | reflexivity | discriminate | discriminate].
Defined.

(** X16 on a user stored with the hash of "secret". *)
Lemma sign_in_accepts_exactly_the_verified_witness :
  snd (run (userStorage (num:=Q) (Body:=unit))
         (Some {| id := 8; username := "ada";
                  password := hashPassword toyScrypt "secret" [Byte.x01; Byte.xfe];
                  waterGoal := None; initialQuizCompleted := Some false;
                  name := None; email := None; phone := None |})
         (verify toyScrypt "ada" "secret"))
  = Accepted
      {| id := 8; username := "ada";
         password := hashPassword toyScrypt "secret" [Byte.x01; Byte.xfe];
         waterGoal := None; initialQuizCompleted := Some false;
         name := None; email := None; phone := None |}.
Proof.
  apply (proj1 (@sign_in_accepts_exactly_the_verified Q unit toyScrypt _
                  userStorage _ "ada" "secret" _)).
  split; reflexivity.
Defined.

(** X17: registering "ada" on a storage that knows nobody, then signing in
    on the storage as the registration left it. *)
Lemma registered_password_signs_in_witness :
  createdPasswords
    (fst (run (userStorage (num:=Q) (Body:=unit)) None
            (register toyScrypt "ada" "secret" [Byte.x01; Byte.xfe])))
  = [hashPassword toyScrypt "secret" [Byte.x01; Byte.xfe]]
  /\ snd (run (userStorage (num:=Q) (Body:=unit))
            (Some {| id := 8; username := "ada";
                     password := hashPassword toyScrypt "secret" [Byte.x01; Byte.xfe];
                     waterGoal := None; initialQuizCompleted := Some false;
                     name := None; email := None; phone := None |})
            (verify toyScrypt "ada" "secret"))
     = Accepted
         {| id := 8; username := "ada";
            password := hashPassword toyScrypt "secret" [Byte.x01; Byte.xfe];
            waterGoal := None; initialQuizCompleted := Some false;
            name := None; email := None; phone := None |}.
Proof.
  destruct (@registered_password_signs_in Q unit toyScrypt _
              userStorage None "ada" "secret" [Byte.x01; Byte.xfe])
    as (_ & _ & Hsign).
  split; [reflexivity|].
  apply (Hsign (hashPassword toyScrypt "secret" [Byte.x01; Byte.xfe])).
  - left. reflexivity.
  - reflexivity.
  - reflexivity.
Defined.

End FurtherRuns.
